(** * dictycite: the JATS document-to-section-map extractor

    Shallow embedding of [article_fetching/utils/get_text/my_custom.py]:
    the text flattener [_txt], the tag test [_is], the article locator
    [_first_article], the paragraph collector [_collect_level_paragraphs],
    the body and abstract walkers and the public entry point
    [_jats_to_section_paragraph_map].

    Conventions.
    - A Python [str] is a [string]; a character is a code point below 256.
    - An [xml.etree.ElementTree.Element] is an [Element]: tag, text, tail
      and the ordered children.  [text] and [tail] are [option string]
      ([None] for Python's [None]).  Attributes are never read by the code
      and are left out.
    - The [Dict[str, List[str]]] the walkers fill is an insertion-ordered
      association list with one entry per key ([store]). *)

From Stdlib Require Import List String Ascii Bool Arith ZArith Lia DecimalString
  Sorted.
Import ListNotations.
Open Scope string_scope.
Open Scope list_scope.

Set Warnings "-register-all".

(* ================================================================== *)
(** ** Python string primitives used by the module *)

Module PyStr.

(** [str.isspace] on one character, for code points below 256:
    TAB..CR, FS..US, SPACE, NEL and NBSP. *)
Definition isspace (c : ascii) : bool :=
  let n := nat_of_ascii c in
  (((9 <=? n) && (n <=? 13)) || ((28 <=? n) && (n <=? 32))
   || (n =? 133) || (n =? 160))%nat.

(** Truthiness of a [str]: the empty string is falsy. *)
Definition truthy (s : string) : bool :=
  match s with EmptyString => false | String _ _ => true end.

(** [a or b] on strings. *)
Definition or_else (a b : string) : string := if truthy a then a else b.

(** [sep.join(parts)]. *)
Fixpoint join (sep : string) (parts : list string) : string :=
  match parts with
  | [] => ""
  | [p] => p
  | p :: rest => p ++ sep ++ join sep rest
  end.

Definition cons_word (w : string) (ws : list string) : list string :=
  if truthy w then w :: ws else ws.

(** One right-to-left pass of [str.split()]: the word that is still open
    at the head of the string, and the words closed behind it. *)
Fixpoint split_go (s : string) : string * list string :=
  match s with
  | EmptyString => ("", [])
  | String c s' =>
      let '(w, ws) := split_go s' in
      if isspace c then ("", cons_word w ws) else (String c w, ws)
  end.

(** [s.split()] with no separator: maximal runs of non-whitespace. *)
Definition split (s : string) : list string :=
  let '(w, ws) := split_go s in cons_word w ws.

Fixpoint lstrip (s : string) : string :=
  match s with
  | EmptyString => ""
  | String c s' => if isspace c then lstrip s' else s
  end.

Fixpoint rev (s : string) : string :=
  match s with
  | EmptyString => ""
  | String c s' => rev s' ++ String c ""
  end.

Definition rstrip (s : string) : string := rev (lstrip (rev s)).

(** [s.strip()]. *)
Definition strip (s : string) : string := rstrip (lstrip s).

(** [s.endswith(suffix)]: some tail of [s] is [suffix]. *)
Fixpoint endswith (s suffix : string) : bool :=
  String.eqb s suffix
  || match s with
     | EmptyString => false
     | String _ s' => endswith s' suffix
     end.

(** [str(i)] for a non-negative [int]. *)
Definition of_nat (i : nat) : string :=
  NilEmpty.string_of_uint (Nat.to_uint i).

(** A string made of whitespace only (the empty string included). *)
Fixpoint blank (s : string) : bool :=
  match s with
  | EmptyString => true
  | String c s' => isspace c && blank s'
  end.

Definition blank_opt (o : option string) : bool :=
  match o with None => true | Some s => blank s end.

End PyStr.

(* ================================================================== *)
(** ** The element tree *)

Inductive Element : Type :=
| Elem (tag : string) (text tail : option string) (children : list Element).

Definition tag (e : Element) : string :=
  match e with Elem t _ _ _ => t end.
Definition text (e : Element) : option string :=
  match e with Elem _ x _ _ => x end.
Definition tail (e : Element) : option string :=
  match e with Elem _ _ l _ => l end.
Definition children (e : Element) : list Element :=
  match e with Elem _ _ _ cs => cs end.

(** *** ElementPath, as far as the module uses it *)

Module EPath.

(** [e.findall("./t1/t2/...")]: follow child steps by exact tag, in
    document order. *)
Fixpoint findall (path : list string) (e : Element) : list Element :=
  match path with
  | [] => [e]
  | t :: rest =>
      flat_map (findall rest)
               (filter (fun c => String.eqb (tag c) t) (children e))
  end.

(** [e.find("./t1/t2/...")]: the first match, or [None]. *)
Definition find (path : list string) (e : Element) : option Element :=
  hd_error (findall path e).

(** [e.iter()]: the element and its descendants, in document order. *)
Fixpoint iter (e : Element) : list Element :=
  match e with
  | Elem _ _ _ cs => e :: flat_map iter cs
  end.

(** The proper descendants of [e], in document order. *)
Definition descendants (e : Element) : list Element :=
  flat_map iter (children e).

(** [e.find(".//t")]: the first proper descendant tagged exactly [t]. *)
Definition find_descendant (t : string) (e : Element) : option Element :=
  List.find (fun d => String.eqb (tag d) t) (descendants e).

End EPath.

(* ================================================================== *)
(** ** Text utils *)

Definition opt_part (o : option string) : list string :=
  match o with
  | Some s => if PyStr.truthy s then [s] else []
  | None => []
  end.

(** The inner [walk] of [_txt]: the strings appended to [parts]. *)
Fixpoint walk (n : Element) : list string :=
  match n with
  | Elem _ x _ cs =>
      opt_part x ++ flat_map (fun c => walk c ++ opt_part (tail c)) cs
  end.

Definition normalize (parts : list string) : string :=
  PyStr.join " " (PyStr.split (PyStr.join " " parts)).

Definition _txt (el : option Element) : string :=
  match el with
  | None => ""
  | Some n => normalize (walk n)
  end.

Definition _is (el : Element) (name : string) : bool :=
  PyStr.endswith (tag el) name.

(* ================================================================== *)
(** ** The section map under construction *)

Definition Paragraphs := list string.
Definition Store := list (string * Paragraphs).

Module Dict.

(** [d.get(k)]. *)
Fixpoint get (d : Store) (k : string) : option Paragraphs :=
  match d with
  | [] => None
  | (k', v) :: r => if String.eqb k' k then Some v else get r k
  end.

(** [d[k] = v]: replace in place, or insert at the end. *)
Fixpoint set (d : Store) (k : string) (v : Paragraphs) : Store :=
  match d with
  | [] => [(k, v)]
  | (k', v') :: r =>
      if String.eqb k' k then (k', v) :: r else (k', v') :: set r k v
  end.

(** [d.setdefault(k, []).extend(ps)]: extend the list stored under [k],
    creating the entry at the end of the dictionary when [k] is new. *)
Fixpoint setdefault_extend (d : Store) (k : string) (ps : Paragraphs)
  : Store :=
  match d with
  | [] => [(k, [] ++ ps)]
  | (k', v) :: r =>
      if String.eqb k' k then (k', v ++ ps) :: r
      else (k', v) :: setdefault_extend r k ps
  end.

End Dict.

(** Truthiness of a list ([if paras:]). *)
Definition nonempty {A} (l : list A) : bool :=
  match l with [] => false | _ :: _ => true end.

(** [if ps: store.setdefault(k, []).extend(ps)]. *)
Definition add_paragraphs (store : Store) (k : string) (ps : Paragraphs)
  : Store :=
  if nonempty ps then Dict.setdefault_extend store k ps else store.

(* ================================================================== *)
(** ** JATS parsing *)

Definition _first_article (root : Element) : option Element :=
  if _is root "article" then Some root
  else EPath.find_descendant "article" root.

Definition block_tags : list string :=
  [ "p"; "boxed-text"; "disp-quote"; "def-list"; "list";
    "supplementary-material"; "table-wrap-foot"; "statement"; "caption" ].

(** The body of the loop of [_collect_level_paragraphs] for one child:
    the strings it appends to [out]. *)
Definition level_paragraph (node : Element) : Paragraphs :=
  if _is node "title" || _is node "label" || _is node "sec" then []
  else if existsb (_is node) block_tags then
    let txt := PyStr.strip (_txt (Some node)) in
    if PyStr.truthy txt then [txt] else []
  else
    let txt := PyStr.strip (_txt (Some node)) in
    if PyStr.truthy txt then [txt] else [].

Definition _collect_level_paragraphs (container : Element) : Paragraphs :=
  flat_map level_paragraph (children container).

(** The preface loop of [_parse_body_into_map]: it stops at the first
    child whose tag ends in [sec]. *)
Fixpoint preface (nodes : list Element) : Paragraphs :=
  match nodes with
  | [] => []
  | node :: rest =>
      if _is node "sec" then []
      else
        (if negb (_is node "title") then
           let t := PyStr.strip (_txt (Some node)) in
           if PyStr.truthy t then [t] else []
         else [])
        ++ preface rest
  end.

Definition section_title (sec : Element) : string :=
  PyStr.or_else (_txt (EPath.find ["title"] sec)) "Untitled Section".

(** [walk_sec], the closure of [_parse_body_into_map], with the shared
    dictionary passed through. *)
Fixpoint walk_sec (sec : Element) (store : Store) : Store :=
  match sec with
  | Elem _ _ _ cs =>
      let title := section_title sec in
      let paras := _collect_level_paragraphs sec in
      let store := add_paragraphs store title paras in
      fold_left
        (fun st child => if _is child "sec" then walk_sec child st else st)
        cs store
  end.

Definition _parse_body_into_map (article : Element) (store : Store)
  : Store :=
  match EPath.find ["body"] article with
  | None => store
  | Some body =>
      let store := add_paragraphs store "Body (untitled)"
                                  (preface (children body)) in
      fold_left (fun st top => walk_sec top st)
                (EPath.findall ["sec"] body) store
  end.

(** [enumerate(l, start)]. *)
Definition enumerate {A} (start : nat) (l : list A) : list (nat * A) :=
  combine (seq start (List.length l)) l.

Definition base : string := "Abstract".

(** The key of the [i]-th of [n] abstract-like elements. *)
Definition abstract_key (n i : nat) (abs_el : Element) : string :=
  let title_text := _txt (EPath.find ["title"] abs_el) in
  if (n =? 1)%nat && negb (PyStr.truthy title_text) then base
  else PyStr.or_else title_text (base ++ " " ++ PyStr.of_nat i).

Definition abs_nodes (meta : Element) : list Element :=
  EPath.findall ["abstract"] meta ++ EPath.findall ["trans-abstract"] meta.

(** One round of the loop over the sections directly under an abstract. *)
Definition abstract_sec_step (key : string) (store : Store) (s : Element)
  : Store :=
  let stitle := PyStr.or_else (_txt (EPath.find ["title"] s))
                              (key ++ " subsection") in
  add_paragraphs store stitle (_collect_level_paragraphs s).

(** One round of the loop over [enumerate(abs_nodes, 1)]. *)
Definition abstract_step (n : nat) (store : Store) (ia : nat * Element)
  : Store :=
  let '(i, abs_el) := ia in
  let key := abstract_key n i abs_el in
  let store := add_paragraphs store key (_collect_level_paragraphs abs_el) in
  fold_left (abstract_sec_step key)
            (filter (fun c => _is c "sec") (children abs_el)) store.

Definition _parse_abstract_into_map (article : Element) (store : Store)
  : Store :=
  match EPath.find ["front"; "article-meta"] article with
  | None => store
  | Some meta =>
      let nodes := abs_nodes meta in
      if nonempty nodes then
        fold_left (abstract_step (List.length nodes)) (enumerate 1 nodes) store
      else store
  end.

(* ================================================================== *)
(** ** Public API *)

Definition title_el (article : Element) : option Element :=
  match EPath.find ["front"; "article-meta"; "title-group"; "article-title"]
                   article with
  | Some el => Some el
  | None =>
      EPath.find ["front"; "article-meta"; "title-group";
                  "trans-title-group"; "trans-title"] article
  end.

(** The three steps [_jats_to_section_paragraph_map] runs on the article
    element: title, abstracts, body. *)
Definition article_map (article : Element) : Store :=
  let out : Store := [] in
  let title := _txt (title_el article) in
  let out := if PyStr.truthy title then Dict.set out "Title" [title]
             else out in
  let out := _parse_abstract_into_map article out in
  let out := _parse_body_into_map article out in
  out.

(** What [_jats_to_section_paragraph_map] does once [ET.fromstring] has
    returned the root. *)
Definition section_map_of_root (root : Element) : Store :=
  match _first_article root with
  | None => []
  | Some article => article_map article
  end.

(** The outcome of a call: a value, or an exception that reaches the
    caller. *)
Inductive Outcome (A : Type) : Type :=
| Returns (v : A)
| Raises (exn : string).
Arguments Returns {A} v.
Arguments Raises {A} exn.

Section PublicAPI.

(** [ET.fromstring]: the root element, or [None] when the XML library
    raises [ParseError].  The extractor is written against any parser. *)
Variable fromstring : string -> option Element.

Definition _jats_to_section_paragraph_map (raw_xml : string)
  : Outcome Store :=
  match fromstring raw_xml with
  | None => Raises "ParseError"
  | Some root => Returns (section_map_of_root root)
  end.

End PublicAPI.

(* ================================================================== *)
(** ** The XML library call

    [ET.fromstring] belongs to Python's standard library.  [Xml.fromstring]
    models it on a fragment of XML that is enough to write documents down
    as strings: start tags, end tags and empty-element tags without
    attributes, names made of ASCII letters, digits, [_], [-] and [.], and
    character data made of printable ASCII, TAB and LF other than [<], [&]
    and [>].  On this fragment it builds the tree the library builds
    (text before the first child in [text], text after a child in that
    child's [tail], [None] where there is no text); a string that is not
    well formed, or that leaves the fragment, gives [None]. *)

Module Xml.

Inductive token : Type :=
| TOpen (name : string)
| TClose (name : string)
| TEmpty (name : string)
| TData (data : string).

Inductive mode : Type :=
| MData (acc : string)
| MLt
| MOpenName (acc : string)
| MOpenSpace (name : string)
| MEmpty (name : string)
| MCloseStart
| MCloseName (acc : string)
| MCloseSpace (name : string).

Definition in_range (lo hi : nat) (c : ascii) : bool :=
  let n := nat_of_ascii c in ((lo <=? n) && (n <=? hi))%nat.

Definition is_space (c : ascii) : bool :=
  Ascii.eqb c " " || Ascii.eqb c "009" || Ascii.eqb c "010".

Definition is_name_start (c : ascii) : bool :=
  in_range 65 90 c || in_range 97 122 c || Ascii.eqb c "_".

Definition is_name_char (c : ascii) : bool :=
  is_name_start c || in_range 48 57 c || Ascii.eqb c "-" || Ascii.eqb c ".".

Definition is_chardata (c : ascii) : bool :=
  (in_range 32 126 c || Ascii.eqb c "009" || Ascii.eqb c "010")
  && negb (Ascii.eqb c "<" || Ascii.eqb c "&" || Ascii.eqb c ">").

Definition snoc (s : string) (c : ascii) : string := s ++ String c "".

Definition data_token (acc : string) : list token :=
  if PyStr.truthy acc then [TData acc] else [].

Definition emit (ts : list token) (r : option (list token))
  : option (list token) :=
  option_map (app ts) r.

Fixpoint lex (m : mode) (s : string) : option (list token) :=
  match s with
  | EmptyString =>
      match m with
      | MData acc => Some (data_token acc)
      | _ => None
      end
  | String c s' =>
      match m with
      | MData acc =>
          if Ascii.eqb c "<" then emit (data_token acc) (lex MLt s')
          else if is_chardata c then lex (MData (snoc acc c)) s'
          else None
      | MLt =>
          if Ascii.eqb c "/" then lex MCloseStart s'
          else if is_name_start c then lex (MOpenName (String c "")) s'
          else None
      | MOpenName acc =>
          if is_name_char c then lex (MOpenName (snoc acc c)) s'
          else if is_space c then lex (MOpenSpace acc) s'
          else if Ascii.eqb c ">" then emit [TOpen acc] (lex (MData "") s')
          else if Ascii.eqb c "/" then lex (MEmpty acc) s'
          else None
      | MOpenSpace name =>
          if is_space c then lex (MOpenSpace name) s'
          else if Ascii.eqb c ">" then emit [TOpen name] (lex (MData "") s')
          else if Ascii.eqb c "/" then lex (MEmpty name) s'
          else None
      | MEmpty name =>
          if Ascii.eqb c ">" then emit [TEmpty name] (lex (MData "") s')
          else None
      | MCloseStart =>
          if is_name_start c then lex (MCloseName (String c "")) s'
          else None
      | MCloseName acc =>
          if is_name_char c then lex (MCloseName (snoc acc c)) s'
          else if is_space c then lex (MCloseSpace acc) s'
          else if Ascii.eqb c ">" then emit [TClose acc] (lex (MData "") s')
          else None
      | MCloseSpace name =>
          if is_space c then lex (MCloseSpace name) s'
          else if Ascii.eqb c ">" then emit [TClose name] (lex (MData "") s')
          else None
      end
  end.

(** An element that is still open: its children are kept most recent
    first. *)
Record Frame : Type := mkFrame
  { ftag : string; ftext : option string; fkids : list Element }.

Definition set_tail (e : Element) (d : string) : Element :=
  match e with Elem t x _ cs => Elem t x (Some d) cs end.

Definition add_data (f : Frame) (d : string) : Frame :=
  match fkids f with
  | [] => mkFrame (ftag f) (Some d) []
  | k :: ks => mkFrame (ftag f) (ftext f) (set_tail k d :: ks)
  end.

Definition add_kid (f : Frame) (e : Element) : Frame :=
  mkFrame (ftag f) (ftext f) (e :: fkids f).

Fixpoint all_space (s : string) : bool :=
  match s with
  | EmptyString => true
  | String c s' => is_space c && all_space s'
  end.

(** State of the tree builder: the open elements, innermost first, and
    the document element once it is closed. *)
Definition close (e : Element) (stack : list Frame) (root : option Element)
  : option (list Frame * option Element) :=
  match stack with
  | p :: ps => Some (add_kid p e :: ps, root)
  | [] => match root with
          | None => Some ([], Some e)
          | Some _ => None
          end
  end.

Fixpoint build (toks : list token) (stack : list Frame)
         (root : option Element) : option Element :=
  match toks with
  | [] => match stack with [] => root | _ :: _ => None end
  | TData d :: rest =>
      match stack with
      | [] => if all_space d then build rest [] root else None
      | f :: fs => build rest (add_data f d :: fs) root
      end
  | TOpen n :: rest =>
      match stack, root with
      | [], Some _ => None
      | _, _ => build rest (mkFrame n None [] :: stack) root
      end
  | TEmpty n :: rest =>
      match close (Elem n None None []) stack root with
      | Some (stack', root') => build rest stack' root'
      | None => None
      end
  | TClose n :: rest =>
      match stack with
      | [] => None
      | f :: fs =>
          if String.eqb (ftag f) n then
            match close (Elem n (ftext f) None (List.rev (fkids f)))
                        fs root with
            | Some (stack', root') => build rest stack' root'
            | None => None
            end
          else None
      end
  end.

Definition fromstring (s : string) : option Element :=
  match lex (MData "") s with
  | None => None
  | Some toks => build toks [] None
  end.

End Xml.

(** The extractor, run on the modelled XML library. *)
Definition extract (raw_xml : string) : Outcome Store :=
  _jats_to_section_paragraph_map Xml.fromstring raw_xml.

(* ================================================================== *)
(** ** Vocabulary of the properties *)

(** The contribution of one section: its key and its own-level
    paragraphs. *)
Definition Entry := (string * Paragraphs)%type.

Definition add_entry (store : Store) (e : Entry) : Store :=
  add_paragraphs store (fst e) (snd e).

Definition add_all (es : list Entry) (store : Store) : Store :=
  fold_left add_entry es store.

(** The entries of a dictionary that carry key [k]. *)
Definition entries_of (d : Store) (k : string) : list Entry :=
  filter (fun e => String.eqb (fst e) k) d.

(** The paragraphs a list of contributions holds for key [k], in order. *)
Definition paragraphs_for (k : string) (es : list Entry) : Paragraphs :=
  List.concat (map snd (filter (fun e => String.eqb (fst e) k) es)).

(** A list extended by appending; nothing happens when nothing is
    appended. *)
Definition extended (old : option Paragraphs) (ps : Paragraphs)
  : option Paragraphs :=
  match ps with
  | [] => old
  | _ :: _ => Some (match old with Some v => v | None => [] end ++ ps)
  end.

(** The sections [walk_sec] visits from [sec], in visit order: [sec],
    then, child by child, the sections below each child whose tag ends in
    [sec]. *)
Fixpoint visited (sec : Element) : list Element :=
  match sec with
  | Elem _ _ _ cs =>
      sec :: flat_map (fun c => if _is c "sec" then visited c else []) cs
  end.

(** The sections the body walker visits. *)
Definition body_sections (body : Element) : list Element :=
  flat_map visited (EPath.findall ["sec"] body).

(** The children [_collect_level_paragraphs] skips. *)
Definition skipped (c : Element) : bool :=
  _is c "title" || _is c "label" || _is c "sec".

(** An element with a new list of children. *)
Definition with_children (e : Element) (cs : list Element) : Element :=
  Elem (tag e) (text e) (tail e) cs.

(** A container reduced to the children that are content blocks. *)
Definition own_level (container : Element) : Element :=
  with_children container
                (filter (fun c => negb (skipped c)) (children container)).

Definition section_entry (sec : Element) : Entry :=
  (section_title sec, _collect_level_paragraphs (own_level sec)).

(** The contributions of the body walker, in order: the preface, then
    every visited section. *)
Definition body_entries (body : Element) : list Entry :=
  ("Body (untitled)", preface (children body))
  :: map section_entry (body_sections body).

(** [p] occurs inside [q]. *)
Definition occurs_in (p q : string) : Prop :=
  exists a b : string, q = (a ++ p ++ b)%string.

(** The sections structurally nested in [s]: its proper descendants whose
    tag ends in [sec]. *)
Definition nested_sections (s : Element) : list Element :=
  filter (fun d => _is d "sec") (EPath.descendants s).

(** The reading of "no section's paragraph list contains text belonging to
    a structurally nested sub-section" on the body of [article]: no
    paragraph stored under the key of a visited section contains an
    own-level paragraph of a section nested in it. *)
Definition nested_text_kept_out (article : Element) : Prop :=
  forall body s inner p ps q,
    EPath.find ["body"] article = Some body ->
    In s (body_sections body) ->
    In inner (nested_sections s) ->
    In p (_collect_level_paragraphs inner) ->
    Dict.get (_parse_body_into_map article []) (section_title s) = Some ps ->
    In q ps ->
    ~ occurs_in p q.

(** [v] is a section nested [d] levels below [top] along children whose
    tag ends in [sec]. *)
Inductive nested_at : nat -> Element -> Element -> Prop :=
| nested_here top : nested_at 0 top top
| nested_below d top parent v :
    nested_at d top parent ->
    In v (children parent) ->
    _is v "sec" = true ->
    nested_at (S d) top v.

(** "The article element used", for a given test [is_article] of what an
    article element is: nothing without one, else the root if it is one,
    else the first descendant that is one. *)
Definition article_rule (is_article : Element -> bool) : Prop :=
  (forall root,
      forallb (fun e => negb (is_article e)) (EPath.iter root) = true ->
      section_map_of_root root = [])
  /\ (forall root,
      existsb is_article (EPath.iter root) = true ->
      _first_article root =
        if is_article root then Some root
        else List.find is_article (EPath.descendants root)).

Definition tagged (t : string) (e : Element) : bool := String.eqb (tag e) t.

(** Apply [f] to every child. *)
Definition map_children (f : Element -> Element) (e : Element) : Element :=
  with_children e (map f (children e)).

(** Apply [f] to the elements that satisfy [sel] only. *)
Definition where_ (sel : Element -> bool) (f : Element -> Element)
           (e : Element) : Element :=
  if sel e then f e else e.

(** A section with its section children removed. *)
Definition without_subsections (s : Element) : Element :=
  with_children s (filter (fun c => negb (_is c "sec")) (children s)).

(** A child of an abstract: a section loses its own sections, anything
    else is kept as it is. *)
Definition prune_child : Element -> Element :=
  where_ (fun c => _is c "sec") without_subsections.

(** An abstract whose sections have lost their own sections: everything
    two levels of sections below the abstract is gone. *)
Definition prune_abstract (a : Element) : Element :=
  map_children prune_child a.

Definition abstract_like (c : Element) : bool :=
  tagged "abstract" c || tagged "trans-abstract" c.

(** The metadata container, the front matter and the article with every
    abstract and translated abstract of the metadata container pruned. *)
Definition prune_meta : Element -> Element :=
  map_children (where_ abstract_like prune_abstract).

Definition prune_front : Element -> Element :=
  map_children (where_ (tagged "article-meta") prune_meta).

Definition prune_article : Element -> Element :=
  map_children (where_ (tagged "front") prune_front).

(* ------------------------------------------------------------------ *)
(** *** Documents used as examples *)

Definition doc_example : string :=
  "<article><front><article-meta><title-group><article-title>Foo</article-title></title-group><abstract><p>Bar.</p></abstract></article-meta></front><body><sec><title>Intro</title><p>Hello world.</p><sec><title>Sub</title><p>Nested text.</p></sec></sec></body></article>".

Definition doc_section_named_title : string :=
  "<article><front><article-meta><title-group><article-title>Foo</article-title></title-group></article-meta></front><body><sec><title>Title</title><p>x</p></sec></body></article>".

Definition doc_truncated : string := "<article><body><sec><p>x</p>".

(** A section and its sub-section share the title "A". *)
Definition doc_same_title : string :=
  "<article><body><sec><title>A</title><p>x</p><sec><title>A</title><p>y</p></sec></sec></body></article>".

Definition sec_same_title_inner : Element :=
  Elem "sec" None None
       [Elem "title" (Some "A") None []; Elem "p" (Some "y") None []].

Definition sec_same_title_outer : Element :=
  Elem "sec" None None
       [Elem "title" (Some "A") None []; Elem "p" (Some "x") None [];
        sec_same_title_inner].

Definition tree_same_title : Element :=
  Elem "article" None None [Elem "body" None None [sec_same_title_outer]].

(** A section whose only content is a boxed text that wraps a section. *)
Definition doc_boxed : string :=
  "<article><body><sec><title>Outer</title><boxed-text><sec><title>Inner</title><p>Secret</p></sec></boxed-text></sec></body></article>".

Definition sec_boxed_inner : Element :=
  Elem "sec" None None
       [Elem "title" (Some "Inner") None []; Elem "p" (Some "Secret") None []].

Definition sec_boxed_outer : Element :=
  Elem "sec" None None
       [Elem "title" (Some "Outer") None [];
        Elem "boxed-text" None None [sec_boxed_inner]].

Definition tree_boxed : Element :=
  Elem "article" None None [Elem "body" None None [sec_boxed_outer]].

(** The root is a sub-article; no element is tagged article. *)
Definition doc_sub_article_root : string :=
  "<sub-article><body><p>x</p></body></sub-article>".

Definition tree_sub_article_root : Element :=
  Elem "sub-article" None None
       [Elem "body" None None [Elem "p" (Some "x") None []]].

(** Below a root that is no article, a sub-article comes before an
    article. *)
Definition doc_sub_article_first : string :=
  "<r><sub-article><body><p>s</p></body></sub-article><article><body><p>a</p></body></article></r>".

Definition elem_sub_article : Element :=
  Elem "sub-article" None None
       [Elem "body" None None [Elem "p" (Some "s") None []]].

Definition elem_article : Element :=
  Elem "article" None None
       [Elem "body" None None [Elem "p" (Some "a") None []]].

Definition tree_sub_article_first : Element :=
  Elem "r" None None [elem_sub_article; elem_article].

(** Two abstracts and a translated abstract that stands between them in
    the document; only the second abstract has a title. *)
Definition meta_three_abstracts : Element :=
  Elem "article-meta" None None
       [ Elem "abstract" None None [Elem "p" (Some "one") None []];
         Elem "trans-abstract" None None [Elem "p" (Some "trois") None []];
         Elem "abstract" None None
              [Elem "title" (Some "Summary") None [];
               Elem "p" (Some "two") None []] ].

(** Two sibling sections titled "Methods" with the paragraphs A and B. *)
Definition doc_twins : string :=
  "<article><body><sec><title>Methods</title><p>A</p></sec><sec><title>Methods</title><p>B</p></sec></body></article>".

Definition sec_twin (para : string) : Element :=
  Elem "sec" None None
       [Elem "title" (Some "Methods") None []; Elem "p" (Some para) None []].

Definition body_twins : Element :=
  Elem "body" None None [sec_twin "A"; sec_twin "B"].

Definition tree_twins : Element := Elem "article" None None [body_twins].

(** A paragraph that stands in the body after the first section, and the
    same document without it. *)
Definition doc_late_block : string :=
  "<article><body><p>pre</p><sec><title>S</title><p>in</p></sec><p>late</p></body></article>".

Definition doc_late_block_removed : string :=
  "<article><body><p>pre</p><sec><title>S</title><p>in</p></sec></body></article>".

Definition sec_plain : Element :=
  Elem "sec" None None
       [Elem "title" (Some "S") None []; Elem "p" (Some "in") None []].

Definition tree_late_block : Element :=
  Elem "article" None None
       [Elem "body" None None
             ([Elem "p" (Some "pre") None []; sec_plain]
                ++ Elem "p" (Some "late") None [] :: [])].

Definition tree_late_block_removed : Element :=
  Elem "article" None None
       [Elem "body" None None
             ([Elem "p" (Some "pre") None []; sec_plain] ++ [])].

(** An abstract with a section that has a section of its own, and a body
    whose sections are nested three deep. *)
Definition doc_deep : string :=
  "<article><front><article-meta><abstract><p>top</p><sec><title>Background</title><p>one</p><sec><title>Deep</title><p>two</p></sec></sec></abstract></article-meta></front><body><sec><title>L1</title><p>a</p><sec><title>L2</title><p>b</p><sec><title>L3</title><p>c</p></sec></sec></sec></body></article>".

Definition sec_l3 : Element :=
  Elem "sec" None None
       [Elem "title" (Some "L3") None []; Elem "p" (Some "c") None []].

Definition sec_l2 : Element :=
  Elem "sec" None None
       [Elem "title" (Some "L2") None []; Elem "p" (Some "b") None []; sec_l3].

Definition sec_l1 : Element :=
  Elem "sec" None None
       [Elem "title" (Some "L1") None []; Elem "p" (Some "a") None []; sec_l2].

Definition body_deep : Element := Elem "body" None None [sec_l1].

Definition front_deep : Element :=
  Elem "front" None None
    [Elem "article-meta" None None
       [Elem "abstract" None None
          [Elem "p" (Some "top") None [];
           Elem "sec" None None
             [Elem "title" (Some "Background") None [];
              Elem "p" (Some "one") None [];
              Elem "sec" None None
                [Elem "title" (Some "Deep") None [];
                 Elem "p" (Some "two") None []]]]]].

Definition tree_deep : Element :=
  Elem "article" None None [front_deep; body_deep].

(** The wrapping rule read on the tree as the code has it: the wrapper's
    own [text] and own [tail] are absent or blank. *)
Definition wrapper_rule : Prop :=
  forall (t : string) (x l : option string) (n : Element),
    PyStr.blank_opt x = true ->
    PyStr.blank_opt l = true ->
    _txt (Some (Elem t x l [n])) = _txt (Some n).

(** A wrapper that holds text behind its only child. *)
Definition doc_trailing_text : string := "<w><n>foo</n>bar</w>".

Definition tree_trailing_text : Element :=
  Elem "w" None None [Elem "n" (Some "foo") (Some "bar") []].

(** The reading of "two sibling sections with the same key and the
    paragraph lists [A] and [B] give one entry that is exactly [A, B]" on
    an article: for any two section children of the body, the first before
    the second. *)
Definition same_key_rule (article : Element) : Prop :=
  forall body s1 s2 pre mid post k,
    EPath.find ["body"] article = Some body ->
    EPath.findall ["sec"] body = pre ++ s1 :: mid ++ s2 :: post ->
    section_title s1 = k ->
    section_title s2 = k ->
    _collect_level_paragraphs s1 = ["A"] ->
    _collect_level_paragraphs s2 = ["B"] ->
    Dict.get (section_map_of_root article) k = Some ["A"; "B"].

(** Three sibling sections titled "Methods". *)
Definition doc_triplets : string :=
  "<article><body><sec><title>Methods</title><p>A</p></sec><sec><title>Methods</title><p>B</p></sec><sec><title>Methods</title><p>C</p></sec></body></article>".

Definition body_triplets : Element :=
  Elem "body" None None [sec_twin "A"; sec_twin "B"; sec_twin "C"].

Definition tree_triplets : Element := Elem "article" None None [body_triplets].

(** The two sibling sections titled "Methods" behind an abstract that is
    itself titled "Methods". *)
Definition doc_abstract_twins : string :=
  "<article><front><article-meta><abstract><title>Methods</title><p>Z</p></abstract></article-meta></front><body><sec><title>Methods</title><p>A</p></sec><sec><title>Methods</title><p>B</p></sec></body></article>".

Definition tree_abstract_twins : Element :=
  Elem "article" None None
    [Elem "front" None None
       [Elem "article-meta" None None
          [Elem "abstract" None None
             [Elem "title" (Some "Methods") None [];
              Elem "p" (Some "Z") None []]]];
     body_twins].

(* ------------------------------------------------------------------ *)
(** *** The extractor under the interpreter's recursion limit

    [walk] inside [_txt] and [walk_sec] call themselves once per level of
    the tree, and the interpreter raises [RecursionError] when calls are
    nested deeper than its recursion limit allows.  [Stack] is the
    extractor with this limit.  Every function takes [frames], the number
    of nested calls of functions of this module that the interpreter
    still allows; a call made with none left raises, and the functions it
    calls get one less.  What the library calls, the generator expression
    and the list comprehension need on top is not counted: [frames] is
    what is left for the functions of the module once that is set
    aside.  An exception ends the call that raised it and every call
    around it, as nothing in the module catches one. *)

Module Stack.

(** A call of a function defined in the module. *)
Definition call {A} (frames : nat) (body : nat -> Outcome A) : Outcome A :=
  match frames with
  | 0 => Raises "RecursionError"
  | S inner => body inner
  end.

(** One statement after the other. *)
Definition bind {A B} (m : Outcome A) (k : A -> Outcome B) : Outcome B :=
  match m with
  | Returns v => k v
  | Raises e => Raises e
  end.

Notation "x <- m ;; k" := (bind m (fun x => k))
  (at level 61, m at next level, right associativity).

(** A [for] loop that updates a state. *)
Fixpoint for_each {A S} (step : S -> A -> Outcome S) (l : list A) (s : S)
  : Outcome S :=
  match l with
  | [] => Returns s
  | a :: rest => s' <- step s a ;; for_each step rest s'
  end.

(** A [for] loop that appends what each round yields. *)
Fixpoint for_each_append {A B} (f : A -> Outcome (list B)) (l : list A)
  : Outcome (list B) :=
  match l with
  | [] => Returns []
  | a :: rest =>
      bs <- f a ;; more <- for_each_append f rest ;; Returns (bs ++ more)
  end.

(** [any(f(x) for x in l)]. *)
Fixpoint any {A} (f : A -> Outcome bool) (l : list A) : Outcome bool :=
  match l with
  | [] => Returns false
  | a :: rest => b <- f a ;; if b then Returns true else any f rest
  end.

(** [[x for x in l if f(x)]]. *)
Fixpoint comprehension {A} (f : A -> Outcome bool) (l : list A)
  : Outcome (list A) :=
  match l with
  | [] => Returns []
  | a :: rest =>
      b <- f a ;; more <- comprehension f rest ;;
      Returns (if b then a :: more else more)
  end.

Fixpoint walk (frames : nat) (n : Element) : Outcome (list string) :=
  match frames with
  | 0 => Raises "RecursionError"
  | S inner =>
      match n with
      | Elem _ x _ cs =>
          below <- for_each_append
                     (fun c => ps <- walk inner c ;;
                               Returns (ps ++ opt_part (tail c)))
                     cs ;;
          Returns (opt_part x ++ below)
      end
  end.

Definition _txt (frames : nat) (el : option Element) : Outcome string :=
  call frames (fun inner =>
    match el with
    | None => Returns ""
    | Some n => parts <- walk inner n ;; Returns (normalize parts)
    end).

Definition _is (frames : nat) (el : Element) (name : string)
  : Outcome bool :=
  call frames (fun _ => Returns (PyStr.endswith (tag el) name)).

Definition _first_article (frames : nat) (root : Element)
  : Outcome (option Element) :=
  call frames (fun inner =>
    b <- _is inner root "article" ;;
    if b then Returns (Some root)
    else Returns (EPath.find_descendant "article" root)).

(** [txt = _txt(node).strip()], and [out.append(txt)] if it is not
    empty. *)
Definition stripped_text (inner : nat) (node : Element) : Outcome Paragraphs :=
  t <- _txt inner (Some node) ;;
  let txt := PyStr.strip t in
  Returns (if PyStr.truthy txt then [txt] else []).

Definition level_paragraph (inner : nat) (node : Element)
  : Outcome Paragraphs :=
  t <- _is inner node "title" ;;
  if t then Returns [] else
  l <- _is inner node "label" ;;
  if l then Returns [] else
  s <- _is inner node "sec" ;;
  if s then Returns [] else
  block <- any (_is inner node) block_tags ;;
  if block then stripped_text inner node else stripped_text inner node.

Definition _collect_level_paragraphs (frames : nat) (container : Element)
  : Outcome Paragraphs :=
  call frames (fun inner =>
    for_each_append (level_paragraph inner) (children container)).

Fixpoint preface (inner : nat) (nodes : list Element) : Outcome Paragraphs :=
  match nodes with
  | [] => Returns []
  | node :: rest =>
      s <- _is inner node "sec" ;;
      if s then Returns [] else
      t <- _is inner node "title" ;;
      ps <- (if negb t then stripped_text inner node else Returns []) ;;
      more <- preface inner rest ;;
      Returns (ps ++ more)
  end.

Fixpoint walk_sec (frames : nat) (sec : Element) (store : Store)
  : Outcome Store :=
  match frames with
  | 0 => Raises "RecursionError"
  | S inner =>
      t <- _txt inner (EPath.find ["title"] sec) ;;
      let title := PyStr.or_else t "Untitled Section" in
      paras <- _collect_level_paragraphs inner sec ;;
      let store := add_paragraphs store title paras in
      for_each
        (fun st child =>
           s <- _is inner child "sec" ;;
           if s then walk_sec inner child st else Returns st)
        (children sec) store
  end.

Definition _parse_body_into_map (frames : nat) (article : Element)
           (store : Store) : Outcome Store :=
  call frames (fun inner =>
    match EPath.find ["body"] article with
    | None => Returns store
    | Some body =>
        pre <- preface inner (children body) ;;
        let store := add_paragraphs store "Body (untitled)" pre in
        for_each (fun st top => walk_sec inner top st)
                 (EPath.findall ["sec"] body) store
    end).

Definition abstract_sec_step (inner : nat) (key : string) (store : Store)
           (s : Element) : Outcome Store :=
  t <- _txt inner (EPath.find ["title"] s) ;;
  let stitle := PyStr.or_else t (key ++ " subsection") in
  s_paras <- _collect_level_paragraphs inner s ;;
  Returns (add_paragraphs store stitle s_paras).

Definition abstract_step (inner n : nat) (store : Store) (ia : nat * Element)
  : Outcome Store :=
  let '(i, abs_el) := ia in
  title_text <- _txt inner (EPath.find ["title"] abs_el) ;;
  let key :=
    if (n =? 1)%nat && negb (PyStr.truthy title_text) then base
    else PyStr.or_else title_text (base ++ " " ++ PyStr.of_nat i) in
  paras <- _collect_level_paragraphs inner abs_el ;;
  let store := add_paragraphs store key paras in
  secs <- comprehension (fun c => _is inner c "sec") (children abs_el) ;;
  for_each (abstract_sec_step inner key) secs store.

Definition _parse_abstract_into_map (frames : nat) (article : Element)
           (store : Store) : Outcome Store :=
  call frames (fun inner =>
    match EPath.find ["front"; "article-meta"] article with
    | None => Returns store
    | Some meta =>
        let nodes := abs_nodes meta in
        if nonempty nodes then
          for_each (abstract_step inner (List.length nodes))
                   (enumerate 1 nodes) store
        else Returns store
    end).

(** What [_jats_to_section_paragraph_map] does once [ET.fromstring] has
    returned the root. *)
Definition section_map_of_root (inner : nat) (root : Element)
  : Outcome Store :=
  found <- _first_article inner root ;;
  match found with
  | None => Returns []
  | Some article =>
      title <- _txt inner (title_el article) ;;
      let out := if PyStr.truthy title then Dict.set [] "Title" [title]
                 else [] in
      out <- _parse_abstract_into_map inner article out ;;
      _parse_body_into_map inner article out
  end.

Section PublicAPI.

Variable fromstring : string -> option Element.

Definition _jats_to_section_paragraph_map (frames : nat) (raw_xml : string)
  : Outcome Store :=
  call frames (fun inner =>
    match fromstring raw_xml with
    | None => Raises "ParseError"
    | Some root => section_map_of_root inner root
    end).

End PublicAPI.

(** The extractor on the modelled XML library. *)
Definition extract (frames : nat) (raw_xml : string) : Outcome Store :=
  _jats_to_section_paragraph_map Xml.fromstring frames raw_xml.

(** The outcome [x] is the value [v], unless [enough] fails: then it may
    also be a [RecursionError]. *)
Definition agree {A} (enough : Prop) (x : Outcome A) (v : A) : Prop :=
  x = Returns v \/ (~ enough /\ x = Raises "RecursionError").

End Stack.

(** The height of a tree: one for an element without children. *)
Fixpoint height (e : Element) : nat :=
  match e with
  | Elem _ _ _ cs => S (list_max (map height cs))
  end.

Definition height_opt (el : option Element) : nat :=
  match el with Some n => height n | None => 0 end.

(** The start tags and the end tags among the tokens of a document. *)
Definition opened (toks : list Xml.token) : nat :=
  List.length (filter (fun t => match t with Xml.TOpen _ => true
                                             | _ => false end) toks).

Definition closed (toks : list Xml.token) : nat :=
  List.length (filter (fun t => match t with Xml.TClose _ => true
                                             | _ => false end) toks).

(** The reading of "once parsing succeeds, no subsequent step raises", for
    an interpreter that allows [frames] nested calls. *)
Definition no_step_raises (frames : nat) : Prop :=
  forall raw_xml root,
    Xml.fromstring raw_xml = Some root ->
    exists m, Stack.extract frames raw_xml = Returns m.

(** The recursion limit of the interpreter as it is delivered
    ([sys.getrecursionlimit()]). *)
Definition default_recursion_limit : nat := 1000.

(** A document whose body holds sections nested [n] deep, and its
    tree. *)
Fixpoint nested_secs (n : nat) : string :=
  match n with
  | 0 => ""
  | S m => "<sec>" ++ nested_secs m ++ "</sec>"
  end.

Definition doc_chain (n : nat) : string :=
  "<article><body>" ++ nested_secs n ++ "</body></article>".

Fixpoint chain (n : nat) : list Element :=
  match n with
  | 0 => []
  | S m => [Elem "sec" None None (chain m)]
  end.

Definition tree_chain (n : nat) : Element :=
  Elem "article" None None [Elem "body" None None (chain n)].

(* ------------------------------------------------------------------ *)
(** *** Vocabulary of the further properties *)

(** No character of [s] is whitespace. *)
Fixpoint spaceless (s : string) : bool :=
  match s with
  | EmptyString => true
  | String c s' => negb (PyStr.isspace c) && spaceless s'
  end.

(** A word: not empty, and without whitespace. *)
Definition is_word (w : string) : bool := PyStr.truthy w && spaceless w.

(** The string is empty or begins with a character that is no
    whitespace. *)
Definition head_ok (s : string) : bool :=
  match s with
  | EmptyString => true
  | String c _ => negb (PyStr.isspace c)
  end.

(** The string is empty or ends with a character that is no whitespace. *)
Fixpoint tail_ok (s : string) : bool :=
  match s with
  | EmptyString => true
  | String c EmptyString => negb (PyStr.isspace c)
  | String _ s' => tail_ok s'
  end.

(** The flattened texts of the children the collector does not skip. *)
Definition block_texts (container : Element) : list string :=
  map (fun c => _txt (Some c))
      (filter (fun c => negb (skipped c)) (children container)).

(** A paragraph fit to be stored: not empty, without whitespace at either
    end. *)
Definition good_paragraph (p : string) : Prop :=
  p <> "" /\ PyStr.strip p = p.

(** The contribution of the title step. *)
Definition title_entry (article : Element) : Entry :=
  let title := _txt (title_el article) in
  ("Title", if PyStr.truthy title then [title] else []).

(** The contribution of a section directly under an abstract filed under
    [key]. *)
Definition abstract_sec_entry (key : string) (s : Element) : Entry :=
  (PyStr.or_else (_txt (EPath.find ["title"] s)) (key ++ " subsection"),
   _collect_level_paragraphs s).

(** The contributions of the [i]-th of [n] abstract-like elements: its
    own paragraphs, then its sections. *)
Definition abstract_entries_of (n : nat) (ia : nat * Element) : list Entry :=
  let '(i, abs_el) := ia in
  let key := abstract_key n i abs_el in
  (key, _collect_level_paragraphs abs_el)
  :: map (abstract_sec_entry key)
         (filter (fun c => _is c "sec") (children abs_el)).

(** The contributions of the abstract walker, in order. *)
Definition abstract_entries (article : Element) : list Entry :=
  match EPath.find ["front"; "article-meta"] article with
  | None => []
  | Some meta =>
      let nodes := abs_nodes meta in
      flat_map (abstract_entries_of (List.length nodes)) (enumerate 1 nodes)
  end.

(** The contributions of the body walker, in order. *)
Definition body_entries_of (article : Element) : list Entry :=
  match EPath.find ["body"] article with
  | None => []
  | Some body => body_entries body
  end.

(** All contributions of an article, in the order the extractor makes
    them: title, abstracts, body. *)
Definition article_entries (article : Element) : list Entry :=
  title_entry article :: abstract_entries article ++ body_entries_of article.

Definition known (k : string) (seen : list string) : bool :=
  existsb (String.eqb k) seen.

(** The keys that a run of contributions adds to a dictionary whose keys
    are [seen]: the key of each contribution that brings paragraphs, at
    its first occurrence. *)
Fixpoint new_keys (seen : list string) (es : list Entry) : list string :=
  match es with
  | [] => []
  | e :: rest =>
      if nonempty (snd e) && negb (known (fst e) seen)
      then fst e :: new_keys (seen ++ [fst e]) rest
      else new_keys seen rest
  end.

(** A dictionary as the extractor may return it: no key twice, no empty
    list, no paragraph that is empty or has whitespace at an end. *)
Definition well_formed (d : Store) : Prop :=
  NoDup (map fst d)
  /\ Forall (fun e => snd e <> [] /\ Forall good_paragraph (snd e)) d.

(** The tree of [doc_example]. *)
Definition tree_example : Element :=
  Elem "article" None None
    [Elem "front" None None
       [Elem "article-meta" None None
          [Elem "title-group" None None
             [Elem "article-title" (Some "Foo") None []];
           Elem "abstract" None None [Elem "p" (Some "Bar.") None []]]];
     Elem "body" None None
       [Elem "sec" None None
          [Elem "title" (Some "Intro") None [];
           Elem "p" (Some "Hello world.") None [];
           Elem "sec" None None
             [Elem "title" (Some "Sub") None [];
              Elem "p" (Some "Nested text.") None []]]]].

(** An article whose title holds whitespace only. *)
Definition doc_blank_title : string :=
  "<article><front><article-meta><title-group><article-title>  <i> </i> </article-title></title-group></article-meta></front><body><sec><title>S</title><p>in</p></sec></body></article>".

Definition elem_blank_title : Element :=
  Elem "article-title" (Some "  ") None [Elem "i" (Some " ") (Some " ") []].

Definition tree_blank_title : Element :=
  Elem "article" None None
    [Elem "front" None None
       [Elem "article-meta" None None
          [Elem "title-group" None None [elem_blank_title]]];
     Elem "body" None None [sec_plain]].

(** Back matter with a reference list. *)
Definition elem_back : Element :=
  Elem "back" None None
    [Elem "ref-list" None None
       [Elem "title" (Some "References") None [];
        Elem "ref" (Some "Doe 2020") None []]].

(* ================================================================== *)
(** ** The callers: [_get], the two public getters, and [fetch.py]

    The network and the file system are the environment of this code.
    An HTTP request is a function from the URL and the query parameters
    to the outcome of [requests.get]; the answers of the search service
    are given in the order in which [fetch] asks for them; the files
    [fetch] writes are kept as a log.  Creating the output directory and
    writing a file are taken to succeed; the progress bar, the pauses and
    the messages printed are left out. *)

Record Response : Type := mkResponse
  { status_code : nat; resp_text : string }.

(** [r.raise_for_status()]. *)
Definition raise_for_status (r : Response) : Outcome unit :=
  if ((400 <=? status_code r) && (status_code r <? 600))%nat
  then Raises "HTTPError" else Returns tt.

Section Getters.

Variable requests_get : string -> list (string * string) -> Outcome Response.
Variable fromstring : string -> option Element.

Definition _get (url : string) (params : list (string * string))
  : Outcome string :=
  match requests_get url params with
  | Raises e => Raises e
  | Returns r =>
      match raise_for_status r with
      | Raises e => Raises e
      | Returns _ => Returns (resp_text r)
      end
  end.

Definition get_ncbi_text_my (pmcid : string) : Outcome Store :=
  match _get "https://eutils.ncbi.nlm.nih.gov/entrez/eutils/efetch.fcgi"
             [("db", "pmc"); ("id", pmcid); ("retmode", "xml")] with
  | Raises e => Raises e
  | Returns xml => _jats_to_section_paragraph_map fromstring xml
  end.

Definition get_epmc_text_my (pmcid : string) : Outcome Store :=
  match _get ("https://www.ebi.ac.uk/europepmc/webservices/rest/"
                ++ pmcid ++ "/fullTextXML") [] with
  | Raises e => Raises e
  | Returns xml => _jats_to_section_paragraph_map fromstring xml
  end.

End Getters.

Module Fetch.

(** A record of the search result, with the fields [fetch] reads; a field
    is [None] when the key is missing ([record.get(key, None)]).
    [r_journal] is [journalInfo.journal.title]. *)
Record SearchRecord : Type := mkSearchRecord
  { r_id : option string;
    r_pmid : option string;
    r_pmcid : option string;
    r_title : option string;
    r_authorString : option string;
    r_journal : option string;
    r_pubYear : option string;
    r_doi : option string;
    r_license : option string;
    r_abstractText : option string }.

(** One answer of the search service: [resultList.result] ([[]] when
    missing) and [nextCursorMark]. *)
Record SearchResponse : Type := mkSearchResponse
  { results : list SearchRecord; nextCursorMark : option string }.

(** A passage as [get_ncbi_text] returns it. *)
Record Passage : Type := mkPassage
  { section_type : option string; passage_text : option string }.

(** The value stored under "text". *)
Inductive Text : Type :=
| TextNone
| TextSections (m : Store)
| TextPassages (ps : list Passage).

Record OutputRecord : Type := mkOutputRecord
  { o_id : option string;
    o_pmid : option string;
    o_pmcid : option string;
    o_url : option string;
    o_title : option string;
    o_authors : option string;
    o_journal : option string;
    o_year : option string;
    o_doi : option string;
    o_license : option string;
    o_apa : option string;
    o_apa_short : option string;
    o_abstract : option string;
    o_text : Text }.

(** What a run has done so far: the records saved, the files written
    (path and content, oldest first) and the cursors sent to the search
    service (oldest first). *)
Record State : Type := mkState
  { records_fetched : nat;
    written : list (string * OutputRecord);
    cursors : list string }.

(** How a run ends: normally, by an exception that nothing catches, or
    still asking the search service when the given answers are used
    up. *)
Inductive Run : Type :=
| Done (st : State)
| Crashed (exn : string) (st : State)
| Starved (st : State).

Definition truthy_opt (o : option string) : bool :=
  match o with Some s => PyStr.truthy s | None => false end.

(** [a or b]. *)
Definition py_or (a b : option string) : option string :=
  if truthy_opt a then a else b.

(** [os.path.join(a, b)] on POSIX. *)
Definition path_join (a b : string) : string :=
  match b with
  | String "/" _ => b
  | _ => if PyStr.truthy a && negb (PyStr.endswith a "/")
         then (a ++ "/" ++ b)%string else (a ++ b)%string
  end.

Section Env.

(** [isinstance(e, requests.RequestException)]: whether
    [except requests.RequestException] catches the exception.  The class
    and its subclasses are the library's. *)
Variable is_request_exception : string -> bool.
Variable requests_get : string -> list (string * string) -> Outcome Response.
Variable fromstring : string -> option Element.
(** [get_ncbi_text] and [get_epmc_text] catch every exception and return
    [None] then. *)
Variable get_ncbi_text : string -> option (list Passage).
Variable get_epmc_text : string -> option Store.
Variable pmid_to_apa : string -> Outcome (string * string).
(** [get_max_records(query, base_url)]. *)
Variable get_max_records : string -> Outcome nat.

(** The citation pair of a record: fetched only for a truthy pmid, and
    [(None, None)] when the fetch raises. *)
Definition citation_of (pmid : option string)
  : option string * option string :=
  match pmid with
  | Some p =>
      if PyStr.truthy p then
        match pmid_to_apa p with
        | Returns (full, short) => (Some full, Some short)
        | Raises _ => (None, None)
        end
      else (None, None)
  | None => (None, None)
  end.

(** The full text of a record: fetched only when a source is chosen and
    the record has a pmcid. *)
Definition text_of (get_text_from : option string) (pmcid : option string)
  : Outcome Text :=
  match get_text_from, pmcid with
  | Some source, Some p =>
      if String.eqb source "ncbi" then
        Returns (match get_ncbi_text p with
                 | Some ps => TextPassages ps
                 | None => TextNone
                 end)
      else if String.eqb source "epmc" then
        Returns (match get_epmc_text p with
                 | Some m => TextSections m
                 | None => TextNone
                 end)
      else if String.eqb source "epmc_my" then
        match get_epmc_text_my requests_get fromstring p with
        | Returns m => Returns (TextSections m)
        | Raises e => Raises e
        end
      else if String.eqb source "ncbi_my" then
        match get_ncbi_text_my requests_get fromstring p with
        | Returns m => Returns (TextSections m)
        | Raises e => Raises e
        end
      else Returns TextNone
  | _, _ => Returns TextNone
  end.

Definition output_record (record : SearchRecord)
           (apa : option string * option string) (text : Text)
  : OutputRecord :=
  {| o_id := r_id record;
     o_pmid := r_pmid record;
     o_pmcid := r_pmcid record;
     o_url := if truthy_opt (r_pmid record)
              then option_map
                     (fun p => ("https://pubmed.ncbi.nlm.nih.gov/"
                                  ++ p ++ "/")%string)
                     (r_pmid record)
              else None;
     o_title := r_title record;
     o_authors := r_authorString record;
     o_journal := r_journal record;
     o_year := r_pubYear record;
     o_doi := r_doi record;
     o_license := r_license record;
     o_apa := fst apa;
     o_apa_short := snd apa;
     o_abstract := r_abstractText record;
     o_text := text |}.

(** The [for record in results] loop.  It ends at the end of the list,
    at the [break] taken once [records_fetched] has reached
    [max_records], or with an exception of the text getter. *)
Fixpoint for_records (output_dir : string) (max_records : nat)
         (get_text_from : option string)
         (records : list SearchRecord) (st : State) : Run :=
  match records with
  | [] => Done st
  | record :: rest =>
      match py_or (py_or (r_pmcid record) (r_pmid record)) (r_id record) with
      | None => for_records output_dir max_records get_text_from rest st
      | Some file_id =>
          let apa := citation_of (r_pmid record) in
          match text_of get_text_from (r_pmcid record) with
          | Raises e => Crashed e st
          | Returns text =>
              let filename := (file_id ++ ".json")%string in
              let output_path := path_join output_dir filename in
              let st' :=
                mkState (records_fetched st + 1)
                        (written st
                           ++ [(output_path,
                                output_record record apa text)])
                        (cursors st) in
              if (max_records <=? records_fetched st')%nat then Done st'
              else for_records output_dir max_records get_text_from rest st'
          end
      end
  end.

(** The [while True] loop: one round per answer of the search service. *)
Fixpoint while_pages (output_dir : string) (max_records : nat)
         (get_text_from : option string)
         (answers : list (Outcome SearchResponse))
         (cursor : string) (st : State) : Run :=
  let st := mkState (records_fetched st) (written st)
                    (cursors st ++ [cursor]) in
  match answers with
  | [] => Starved st
  | Raises e :: _ =>
      if is_request_exception e then Done st else Crashed e st
  | Returns data :: later =>
      match results data with
      | [] => Done st
      | _ :: _ =>
          match for_records output_dir max_records get_text_from
                            (results data) st with
          | Done st' =>
              match nextCursorMark data with
              | Some c =>
                  if PyStr.truthy c
                  then while_pages output_dir max_records get_text_from
                                   later c st'
                  else Done st'
              | None => Done st'
              end
          | other => other
          end
      end
  end.

Definition fetch (query output_dir : string) (max_records : option nat)
           (get_text_from : option string)
           (answers : list (Outcome SearchResponse)) : Run :=
  let st := mkState 0 [] [] in
  match (match max_records with
         | Some m => Returns m
         | None => get_max_records query
         end) with
  | Raises e => Crashed e st
  | Returns m => while_pages output_dir m get_text_from answers "*" st
  end.

End Env.

(** The records of a page that get a file name. *)
Definition has_file_id (record : SearchRecord) : bool :=
  match py_or (py_or (r_pmcid record) (r_pmid record)) (r_id record) with
  | Some _ => true
  | None => false
  end.

Definition named (records : list SearchRecord) : nat :=
  List.length (filter has_file_id records).

(** The number of records one page adds when [fetched] records are
    saved already: all that have a name, up to what is missing to
    [max_records], and never less than one. *)
Definition page_share (max_records fetched : nat)
           (records : list SearchRecord) : nat :=
  Nat.min (named records) (Nat.max 1 (max_records - fetched)).

(** The records saved after a run through [pages]. *)
Fixpoint saved_after (max_records fetched : nat)
         (pages : list SearchResponse) : nat :=
  match pages with
  | [] => fetched
  | page :: later =>
      saved_after max_records
                  (fetched + page_share max_records fetched (results page))
                  later
  end.

(** A page that keeps the loop going: it has records and a cursor for
    the next page. *)
Definition goes_on (page : SearchResponse) : bool :=
  nonempty (results page) && truthy_opt (nextCursorMark page).

Definition cursor_of (page : SearchResponse) : string :=
  match nextCursorMark page with Some c => c | None => "" end.

(** The sources whose getter catches its own exceptions, the unknown
    sources, and no source at all. *)
Definition source_is_safe (get_text_from : option string) : bool :=
  match get_text_from with
  | Some source =>
      negb (String.eqb source "epmc_my" || String.eqb source "ncbi_my")
  | None => true
  end.

End Fetch.

(* ------------------------------------------------------------------ *)
(** *** An environment used as an example *)

Module Sample.

Import Fetch.

(** Europe PMC serves the example document for PMC1 and a truncated one
    for PMC2; nothing else answers. *)
Definition requests_get (url : string) (params : list (string * string))
  : Outcome Response :=
  if String.eqb url
       "https://www.ebi.ac.uk/europepmc/webservices/rest/PMC1/fullTextXML"
  then Returns (mkResponse 200 doc_example)
  else if String.eqb url
       "https://www.ebi.ac.uk/europepmc/webservices/rest/PMC2/fullTextXML"
  then Returns (mkResponse 200 doc_truncated)
  else Raises "ConnectionError".

(** The exception classes of the requests library, by name:
    [RequestException] and its subclasses. *)
Definition is_request_exception (exn : string) : bool :=
  existsb (String.eqb exn)
          [ "RequestException"; "InvalidJSONError"; "JSONDecodeError";
            "HTTPError"; "ConnectionError"; "ProxyError"; "SSLError";
            "Timeout"; "ConnectTimeout"; "ReadTimeout"; "URLRequired";
            "TooManyRedirects"; "MissingSchema"; "InvalidSchema";
            "InvalidURL"; "InvalidHeader"; "InvalidProxyURL";
            "ChunkedEncodingError"; "ContentDecodingError";
            "StreamConsumedError"; "RetryError"; "UnrewindableBodyError" ].

Definition get_ncbi_text (pmcid : string) : option (list Passage) := None.
Definition get_epmc_text (pmcid : string) : option Store := None.
Definition pmid_to_apa (pmid : string) : Outcome (string * string) :=
  Raises "HTTPError".
Definition get_max_records (query : string) : Outcome nat := Returns 0.

Definition record_of (pmcid : string) : SearchRecord :=
  mkSearchRecord None None (Some pmcid) None None None None None None None.

Definition page_two : SearchResponse :=
  mkSearchResponse [record_of "PMC1"; record_of "PMC2"] (Some "c1").

Definition page_one (cursor : string) : SearchResponse :=
  mkSearchResponse [record_of "PMC1"] (Some cursor).

Definition page_empty : SearchResponse := mkSearchResponse [] (Some "c3").

Definition fetch :=
  Fetch.fetch is_request_exception requests_get Xml.fromstring get_ncbi_text
              get_epmc_text pmid_to_apa get_max_records.

End Sample.

(* ================================================================== *)
(** ** The sibling getter: [get_epmc_text] of [epmc_xml.py]

    The R package delivers the text as rows (section, paragraph index,
    sentence); the function groups the rows by section and paragraph and
    joins the sentences of each paragraph.  The call of the R package and
    the conversion of its table are the environment: they give the rows,
    or raise. *)

Module Epmc.

Record Row : Type := mkRow
  { row_section : string; row_paragraph : Z; row_text : string }.

(** [text_dict[section]]: paragraph index to sentences, in insertion
    order. *)
Definition ParagraphDict := list (Z * list string).
Definition TextDict := list (string * ParagraphDict).

(** [if idx not in d: d[idx] = []] followed by [d[idx].append(s)]. *)
Fixpoint append_sentence (d : ParagraphDict) (idx : Z) (s : string)
  : ParagraphDict :=
  match d with
  | [] => [(idx, [] ++ [s])]
  | (i, v) :: r =>
      if Z.eqb i idx then (i, v ++ [s]) :: r
      else (i, v) :: append_sentence r idx s
  end.

(** One round of the loop over the rows. *)
Fixpoint add_row (td : TextDict) (row : Row) : TextDict :=
  match td with
  | [] => [(row_section row,
            append_sentence [] (row_paragraph row) (row_text row))]
  | (s, d) :: r =>
      if String.eqb s (row_section row)
      then (s, append_sentence d (row_paragraph row) (row_text row)) :: r
      else (s, d) :: add_row r row
  end.

Definition text_dict (rows : list Row) : TextDict :=
  fold_left add_row rows [].

Fixpoint insert (i : Z) (l : list Z) : list Z :=
  match l with
  | [] => [i]
  | j :: r => if Z.leb i j then i :: l else j :: insert i r
  end.

(** [sorted(keys)] on integers. *)
Definition sorted (l : list Z) : list Z := fold_right insert [] l.

(** [paragraphs[idx]]. *)
Fixpoint lookup (d : ParagraphDict) (idx : Z) : list string :=
  match d with
  | [] => []
  | (i, v) :: r => if Z.eqb i idx then v else lookup r idx
  end.

(** The inner loop of the second pass: the paragraphs of one section. *)
Definition section_paragraphs (paragraphs : ParagraphDict) : list string :=
  map (fun idx => PyStr.join " " (lookup paragraphs idx))
      (sorted (map fst paragraphs)).

(** The second pass. *)
Definition output_dict (td : TextDict) : Store :=
  map (fun sd => (fst sd, section_paragraphs (snd sd))) td.

(** The two passes of [get_epmc_text] on the rows. *)
Definition regroup (rows : list Row) : Store :=
  output_dict (text_dict rows).

Section Env.

(** [tidypmc.pmc_xml], [tidypmc.pmc_text] and the conversion to a table:
    the rows of the article, or an exception. *)
Variable pmc_rows : string -> Outcome (list Row).

(** Any exception is caught, a message is printed and [None] is
    returned. *)
Definition get_epmc_text (pmcid : string) : option Store :=
  match pmc_rows pmcid with
  | Returns rows => Some (regroup rows)
  | Raises _ => None
  end.

End Env.

(** One more value for a list that holds each value once. *)
Definition collect_key {A} (eqb : A -> A -> bool) (acc : list A) (x : A)
  : list A :=
  if existsb (eqb x) acc then acc else acc ++ [x].

(** The values of a list, each once, at their first occurrence. *)
Definition distinct {A} (eqb : A -> A -> bool) (l : list A) : list A :=
  fold_left (collect_key eqb) l [].

Definition in_section (s : string) (row : Row) : bool :=
  String.eqb (row_section row) s.

Definition in_paragraph (s : string) (i : Z) (row : Row) : bool :=
  String.eqb (row_section row) s && Z.eqb (row_paragraph row) i.

(** The sentences of paragraph [i] of section [s], in row order. *)
Definition sentences_of (rows : list Row) (s : string) (i : Z)
  : list string :=
  map row_text (filter (in_paragraph s i) rows).

(** The paragraph indices of section [s], each once. *)
Definition indices_of (rows : list Row) (s : string) : list Z :=
  distinct Z.eqb (map row_paragraph (filter (in_section s) rows)).

(** The sections, each once, in the order of their first row. *)
Definition sections_of (rows : list Row) : list string :=
  distinct String.eqb (map row_section rows).

End Epmc.

(** Rows that come out of order: the second paragraph of a section before
    the first, and a row of another section in between. *)
Definition rows_sample : list Epmc.Row :=
  [ Epmc.mkRow "Intro" 2 "b.";
    Epmc.mkRow "Intro" 1 "a1.";
    Epmc.mkRow "Methods" 1 "m.";
    Epmc.mkRow "Intro" 1 "a2." ].

(* ================================================================== *)
(** ** The batching loop of [dicty_curator_notes.py]

    [run] goes through the gene identifiers, skips those already in the
    output, fetches the notes of the others and writes the rows to the
    output in batches.  Fetching the notes, stripping the HTML and
    creating the output file are the environment.  The output file is
    known by whether it exists when the run starts and by the gene
    identifiers it then holds, and by the batches the run writes to
    it. *)

Module Notes.

Record NoteRow : Type := mkNoteRow
  { gene_id : string;
    curator_notes_html : option string;
    curator_notes_plain : option string }.

Record RunState : Type := mkRunState
  { rows_buffer : list NoteRow;
    processed : nat;
    skipped : nat;
    batches : list (list NoteRow) }.

(** How [run] ends: normally, or by an exception that nothing catches. *)
Inductive RunEnd : Type :=
| Finished (st : RunState)
| Aborted (exn : string) (st : RunState).

(** [series.head(n)]: the first [n] elements, or, for a negative [n], all
    but the last [-n]. *)
Definition head (n : Z) (l : list string) : list string :=
  if (0 <=? n)%Z then firstn (Z.to_nat n) l
  else firstn (List.length l - Z.to_nat (- n)) l.

(** [gene_series] once [limit] is applied. *)
Definition series (genes_status : list string) (limit : option Z)
  : list string :=
  match limit with
  | Some n => head n genes_status
  | None => genes_status
  end.

(** The output file when the run starts: [None] when there is no file,
    else the [gene_id] column of the file (empty when the file has no such
    column).  Reading the file is taken to succeed. *)
Definition Output := option (list string).

(** [out_path.exists()] when the run starts. *)
Definition is_file (out : Output) : bool :=
  match out with Some _ => true | None => false end.

(** [load_done_ids(out_path)]. *)
Definition load_done_ids (out : Output) : list string :=
  match out with
  | None => []
  | Some ids => ids
  end.

(** The batches of a file that gets [rows] as one more batch: unchanged
    for no rows. *)
Definition with_batch (written : list (list NoteRow))
           (rows : list NoteRow) : list (list NoteRow) :=
  match rows with
  | [] => written
  | _ :: _ => written ++ [rows]
  end.

Section Env.

(** [get_curator_notes_html(gid, ...)]: the notes, [None], or an
    exception. *)
Variable get_curator_notes_html : string -> Outcome (option string).
(** [BeautifulSoup(html, "html.parser").get_text(" ", strip=True)]. *)
Variable get_text : string -> string.
(** [isinstance(e, requests.RequestException)]. *)
Variable is_request_exception : string -> bool.
(** [pl.DataFrame(rows).write_parquet(out_path)], the write that creates
    the file: it returns or raises. *)
Variable write_parquet : list NoteRow -> Outcome unit.

(** [append_parquet(out_path, rows)].  Nothing is written for no rows.
    When the file exists, because it was there when the run started or
    because the run has written a batch, the call is
    [df_batch.write_parquet(out_path, append=True)]:
    [DataFrame.write_parquet] takes no keyword [append], so the call
    raises [TypeError] and the file stays as it is.  When there is no
    file the call is [df_batch.write_parquet(out_path)].  Creating the
    parent directory is taken to succeed. *)
Definition append_parquet (out_exists : bool)
           (written : list (list NoteRow)) (rows : list NoteRow)
  : Outcome (list (list NoteRow)) :=
  match rows with
  | [] => Returns written
  | _ :: _ =>
      if out_exists || nonempty written then Raises "TypeError"
      else
        match write_parquet rows with
        | Returns _ => Returns (written ++ [rows])
        | Raises e => Raises e
        end
  end.

(** The [try] block of the loop: what it leaves in [html] and [plain],
    or the exception it lets through. *)
Definition fetch_notes (gid : string)
  : Outcome (option string * option string) :=
  match get_curator_notes_html gid with
  | Returns html =>
      Returns (html,
               match html with
               | Some h => if PyStr.truthy h then Some (get_text h) else None
               | None => None
               end)
  | Raises e =>
      if is_request_exception e then Returns (None, None)
      else Raises e
  end.

(** The [for gid in gene_series] loop. *)
Fixpoint for_genes (batch_size : Z) (out_exists : bool)
         (done_ids : list string)
         (genes : list string) (st : RunState) : RunEnd :=
  match genes with
  | [] => Finished st
  | gid :: rest =>
      if existsb (String.eqb gid) done_ids then
        for_genes batch_size out_exists done_ids rest
                  (mkRunState (rows_buffer st) (processed st)
                              (skipped st + 1) (batches st))
      else
        match fetch_notes gid with
        | Raises e => Aborted e st
        | Returns (html, plain) =>
            let buffer := rows_buffer st ++ [mkNoteRow gid html plain] in
            let processed := processed st + 1 in
            if (batch_size <=? Z.of_nat (List.length buffer))%Z then
              match append_parquet out_exists (batches st) buffer with
              | Returns written =>
                  for_genes batch_size out_exists done_ids rest
                            (mkRunState [] processed (skipped st) written)
              | Raises e =>
                  Aborted e (mkRunState buffer processed (skipped st)
                                        (batches st))
              end
            else
              for_genes batch_size out_exists done_ids rest
                        (mkRunState buffer processed (skipped st)
                                    (batches st))
        end
  end.

(** The last lines of [run]: the rows still in the buffer are written. *)
Definition flush (out_exists : bool) (loop : RunEnd) : RunEnd :=
  match loop with
  | Finished st =>
      match append_parquet out_exists (batches st) (rows_buffer st) with
      | Returns written =>
          Finished (mkRunState (rows_buffer st) (processed st) (skipped st)
                               written)
      | Raises e => Aborted e st
      end
  | Aborted e st => Aborted e st
  end.

Definition run (genes_status : list string) (out : Output)
           (limit : option Z) (batch_size : Z) : RunEnd :=
  let gene_series := series genes_status limit in
  let done_ids := load_done_ids out in
  flush (is_file out)
        (for_genes batch_size (is_file out) done_ids gene_series
                   (mkRunState [] 0 0 [])).

(** The row of a gene whose notes can be fetched or fail with a request
    exception. *)
Definition row_of (gid : string) : NoteRow :=
  match fetch_notes gid with
  | Returns (html, plain) => mkNoteRow gid html plain
  | Raises _ => mkNoteRow gid None None
  end.

(** No fetch of the notes of these genes lets an exception through. *)
Definition all_fetched (genes : list string) : Prop :=
  forall gid, In gid genes -> exists hp, fetch_notes gid = Returns hp.

(** The write that creates the file returns. *)
Definition creates : Prop :=
  forall rows, write_parquet rows = Returns tt.

(** No write to this output goes through, and what stops it is [exn]: the
    file exists, or the write that would create it raises. *)
Definition writes_raise (out : Output) (exn : string) : Prop :=
  match out with
  | Some _ => exn = "TypeError"
  | None => forall rows, write_parquet rows = Raises exn
  end.

End Env.

Definition is_new (done_ids : list string) (gid : string) : bool :=
  negb (existsb (String.eqb gid) done_ids).

(** The number of rows in the buffer at which the loop writes:
    [batch_size], and one when [batch_size] is below one. *)
Definition batch_rows (batch_size : Z) : nat :=
  Z.to_nat (Z.max 1 batch_size).

End Notes.

(** An environment for [run]: notes for g1, none for g2, a time-out for
    g3, an exception that is no request exception for g4, and no notes for
    any other gene.  The HTML is left as it is, and the write that
    creates the file returns. *)
Module NotesSample.

Definition get_curator_notes_html (gid : string) : Outcome (option string) :=
  if String.eqb gid "g1" then Returns (Some "<i>a</i>")
  else if String.eqb gid "g3" then Raises "ReadTimeout"
  else if String.eqb gid "g4" then Raises "ValueError"
  else Returns None.

Definition get_text (html : string) : string := html.

Definition write_parquet (rows : list Notes.NoteRow) : Outcome unit :=
  Returns tt.

Definition run :=
  Notes.run get_curator_notes_html get_text Sample.is_request_exception
            write_parquet.
Definition row_of :=
  Notes.row_of get_curator_notes_html get_text Sample.is_request_exception.

End NotesSample.

(* ================================================================== *)
(** * Properties *)

(** ** The element tree *)

(** Induction over the tree with the hypothesis available for every child. *)
Lemma Element_tree_ind (P : Element -> Prop) :
  (forall t x l cs, Forall P cs -> P (Elem t x l cs)) ->
  forall e, P e.
Proof.
  intros step.
  fix IH 1.
  intros [t x l cs].
  apply step.
  induction cs as [|c cs IHcs]; constructor.
  - apply IH.
  - exact IHcs.
Qed.

(** ** Splitting and joining *)

Section SplitJoin.

Import PyStr.

Lemma split_go_blank b : blank b = true -> split_go b = ("", []).
Proof.
  induction b as [|c b IH]; simpl; [reflexivity|].
  intros H. apply andb_prop in H as [Hc Hb].
  rewrite (IH Hb), Hc. reflexivity.
Qed.

Lemma split_go_app_congr p s1 s2 :
  split_go s1 = split_go s2 ->
  split_go (p ++ s1) = split_go (p ++ s2).
Proof.
  intros H. induction p as [|c p IH]; simpl; [exact H|].
  rewrite IH. reflexivity.
Qed.

Lemma split_go_space s : split_go (" " ++ s) = ("", split s).
Proof.
  unfold split. simpl. destruct (split_go s) as [w ws]. reflexivity.
Qed.

Lemma split_of_go s1 s2 : split_go s1 = split_go s2 -> split s1 = split s2.
Proof. unfold split. intros ->. reflexivity. Qed.

Lemma split_blank_l a s : blank a = true -> split (a ++ s) = split s.
Proof.
  induction a as [|c a IH]; simpl; [reflexivity|].
  intros H. apply andb_prop in H as [Hc Ha].
  rewrite <- (IH Ha). unfold split. simpl.
  destruct (split_go (a ++ s)) as [w ws]. rewrite Hc. reflexivity.
Qed.

Lemma split_blank b : blank b = true -> split b = [].
Proof. intros H. unfold split. rewrite (split_go_blank _ H). reflexivity. Qed.

Lemma append_empty_r (s : string) : (s ++ "")%string = s.
Proof. induction s as [|c s IH]; simpl; [|rewrite IH]; reflexivity. Qed.

Lemma join_cons sep p q rest :
  join sep (p :: q :: rest) = (p ++ sep ++ join sep (q :: rest))%string.
Proof. reflexivity. Qed.

(** Blank parts in front of the list leave the words unchanged. *)
Lemma split_join_blank_l a ps :
  forallb blank a = true ->
  split (join " " (a ++ ps)) = split (join " " ps).
Proof.
  induction a as [|a1 a IH]; simpl app; [reflexivity|].
  intros H. simpl in H. apply andb_prop in H as [H1 Ha].
  rewrite <- (IH Ha).
  destruct (a ++ ps) as [|q rest].
  - simpl. apply split_blank. exact H1.
  - rewrite join_cons, (split_blank_l _ _ H1).
    apply (split_blank_l " "). reflexivity.
Qed.

(** Blank parts at the end of the list leave the words unchanged. *)
Lemma split_join_blank_r ps b :
  forallb blank b = true ->
  split (join " " (ps ++ b)) = split (join " " ps).
Proof.
  intros Hb. induction ps as [|p ps IH].
  - simpl app. rewrite <- (app_nil_r b).
    rewrite (split_join_blank_l b [] Hb). reflexivity.
  - simpl app. destruct ps as [|q ps].
    + simpl app in *. destruct b as [|b1 b]; [reflexivity|].
      rewrite join_cons. apply split_of_go.
      simpl join at 2. rewrite <- (append_empty_r p) at 2.
      apply split_go_app_congr.
      rewrite split_go_space, IH. reflexivity.
    + simpl app in *. rewrite !join_cons. apply split_of_go.
      apply split_go_app_congr. rewrite !split_go_space, IH.
      reflexivity.
Qed.

Lemma opt_part_blank o : blank_opt o = true -> forallb blank (opt_part o) = true.
Proof.
  destruct o as [s|]; simpl; [|reflexivity].
  intros H. destruct (truthy s); simpl; [rewrite H|]; reflexivity.
Qed.

End SplitJoin.

(** ** The text flattener *)

(** C8, as stated, fails: the text that follows the only child inside the
    wrapper is kept in the tail of the child, not of the wrapper, and the
    flattener reads it when it flattens the wrapper and not when it
    flattens the child. *)
Lemma C8_wrapper_rule_counterexample :
  Xml.fromstring doc_trailing_text = Some tree_trailing_text
  /\ _txt (Some tree_trailing_text) = "foo bar"
  /\ _txt (Some (Elem "n" (Some "foo") (Some "bar") [])) = "foo"
  /\ ~ wrapper_rule.
Proof.
  repeat split; try (vm_compute; reflexivity).
  intros H.
  specialize (H "w" None None (Elem "n" (Some "foo") (Some "bar") [])
                eq_refl eq_refl).
  vm_compute in H. discriminate H.
Qed.

(** C8, amended.  When a node [w] has [n] as its only child, the own text
    of [w] is absent or made of whitespace only, and so is the tail of
    [n] (the text that follows [n] inside [w]), then flattening [w] gives
    the same normalized string as flattening [n], whatever the tail of
    [w] is; and flattening an absent node gives the empty string. *)
Theorem C8_flatten_wrapper :
  _txt None = ""
  /\ forall (t : string) (x l : option string) (n : Element),
      PyStr.blank_opt x = true ->
      PyStr.blank_opt (tail n) = true ->
      _txt (Some (Elem t x l [n])) = _txt (Some n).
Proof.
  split; [reflexivity|].
  intros t x l n Hx Hn. unfold _txt, normalize. f_equal.
  change (walk (Elem t x l [n]))
    with (opt_part x ++ (walk n ++ opt_part (tail n)) ++ []).
  rewrite app_nil_r.
  rewrite split_join_blank_l by (apply opt_part_blank; exact Hx).
  apply split_join_blank_r, opt_part_blank. exact Hn.
Qed.

Lemma C8_flatten_wrapper_witness :
  let n := Elem "p" (Some "a  b") (Some " ") [Elem "i" (Some "c") None []] in
  PyStr.blank_opt (Some " ") = true
  /\ PyStr.blank_opt (tail n) = true
  /\ _txt (Some (Elem "wrap" (Some " ") None [n])) = _txt (Some n).
Proof.
  intros n.
  assert (Hx : PyStr.blank_opt (Some " ") = true) by reflexivity.
  assert (Hn : PyStr.blank_opt (tail n) = true) by reflexivity.
  split; [exact Hx|]. split; [exact Hn|].
  exact (proj2 C8_flatten_wrapper "wrap" (Some " ") None n Hx Hn).
Defined.

(** ** The public entry point *)

(** C1.  On the end-to-end example document the extractor returns the map
    Title -> [Foo], Abstract -> [Bar.], Intro -> [Hello world.],
    Sub -> [Nested text.], with the keys in this order. *)
Theorem C1_end_to_end_example :
  extract doc_example =
  Returns [ ("Title", ["Foo"]); ("Abstract", ["Bar."]);
            ("Intro", ["Hello world."]); ("Sub", ["Nested text."]) ].
Proof. vm_compute. reflexivity. Qed.

(** C2, at a document whose only body section is itself titled "Title":
    the paragraphs of that section are appended to the entry that holds
    the article title, so the "Title" entry has two elements. *)
Theorem C2_section_named_title_extends_title_entry :
  extract doc_section_named_title = Returns [ ("Title", ["Foo"; "x"]) ].
Proof. vm_compute. reflexivity. Qed.

(** ** The dictionary *)

Lemma extended_app o a b : extended (extended o a) b = extended o (a ++ b).
Proof.
  destruct a as [|x a]; [reflexivity|].
  destruct b as [|y b]; simpl.
  - rewrite app_nil_r. reflexivity.
  - rewrite <- app_assoc. reflexivity.
Qed.

Lemma get_setdefault_extend d k' ps k :
  Dict.get (Dict.setdefault_extend d k' ps) k =
  if String.eqb k' k
  then Some (match Dict.get d k with Some v => v | None => [] end ++ ps)
  else Dict.get d k.
Proof.
  induction d as [|[k0 v0] d IH]; simpl.
  - destruct (String.eqb k' k); reflexivity.
  - destruct (String.eqb k0 k') eqn:E0; simpl.
    + apply String.eqb_eq in E0. subst k0.
      destruct (String.eqb k' k); reflexivity.
    + destruct (String.eqb k0 k) eqn:E1; [|exact IH].
      apply String.eqb_eq in E1. subst k0.
      rewrite String.eqb_sym, E0. reflexivity.
Qed.

Lemma get_add_paragraphs d k' ps k :
  Dict.get (add_paragraphs d k' ps) k =
  if String.eqb k' k then extended (Dict.get d k) ps else Dict.get d k.
Proof.
  unfold add_paragraphs. destruct ps as [|p ps]; simpl nonempty; cbv iota.
  - destruct (String.eqb k' k); reflexivity.
  - rewrite get_setdefault_extend. reflexivity.
Qed.

Lemma paragraphs_for_cons k e es :
  paragraphs_for k (e :: es) =
  (if String.eqb (fst e) k then snd e else []) ++ paragraphs_for k es.
Proof.
  unfold paragraphs_for. simpl.
  destruct (String.eqb (fst e) k); reflexivity.
Qed.

Lemma paragraphs_for_app k es1 es2 :
  paragraphs_for k (es1 ++ es2) = paragraphs_for k es1 ++ paragraphs_for k es2.
Proof.
  unfold paragraphs_for.
  rewrite filter_app, map_app, concat_app. reflexivity.
Qed.

(** What a run of contributions leaves under a key. *)
Lemma get_add_all es : forall d k,
  Dict.get (add_all es d) k = extended (Dict.get d k) (paragraphs_for k es).
Proof.
  induction es as [|e es IH]; intros d k.
  - reflexivity.
  - change (add_all (e :: es) d) with (add_all es (add_entry d e)).
    rewrite IH, paragraphs_for_cons. unfold add_entry.
    rewrite get_add_paragraphs.
    destruct (String.eqb (fst e) k).
    + apply extended_app.
    + reflexivity.
Qed.

Lemma add_all_app es1 es2 d : add_all (es1 ++ es2) d = add_all es2 (add_all es1 d).
Proof. apply fold_left_app. Qed.

Lemma entries_of_setdefault_extend d k' ps k :
  entries_of (Dict.setdefault_extend d k' ps) k =
  if String.eqb k' k then
    match entries_of d k with
    | [] => [(k', ps)]
    | (k0, v) :: r => (k0, v ++ ps) :: r
    end
  else entries_of d k.
Proof.
  induction d as [|[k0 v0] d IH]; simpl.
  - destruct (String.eqb k' k); reflexivity.
  - destruct (String.eqb k0 k') eqn:E0; simpl.
    + apply String.eqb_eq in E0. subst k0.
      destruct (String.eqb k' k); reflexivity.
    + destruct (String.eqb k0 k) eqn:E1; simpl.
      * apply String.eqb_eq in E1. subst k0.
        assert (E2 : String.eqb k' k = false)
          by (rewrite String.eqb_sym; exact E0).
        rewrite IH, E2. reflexivity.
      * rewrite IH. reflexivity.
Qed.

(** A key that has one entry keeps one entry, with the new paragraphs
    appended. *)
Lemma entries_of_add_all_single es : forall d k v,
  entries_of d k = [(k, v)] ->
  entries_of (add_all es d) k = [(k, v ++ paragraphs_for k es)].
Proof.
  induction es as [|e es IH]; intros d k v H.
  - simpl. unfold paragraphs_for. simpl. rewrite app_nil_r. exact H.
  - change (add_all (e :: es) d) with (add_all es (add_entry d e)).
    rewrite paragraphs_for_cons.
    unfold add_entry, add_paragraphs.
    destruct (snd e) as [|p ps] eqn:Es; simpl nonempty; cbv iota.
    + rewrite (IH d k v H).
      destruct (String.eqb (fst e) k); reflexivity.
    + destruct (String.eqb (fst e) k) eqn:E.
      * rewrite (IH _ k (v ++ p :: ps)).
        -- rewrite <- app_assoc. reflexivity.
        -- rewrite entries_of_setdefault_extend, E, H. reflexivity.
      * apply IH. rewrite entries_of_setdefault_extend, E. exact H.
Qed.

(** A key that is absent gets one entry as soon as paragraphs arrive for
    it, and no entry before. *)
Lemma entries_of_add_all_absent es : forall d k,
  entries_of d k = [] ->
  entries_of (add_all es d) k =
  match paragraphs_for k es with
  | [] => []
  | ps => [(k, ps)]
  end.
Proof.
  induction es as [|e es IH]; intros d k H.
  - exact H.
  - change (add_all (e :: es) d) with (add_all es (add_entry d e)).
    rewrite paragraphs_for_cons.
    unfold add_entry, add_paragraphs.
    destruct (snd e) as [|p ps] eqn:Es; simpl nonempty; cbv iota.
    + rewrite (IH d k H).
      destruct (String.eqb (fst e) k); reflexivity.
    + destruct (String.eqb (fst e) k) eqn:E.
      * apply String.eqb_eq in E.
        rewrite (entries_of_add_all_single es _ k (p :: ps)).
        -- reflexivity.
        -- rewrite entries_of_setdefault_extend, E, String.eqb_refl, H.
           reflexivity.
      * apply IH. rewrite entries_of_setdefault_extend, E. exact H.
Qed.

Lemma entries_of_get_none d k : Dict.get d k = None -> entries_of d k = [].
Proof.
  induction d as [|[k0 v0] d IH]; simpl; [reflexivity|].
  destruct (String.eqb k0 k); [discriminate | exact IH].
Qed.

Lemma get_of_entries d k :
  Dict.get d k = match entries_of d k with
                 | [] => None
                 | e :: _ => Some (snd e)
                 end.
Proof.
  induction d as [|[k0 v0] d IH]; simpl; [reflexivity|].
  destruct (String.eqb k0 k); [reflexivity | exact IH].
Qed.

(** ** The paragraph collector *)

Lemma level_paragraph_skipped c : skipped c = true -> level_paragraph c = [].
Proof. unfold level_paragraph, skipped. intros ->. reflexivity. Qed.

Lemma collect_filter_skipped cs :
  flat_map level_paragraph (filter (fun c => negb (skipped c)) cs)
  = flat_map level_paragraph cs.
Proof.
  induction cs as [|c cs IH]; simpl; [reflexivity|].
  destruct (skipped c) eqn:E; simpl.
  - rewrite (level_paragraph_skipped _ E). exact IH.
  - rewrite IH. reflexivity.
Qed.

Lemma collect_own_level container :
  _collect_level_paragraphs (own_level container)
  = _collect_level_paragraphs container.
Proof. destruct container. apply collect_filter_skipped. Qed.

(** ** The body walker *)

Lemma walk_sec_entries : forall sec store,
  walk_sec sec store = add_all (map section_entry (visited sec)) store.
Proof.
  induction sec as [t x l cs IH] using Element_tree_ind. intros store.
  change (visited (Elem t x l cs))
    with (Elem t x l cs
          :: flat_map (fun c => if _is c "sec" then visited c else []) cs).
  change (walk_sec (Elem t x l cs) store)
    with (fold_left
            (fun st child => if _is child "sec" then walk_sec child st else st)
            cs
            (add_paragraphs store (section_title (Elem t x l cs))
               (_collect_level_paragraphs (Elem t x l cs)))).
  rewrite map_cons.
  change (add_all (?e :: ?es) store) with (add_all es (add_entry store e)).
  unfold add_entry at 1, section_entry at 1. simpl fst. simpl snd.
  rewrite collect_own_level.
  generalize (add_paragraphs store (section_title (Elem t x l cs))
                (_collect_level_paragraphs (Elem t x l cs))).
  induction IH as [|c cs Hc _ IHcs]; intros st; [reflexivity|].
  simpl. rewrite map_app, add_all_app, <- IHcs.
  destruct (_is c "sec"); [rewrite Hc|]; reflexivity.
Qed.

Lemma walk_tops_entries tops : forall store,
  fold_left (fun st top => walk_sec top st) tops store
  = add_all (map section_entry (flat_map visited tops)) store.
Proof.
  induction tops as [|top tops IH]; intros store; [reflexivity|].
  simpl. rewrite IH, walk_sec_entries, map_app, add_all_app. reflexivity.
Qed.

Lemma parse_body_entries article body store :
  EPath.find ["body"] article = Some body ->
  _parse_body_into_map article store = add_all (body_entries body) store.
Proof.
  intros H. unfold _parse_body_into_map. rewrite H.
  rewrite walk_tops_entries. reflexivity.
Qed.

(** C3, as stated, fails on two documents.  In the first a section and
    its direct sub-section derive the same key, so the sub-section's
    paragraph is stored under the key of its parent.  In the second the
    sub-section sits inside a boxed text, which is flattened as one
    content block of the outer section, sub-section included. *)
Lemma C3_nested_text_counterexample :
  (Xml.fromstring doc_same_title = Some tree_same_title
   /\ section_map_of_root tree_same_title = [("A", ["x"; "y"])]
   /\ ~ nested_text_kept_out tree_same_title)
  /\ (Xml.fromstring doc_boxed = Some tree_boxed
      /\ section_map_of_root tree_boxed = [("Outer", ["Inner Secret"])]
      /\ ~ nested_text_kept_out tree_boxed).
Proof.
  split; (split; [vm_compute; reflexivity|]); (split; [vm_compute; reflexivity|]).
  - intros H.
    apply (H (Elem "body" None None [sec_same_title_outer])
             sec_same_title_outer sec_same_title_inner "y" ["x"; "y"] "y");
      try (vm_compute; reflexivity).
    + simpl. auto.
    + simpl. auto.
    + simpl. auto.
    + simpl. auto.
    + exists "", "". reflexivity.
  - intros H.
    apply (H (Elem "body" None None [sec_boxed_outer])
             sec_boxed_outer sec_boxed_inner "Secret" ["Inner Secret"]
             "Inner Secret");
      try (vm_compute; reflexivity).
    + simpl. auto.
    + simpl. auto.
    + simpl. auto.
    + simpl. auto.
    + exists "Inner ", "". reflexivity.
Qed.

(** ** The article locator *)

Lemma find_first {A} (f : A -> bool) pre a post :
  f a = true -> (forall d, In d pre -> f d = false) ->
  List.find f (pre ++ a :: post) = Some a.
Proof.
  intros Ha Hpre. induction pre as [|d pre IH]; simpl.
  - rewrite Ha. reflexivity.
  - rewrite (Hpre d (or_introl eq_refl)). apply IH.
    intros d' Hd'. apply Hpre. right. exact Hd'.
Qed.

Lemma find_no_match {A} (f : A -> bool) l :
  (forall d, In d l -> f d = false) -> List.find f l = None.
Proof.
  intros H. induction l as [|d l IH]; simpl; [reflexivity|].
  rewrite (H d (or_introl eq_refl)). apply IH.
  intros d' Hd'. apply H. right. exact Hd'.
Qed.

(** C6, as stated, fails whichever way "article element" is read.  Read
    as "tagged article": a document whose root is a sub-article holds no
    such element, and yet its map is not empty.  Read as "tag ending in
    article": below a root that is no article, the first such descendant
    can be a sub-article, and yet the element used is the later one that
    is tagged article. *)
Lemma C6_article_rule_counterexample :
  (Xml.fromstring doc_sub_article_root = Some tree_sub_article_root
   /\ extract doc_sub_article_root = Returns [("Body (untitled)", ["x"])]
   /\ ~ article_rule (tagged "article"))
  /\ (Xml.fromstring doc_sub_article_first = Some tree_sub_article_first
      /\ extract doc_sub_article_first = Returns [("Body (untitled)", ["a"])]
      /\ ~ article_rule (fun e => _is e "article")).
Proof.
  split; (split; [vm_compute; reflexivity|]); (split; [vm_compute; reflexivity|]).
  - intros [Hnone _].
    specialize (Hnone tree_sub_article_root eq_refl).
    vm_compute in Hnone. discriminate Hnone.
  - intros [_ Hfirst].
    specialize (Hfirst tree_sub_article_first eq_refl).
    vm_compute in Hfirst. discriminate Hfirst.
Qed.

(** C6, amended.  For every document that parses: when the tag of the
    root ends in "article", the root is the article used; otherwise the
    article used is the first proper descendant, in document order, whose
    tag is exactly "article"; and when the tag of the root does not end in
    "article" and no descendant is tagged exactly "article", the extractor
    returns the empty map and raises nothing. *)
Theorem C6_article_used
        (fromstring : string -> option Element) (raw_xml : string)
        (root : Element) :
  fromstring raw_xml = Some root ->
  (_is root "article" = true ->
   _jats_to_section_paragraph_map fromstring raw_xml
   = Returns (article_map root))
  /\ (_is root "article" = false ->
      forall pre a post,
        EPath.descendants root = pre ++ a :: post ->
        tag a = "article" ->
        (forall d, In d pre -> tag d <> "article") ->
        _jats_to_section_paragraph_map fromstring raw_xml
        = Returns (article_map a))
  /\ (_is root "article" = false ->
      (forall d, In d (EPath.descendants root) -> tag d <> "article") ->
      _jats_to_section_paragraph_map fromstring raw_xml = Returns []).
Proof.
  intros Hparse.
  unfold _jats_to_section_paragraph_map, section_map_of_root, _first_article.
  rewrite Hparse. repeat split.
  - intros ->. reflexivity.
  - intros -> pre a post Hd Ha Hpre.
    unfold EPath.find_descendant. rewrite Hd.
    rewrite (find_first _ pre a post); [reflexivity | |].
    + apply String.eqb_eq. exact Ha.
    + intros d Hin. apply String.eqb_neq. apply Hpre. exact Hin.
  - intros -> Hno.
    unfold EPath.find_descendant. rewrite find_no_match; [reflexivity|].
    intros d Hin. apply String.eqb_neq. apply Hno. exact Hin.
Qed.

Lemma C6_article_used_witness :
  Xml.fromstring doc_sub_article_first = Some tree_sub_article_first
  /\ _is tree_sub_article_first "article" = false
  /\ extract doc_sub_article_first = Returns (article_map elem_article).
Proof.
  assert (Hp : Xml.fromstring doc_sub_article_first
               = Some tree_sub_article_first) by (vm_compute; reflexivity).
  assert (Hr : _is tree_sub_article_first "article" = false) by reflexivity.
  split; [exact Hp|]. split; [exact Hr|].
  apply (proj1 (proj2 (C6_article_used Xml.fromstring doc_sub_article_first
                                        tree_sub_article_first Hp))
               Hr
               [elem_sub_article;
                Elem "body" None None [Elem "p" (Some "s") None []];
                Elem "p" (Some "s") None []]
               elem_article
               [Elem "body" None None [Elem "p" (Some "a") None []];
                Elem "p" (Some "a") None []]).
  - reflexivity.
  - reflexivity.
  - intros d [<-|[<-|[<-|[]]]]; discriminate.
Defined.

(** ** The abstract walker *)

Lemma in_enumerate {A} (l : list A) : forall s i a,
  In (i, a) (combine (seq s (List.length l)) l)
  <-> s <= i /\ nth_error l (i - s) = Some a.
Proof.
  induction l as [|x l IH]; intros s i a; simpl.
  - split; [intros [] | intros [_ H]].
    destruct (i - s); discriminate H.
  - rewrite IH. split.
    + intros [H | [Hle Hn]].
      * inversion H; subst. split; [lia|].
        rewrite Nat.sub_diag. reflexivity.
      * split; [lia|].
        replace (i - s) with (S (i - S s)) by lia. exact Hn.
    + intros [Hle Hn]. destruct (i - s) as [|m] eqn:E.
      * left. inversion Hn; subst. f_equal. lia.
      * right. split; [lia|].
        replace (i - S s) with m by lia. exact Hn.
Qed.

(** ** Sections that share a key *)

Lemma paragraphs_for_sections k vs :
  paragraphs_for k (map section_entry vs)
  = List.concat (map _collect_level_paragraphs
                     (filter (fun v => String.eqb (section_title v) k) vs)).
Proof.
  induction vs as [|v vs IH]; [reflexivity|].
  rewrite map_cons, paragraphs_for_cons, IH. simpl.
  destruct (String.eqb (section_title v) k); simpl.
  - rewrite collect_own_level. reflexivity.
  - reflexivity.
Qed.

Lemma extended_nonempty o ps :
  ps <> [] ->
  extended o ps = Some (match o with Some v => v | None => [] end ++ ps).
Proof. destruct ps; [contradiction | reflexivity]. Qed.

(** C7, as stated, fails on two documents.  In the first the body has a
    third sibling section with the same title, so the entry is [A, B, C].
    In the second the body has just the two sections, but an abstract with
    the same title has filled the entry before the body is walked, so the
    entry is [Z, A, B]. *)
Lemma C7_same_key_rule_counterexample :
  (Xml.fromstring doc_triplets = Some tree_triplets
   /\ extract doc_triplets = Returns [("Methods", ["A"; "B"; "C"])]
   /\ ~ same_key_rule tree_triplets)
  /\ (Xml.fromstring doc_abstract_twins = Some tree_abstract_twins
      /\ extract doc_abstract_twins = Returns [("Methods", ["Z"; "A"; "B"])]
      /\ ~ same_key_rule tree_abstract_twins).
Proof.
  split; (split; [vm_compute; reflexivity|]); (split; [vm_compute; reflexivity|]).
  - intros H.
    specialize (H body_triplets (sec_twin "A") (sec_twin "B")
                  [] [] [sec_twin "C"] "Methods"
                  eq_refl eq_refl eq_refl eq_refl eq_refl eq_refl).
    vm_compute in H. discriminate H.
  - intros H.
    specialize (H body_twins (sec_twin "A") (sec_twin "B")
                  [] [] [] "Methods"
                  eq_refl eq_refl eq_refl eq_refl eq_refl eq_refl).
    vm_compute in H. discriminate H.
Qed.

(** C7.  Let two sections with the own-level paragraphs [l1] and [l2]
    derive the same key [k], the first visited before the second (two
    sibling sections with the same title in particular).  The paragraphs
    of the second are appended behind those of the first and never replace
    them: the list under [k] holds [l1] and, further on, [l2].  When these
    two are the only sections that derive [k] and nothing else supplies
    [k] (the dictionary that reaches the body walker has no such key and
    the preface does not use it), the map holds one entry for [k] and its
    value is exactly [l1] followed by [l2]. *)
Theorem C7_same_key_sections_append
        (article body s1 s2 : Element) (k : string) (l1 l2 : Paragraphs)
        (store : Store) :
  EPath.find ["body"] article = Some body ->
  section_title s1 = k ->
  section_title s2 = k ->
  _collect_level_paragraphs s1 = l1 ->
  _collect_level_paragraphs s2 = l2 ->
  l1 ++ l2 <> [] ->
  (forall pre mid post,
      body_sections body = pre ++ s1 :: mid ++ s2 :: post ->
      exists x y z,
        Dict.get (_parse_body_into_map article store) k
        = Some (x ++ l1 ++ y ++ l2 ++ z))
  /\ (filter (fun v => String.eqb (section_title v) k) (body_sections body)
      = [s1; s2] ->
      Dict.get store k = None ->
      k <> "Body (untitled)" \/ preface (children body) = [] ->
      entries_of (_parse_body_into_map article store) k = [(k, l1 ++ l2)]
      /\ Dict.get (_parse_body_into_map article store) k = Some (l1 ++ l2)).
Proof.
  intros Hbody Hk1 Hk2 H1 H2 Hne. split.
  - intros pre mid post Hsecs.
    rewrite (parse_body_entries _ _ _ Hbody), get_add_all.
    unfold body_entries. rewrite Hsecs.
    rewrite paragraphs_for_cons, map_app, paragraphs_for_app.
    rewrite map_cons, paragraphs_for_cons, map_app, paragraphs_for_app.
    rewrite map_cons, paragraphs_for_cons.
    unfold section_entry at 2 3 5 6. cbn [fst snd].
    rewrite !collect_own_level, Hk1, Hk2, H1, H2, String.eqb_refl.
    set (p0 := if String.eqb "Body (untitled)" k
               then preface (children body) else []).
    set (ppre := paragraphs_for k (map section_entry pre)).
    set (pmid := paragraphs_for k (map section_entry mid)).
    set (ppost := paragraphs_for k (map section_entry post)).
    rewrite extended_nonempty.
    + exists (match Dict.get store k with Some v => v | None => [] end
              ++ p0 ++ ppre), pmid, ppost.
      rewrite <- !app_assoc. reflexivity.
    + intros E. apply Hne.
      apply app_eq_nil in E as [_ E]. apply app_eq_nil in E as [_ E].
      apply app_eq_nil in E as [E1 E]. apply app_eq_nil in E as [_ E].
      apply app_eq_nil in E as [E2 _]. rewrite E1, E2. reflexivity.
  - intros Hsecs Hnew Hpre.
    assert (Hpf : paragraphs_for k (body_entries body) = l1 ++ l2).
    { unfold body_entries.
      rewrite paragraphs_for_cons, paragraphs_for_sections.
      rewrite Hsecs. cbn [fst snd map List.concat].
      rewrite H1, H2, app_nil_r.
      destruct (String.eqb "Body (untitled)" k) eqn:E; [|reflexivity].
      apply String.eqb_eq in E. destruct Hpre as [Hk | ->].
      - exfalso. apply Hk. symmetry. exact E.
      - reflexivity. }
    assert (He : entries_of (_parse_body_into_map article store) k
                 = [(k, l1 ++ l2)]).
    { rewrite (parse_body_entries _ _ _ Hbody).
      rewrite (entries_of_add_all_absent _ _ _ (entries_of_get_none _ _ Hnew)).
      rewrite Hpf. destruct (l1 ++ l2); [contradiction | reflexivity]. }
    split; [exact He|].
    rewrite get_of_entries, He. reflexivity.
Qed.

Lemma C7_same_key_sections_append_witness :
  Xml.fromstring doc_twins = Some tree_twins
  /\ extract doc_twins = Returns [("Methods", ["A"; "B"])]
  /\ entries_of (_parse_body_into_map tree_twins []) "Methods"
     = [("Methods", ["A"; "B"])]
  /\ Dict.get (_parse_body_into_map tree_twins []) "Methods"
     = Some ["A"; "B"].
Proof.
  split; [vm_compute; reflexivity|].
  split; [vm_compute; reflexivity|].
  assert (Hne : ["A"] ++ ["B"] <> ([] : Paragraphs)) by discriminate.
  apply (proj2 (C7_same_key_sections_append
                  tree_twins body_twins (sec_twin "A") (sec_twin "B")
                  "Methods" ["A"] ["B"] []
                  eq_refl eq_refl eq_refl eq_refl eq_refl Hne)).
  - reflexivity.
  - reflexivity.
  - left. discriminate.
Defined.

(** ** Blocks of the body behind the first section *)

Lemma filter_no_match {A} (f : A -> bool) l :
  (forall c, In c l -> f c = false) -> filter f l = [].
Proof.
  intros H. induction l as [|c l IH]; simpl; [reflexivity|].
  rewrite (H c (or_introl eq_refl)). apply IH.
  intros c' Hc'. apply H. right. exact Hc'.
Qed.

(** A path whose first step does not match a child is blind to that
    child. *)
Lemma findall_replace_child t rest a x l cs1 B B' cs2 :
  tag B <> t -> tag B' <> t ->
  EPath.findall (t :: rest) (Elem a x l (cs1 ++ B :: cs2))
  = EPath.findall (t :: rest) (Elem a x l (cs1 ++ B' :: cs2)).
Proof.
  intros HB HB'. simpl. rewrite !filter_app. simpl.
  apply String.eqb_neq in HB, HB'. rewrite HB, HB'. reflexivity.
Qed.

Lemma find_body_here a x l cs1 body cs2 :
  tag body = "body" ->
  (forall c, In c cs1 -> tag c <> "body") ->
  EPath.find ["body"] (Elem a x l (cs1 ++ body :: cs2)) = Some body.
Proof.
  intros Hb Hcs1. unfold EPath.find. simpl. rewrite filter_app.
  rewrite (filter_no_match _ cs1).
  - simpl. rewrite Hb. reflexivity.
  - intros c Hc. apply String.eqb_neq. apply Hcs1. exact Hc.
Qed.

(** The preface scan sees nothing behind the first child whose tag ends
    in [sec]. *)
Lemma preface_stops pre rest :
  existsb (fun c => _is c "sec") pre = true ->
  preface (pre ++ rest) = preface pre.
Proof.
  induction pre as [|c pre IH]; simpl; [discriminate|].
  destruct (_is c "sec"); simpl; [reflexivity|].
  intros H. rewrite (IH H). reflexivity.
Qed.

Lemma front_steps_replace_body rest a x l cs1 B B' cs2 :
  tag B = "body" -> tag B' = "body" ->
  EPath.find ("front" :: rest) (Elem a x l (cs1 ++ B :: cs2))
  = EPath.find ("front" :: rest) (Elem a x l (cs1 ++ B' :: cs2)).
Proof.
  intros HB HB'. unfold EPath.find.
  rewrite (findall_replace_child "front" rest a x l cs1 B B' cs2);
    [reflexivity | rewrite HB; discriminate | rewrite HB'; discriminate].
Qed.

(** C9.  Take an article whose body element holds, behind a child whose
    tag ends in [sec], a child [b] that is not tagged [sec].  Deleting [b]
    leaves the map of the article unchanged, whatever [b] contains: the
    preface scan has stopped before [b], and the section walk starts from
    the children tagged [sec] only.  Nothing of [b] reaches the map. *)
Theorem C9_block_behind_first_section_dropped
        (atag : string) (atext atail : option string)
        (cs1 cs2 : list Element)
        (btext btail : option string) (pre post : list Element)
        (b : Element) :
  (forall c, In c cs1 -> tag c <> "body") ->
  existsb (fun c => _is c "sec") pre = true ->
  tag b <> "sec" ->
  article_map
    (Elem atag atext atail
          (cs1 ++ Elem "body" btext btail (pre ++ b :: post) :: cs2))
  = article_map
      (Elem atag atext atail
            (cs1 ++ Elem "body" btext btail (pre ++ post) :: cs2)).
Proof.
  intros Hcs1 Hsec Hb.
  set (B := Elem "body" btext btail (pre ++ b :: post)).
  set (B' := Elem "body" btext btail (pre ++ post)).
  unfold article_map, title_el, _parse_abstract_into_map,
    _parse_body_into_map.
  rewrite !(front_steps_replace_body _ atag atext atail cs1 B B' cs2
              eq_refl eq_refl).
  rewrite (find_body_here atag atext atail cs1 B cs2 eq_refl Hcs1).
  rewrite (find_body_here atag atext atail cs1 B' cs2 eq_refl Hcs1).
  assert (Hpre : preface (children B) = preface (children B')).
  { unfold B, B'. simpl children. rewrite !(preface_stops _ _ Hsec).
    reflexivity. }
  assert (Htops : EPath.findall ["sec"] B = EPath.findall ["sec"] B').
  { unfold B, B'. simpl. rewrite !filter_app. simpl.
    apply String.eqb_neq in Hb. rewrite Hb. reflexivity. }
  rewrite Hpre, Htops. reflexivity.
Qed.

Lemma C9_block_behind_first_section_dropped_witness :
  Xml.fromstring doc_late_block = Some tree_late_block
  /\ Xml.fromstring doc_late_block_removed = Some tree_late_block_removed
  /\ article_map tree_late_block = article_map tree_late_block_removed.
Proof.
  split; [vm_compute; reflexivity|].
  split; [vm_compute; reflexivity|].
  apply (@C9_block_behind_first_section_dropped
           "article" None None [] [] None None
           [Elem "p" (Some "pre") None []; sec_plain] []
           (Elem "p" (Some "late") None [])).
  - intros c [].
  - reflexivity.
  - discriminate.
Defined.

(** ** Tag-preserving rewriting of children *)

Lemma flat_map_map {A B C} (f : A -> B) (g : B -> list C) l :
  flat_map g (map f l) = flat_map (fun x => g (f x)) l.
Proof. induction l as [|x l IH]; simpl; [|rewrite IH]; reflexivity. Qed.

Lemma flat_map_ext_in {A B} (f g : A -> list B) l :
  (forall x, In x l -> f x = g x) -> flat_map f l = flat_map g l.
Proof.
  intros H. induction l as [|x l IH]; simpl; [reflexivity|].
  rewrite (H x (or_introl eq_refl)), IH; [reflexivity|].
  intros y Hy. apply H. right. exact Hy.
Qed.

Lemma flat_map_singleton {A B} (f : A -> B) l :
  flat_map (fun x => [f x]) l = map f l.
Proof. induction l as [|x l IH]; simpl; [|rewrite IH]; reflexivity. Qed.

Lemma flat_map_of_map {A B C} (f : B -> C) (g : A -> list B) l :
  flat_map (fun x => map f (g x)) l = map f (flat_map g l).
Proof.
  induction l as [|x l IH]; simpl; [|rewrite IH, map_app]; reflexivity.
Qed.

Lemma filter_map_commute {A} (p : A -> bool) (f : A -> A) l :
  (forall x, p (f x) = p x) -> filter p (map f l) = map f (filter p l).
Proof.
  intros H. induction l as [|x l IH]; simpl; [reflexivity|].
  rewrite H. destruct (p x); simpl; rewrite IH; reflexivity.
Qed.

Lemma tag_where_ sel f e :
  (forall c, tag (f c) = tag c) -> tag (where_ sel f e) = tag e.
Proof. intros H. unfold where_. destruct (sel e); [apply H | reflexivity]. Qed.

Lemma findall_single t e :
  EPath.findall [t] e = filter (tagged t) (children e).
Proof.
  simpl. change (fun c => String.eqb (tag c) t) with (tagged t).
  induction (filter (tagged t) (children e)) as [|c l IH]; simpl;
    [|rewrite IH]; reflexivity.
Qed.

(** A path through an element whose children were rewritten by a
    tag-preserving [f] selects the same children, rewritten. *)
Lemma findall_map_children f t rest e :
  (forall c, tag (f c) = tag c) ->
  EPath.findall (t :: rest) (map_children f e)
  = flat_map (fun c => EPath.findall rest (f c))
             (filter (tagged t) (children e)).
Proof.
  intros Hf. simpl.
  change (fun c => String.eqb (tag c) t) with (tagged t).
  rewrite filter_map_commute, flat_map_map; [reflexivity|].
  intros c. unfold tagged. rewrite Hf. reflexivity.
Qed.

Lemma is_preserved f c name :
  tag (f c) = tag c -> _is (f c) name = _is c name.
Proof. unfold _is. intros ->. reflexivity. Qed.

(** ** The abstract walker goes one level down *)

Lemma title_not_sec c : tagged "title" c = true -> _is c "sec" = false.
Proof.
  unfold tagged, _is. intros H. apply String.eqb_eq in H. rewrite H.
  reflexivity.
Qed.

Lemma find_title_without_subsections s :
  EPath.find ["title"] (without_subsections s) = EPath.find ["title"] s.
Proof.
  unfold EPath.find. rewrite !findall_single. f_equal.
  unfold without_subsections, with_children. simpl children.
  induction (children s) as [|c cs IH]; simpl; [reflexivity|].
  destruct (_is c "sec") eqn:E; simpl.
  - destruct (tagged "title" c) eqn:T; [|exact IH].
    rewrite (title_not_sec _ T) in E. discriminate E.
  - rewrite IH. reflexivity.
Qed.

Lemma collect_without_subsections s :
  _collect_level_paragraphs (without_subsections s)
  = _collect_level_paragraphs s.
Proof.
  unfold _collect_level_paragraphs, without_subsections, with_children.
  simpl children.
  induction (children s) as [|c cs IH]; simpl; [reflexivity|].
  destruct (_is c "sec") eqn:E; simpl.
  - rewrite level_paragraph_skipped; [exact IH|].
    unfold skipped. rewrite E. apply orb_true_r.
  - rewrite IH. reflexivity.
Qed.

Lemma abstract_sec_step_without_subsections key store s :
  abstract_sec_step key store (without_subsections s)
  = abstract_sec_step key store s.
Proof.
  unfold abstract_sec_step.
  rewrite find_title_without_subsections, collect_without_subsections.
  reflexivity.
Qed.

Lemma tag_prune_child c : tag (prune_child c) = tag c.
Proof. apply tag_where_. reflexivity. Qed.

Lemma find_title_prune_abstract a :
  EPath.find ["title"] (prune_abstract a) = EPath.find ["title"] a.
Proof.
  unfold EPath.find, prune_abstract.
  rewrite (findall_map_children _ _ _ _ tag_prune_child). f_equal.
  rewrite (flat_map_ext_in _ (fun c => EPath.findall [] c)); [reflexivity|].
  intros c Hc. apply filter_In in Hc as [_ T].
  unfold prune_child, where_. rewrite (title_not_sec _ T). reflexivity.
Qed.

Lemma collect_prune_abstract a :
  _collect_level_paragraphs (prune_abstract a) = _collect_level_paragraphs a.
Proof.
  unfold _collect_level_paragraphs, prune_abstract, map_children,
    with_children.
  simpl children. rewrite flat_map_map. apply flat_map_ext_in.
  intros c _. unfold prune_child, where_.
  destruct (_is c "sec") eqn:E; [|reflexivity].
  rewrite !level_paragraph_skipped; [reflexivity | |].
  - unfold skipped. rewrite E. apply orb_true_r.
  - unfold skipped. rewrite (is_preserved without_subsections c "sec" eq_refl).
    rewrite E. apply orb_true_r.
Qed.

Lemma sections_prune_abstract a :
  filter (fun c => _is c "sec") (children (prune_abstract a))
  = map without_subsections (filter (fun c => _is c "sec") (children a)).
Proof.
  unfold prune_abstract, map_children, with_children. simpl children.
  induction (children a) as [|c cs IH]; simpl; [reflexivity|].
  rewrite (is_preserved prune_child c "sec" (tag_prune_child c)).
  unfold prune_child at 1, where_.
  destruct (_is c "sec"); simpl; rewrite IH; reflexivity.
Qed.

Lemma fold_sec_steps_without_subsections key secs : forall store,
  fold_left (abstract_sec_step key) (map without_subsections secs) store
  = fold_left (abstract_sec_step key) secs store.
Proof.
  induction secs as [|s secs IH]; intros store; simpl; [reflexivity|].
  rewrite abstract_sec_step_without_subsections. apply IH.
Qed.

Lemma abstract_key_prune n i a :
  abstract_key n i (prune_abstract a) = abstract_key n i a.
Proof. unfold abstract_key. rewrite find_title_prune_abstract. reflexivity. Qed.

(** One round of the abstract loop does not see what lies two levels of
    sections below the abstract. *)
Lemma abstract_step_prune n store i a :
  abstract_step n store (i, prune_abstract a) = abstract_step n store (i, a).
Proof.
  unfold abstract_step.
  rewrite abstract_key_prune, collect_prune_abstract, sections_prune_abstract.
  apply fold_sec_steps_without_subsections.
Qed.

Lemma fold_abstract_steps_prune n nodes : forall s store,
  fold_left (abstract_step n)
            (combine (seq s (List.length (map prune_abstract nodes)))
                     (map prune_abstract nodes)) store
  = fold_left (abstract_step n)
              (combine (seq s (List.length nodes)) nodes) store.
Proof.
  induction nodes as [|a nodes IH]; intros s store; [reflexivity|].
  cbn [map List.length seq combine fold_left].
  rewrite abstract_step_prune. apply IH.
Qed.

(** *** Pruning the abstracts of an article *)

Lemma tag_in_meta c : tag (where_ abstract_like prune_abstract c) = tag c.
Proof. apply tag_where_. reflexivity. Qed.

Lemma tag_in_front c : tag (where_ (tagged "article-meta") prune_meta c) = tag c.
Proof. apply tag_where_. reflexivity. Qed.

Lemma tag_in_article c : tag (where_ (tagged "front") prune_front c) = tag c.
Proof. apply tag_where_. reflexivity. Qed.

Lemma where_selected sel f c : sel c = true -> where_ sel f c = f c.
Proof. unfold where_. intros ->. reflexivity. Qed.

Lemma where_not_selected sel f c : sel c = false -> where_ sel f c = c.
Proof. unfold where_. intros ->. reflexivity. Qed.

Lemma findall_cons t rest e :
  EPath.findall (t :: rest) e
  = flat_map (EPath.findall rest) (filter (tagged t) (children e)).
Proof. reflexivity. Qed.

(** Below the metadata container, only the abstract-like children are
    rewritten. *)
Lemma findall_prune_meta_other t rest meta :
  abstract_like (Elem t None None []) = false ->
  EPath.findall (t :: rest) (prune_meta meta) = EPath.findall (t :: rest) meta.
Proof.
  intros Ht. unfold prune_meta.
  rewrite (findall_map_children _ _ _ _ tag_in_meta), findall_cons.
  apply flat_map_ext_in. intros c Hc. apply filter_In in Hc as [_ T].
  rewrite where_not_selected; [reflexivity|].
  unfold tagged in T. apply String.eqb_eq in T.
  unfold abstract_like, tagged in *. simpl tag in Ht. rewrite T. exact Ht.
Qed.

Lemma findall_prune_article_other t rest article :
  abstract_like (Elem t None None []) = false ->
  EPath.findall ("front" :: "article-meta" :: t :: rest) (prune_article article)
  = EPath.findall ("front" :: "article-meta" :: t :: rest) article.
Proof.
  intros Ht. unfold prune_article.
  rewrite (findall_map_children _ _ _ _ tag_in_article), findall_cons.
  apply flat_map_ext_in. intros f Hf. apply filter_In in Hf as [_ Tf].
  rewrite (where_selected _ _ _ Tf). unfold prune_front.
  rewrite (findall_map_children _ _ _ _ tag_in_front), findall_cons.
  apply flat_map_ext_in. intros m Hm. apply filter_In in Hm as [_ Tm].
  rewrite (where_selected _ _ _ Tm).
  apply findall_prune_meta_other. exact Ht.
Qed.

Lemma findall_prune_article_meta article :
  EPath.findall ["front"; "article-meta"] (prune_article article)
  = map prune_meta (EPath.findall ["front"; "article-meta"] article).
Proof.
  unfold prune_article.
  rewrite (findall_map_children _ _ _ _ tag_in_article), findall_cons.
  rewrite <- flat_map_of_map.
  apply flat_map_ext_in. intros f Hf. apply filter_In in Hf as [_ Tf].
  rewrite (where_selected _ _ _ Tf). unfold prune_front.
  rewrite (findall_map_children _ _ _ _ tag_in_front), findall_single.
  rewrite <- flat_map_singleton.
  apply flat_map_ext_in. intros m Hm. apply filter_In in Hm as [_ Tm].
  rewrite (where_selected _ _ _ Tm). reflexivity.
Qed.

Lemma findall_abstract_like_prune_meta t meta :
  abstract_like (Elem t None None []) = true ->
  EPath.findall [t] (prune_meta meta)
  = map prune_abstract (EPath.findall [t] meta).
Proof.
  intros Ht. unfold prune_meta.
  rewrite (findall_map_children _ _ _ _ tag_in_meta), findall_single.
  rewrite <- flat_map_singleton.
  apply flat_map_ext_in. intros c Hc. apply filter_In in Hc as [_ T].
  rewrite where_selected; [reflexivity|].
  unfold tagged in T. apply String.eqb_eq in T.
  unfold abstract_like, tagged in *. simpl tag in Ht. rewrite T. exact Ht.
Qed.

Lemma abs_nodes_prune_meta meta :
  abs_nodes (prune_meta meta) = map prune_abstract (abs_nodes meta).
Proof.
  unfold abs_nodes.
  rewrite !findall_abstract_like_prune_meta by reflexivity.
  rewrite map_app. reflexivity.
Qed.

Lemma find_body_prune_article article :
  EPath.find ["body"] (prune_article article) = EPath.find ["body"] article.
Proof.
  unfold EPath.find, prune_article.
  rewrite (findall_map_children _ _ _ _ tag_in_article), findall_cons.
  f_equal. apply flat_map_ext_in.
  intros c Hc. apply filter_In in Hc as [_ T].
  rewrite where_not_selected; [reflexivity|].
  unfold tagged in *. apply String.eqb_eq in T. rewrite T. reflexivity.
Qed.

Lemma title_el_prune_article article :
  title_el (prune_article article) = title_el article.
Proof.
  unfold title_el, EPath.find.
  rewrite !findall_prune_article_other by reflexivity. reflexivity.
Qed.

Lemma nonempty_map {A B} (f : A -> B) l : nonempty (map f l) = nonempty l.
Proof. destruct l; reflexivity. Qed.

Lemma parse_abstract_prune_article article store :
  _parse_abstract_into_map (prune_article article) store
  = _parse_abstract_into_map article store.
Proof.
  unfold _parse_abstract_into_map, EPath.find.
  rewrite findall_prune_article_meta.
  destruct (EPath.findall ["front"; "article-meta"] article) as [|meta rest];
    [reflexivity|].
  cbn [map hd_error]. rewrite abs_nodes_prune_meta, nonempty_map.
  destruct (nonempty (abs_nodes meta)); [|reflexivity].
  unfold enumerate. rewrite fold_abstract_steps_prune, length_map.
  reflexivity.
Qed.

Lemma parse_body_prune_article article store :
  _parse_body_into_map (prune_article article) store
  = _parse_body_into_map article store.
Proof.
  unfold _parse_body_into_map. rewrite find_body_prune_article. reflexivity.
Qed.

Lemma article_map_prune article :
  article_map (prune_article article) = article_map article.
Proof.
  unfold article_map.
  rewrite title_el_prune_article, parse_body_prune_article,
    parse_abstract_prune_article.
  reflexivity.
Qed.

(** ** The body walker goes all the way down *)

Lemma visited_self v : In v (visited v).
Proof. destruct v. left. reflexivity. Qed.

Lemma visited_child : forall top p v,
  In p (visited top) -> In v (children p) -> _is v "sec" = true ->
  In v (visited top).
Proof.
  induction top as [t x l cs IH] using Element_tree_ind.
  intros p v Hp Hv Hsec.
  change (visited (Elem t x l cs))
    with (Elem t x l cs
          :: flat_map (fun c => if _is c "sec" then visited c else []) cs)
    in *.
  destruct Hp as [<- | Hp]; right; apply in_flat_map.
  - exists v. split; [exact Hv|]. rewrite Hsec. apply visited_self.
  - apply in_flat_map in Hp as [c [Hc Hpc]].
    exists c. split; [exact Hc|].
    destruct (_is c "sec"); [|destruct Hpc].
    rewrite Forall_forall in IH. exact (IH c Hc p v Hpc Hv Hsec).
Qed.

Lemma nested_at_visited d top v : nested_at d top v -> In v (visited top).
Proof.
  induction 1 as [top | d top parent v _ IH Hv Hsec].
  - apply visited_self.
  - exact (visited_child top parent v IH Hv Hsec).
Qed.

Lemma paragraphs_for_in e es :
  In e es ->
  exists before after,
    paragraphs_for (fst e) es = before ++ snd e ++ after.
Proof.
  intros Hin. apply in_split in Hin as [es1 [es2 ->]].
  exists (paragraphs_for (fst e) es1), (paragraphs_for (fst e) es2).
  rewrite paragraphs_for_app, paragraphs_for_cons, String.eqb_refl.
  reflexivity.
Qed.

(** C10.  The abstract walker stops one level of sections below an
    abstract: removing, in every abstract and translated abstract of the
    metadata container, the sections that are children of a section child
    leaves the map of the article unchanged, so such a section gets no
    entry and none of its text reaches any entry.  The body walker does
    not stop: a section nested at any depth [d] below a top-level section
    of the body, along section children, has its own-level paragraphs,
    when there are any, under its own key. *)
Theorem C10_abstract_one_level_body_any_depth :
  (forall article,
      article_map (prune_article article) = article_map article)
  /\ (forall d article body top v store,
         EPath.find ["body"] article = Some body ->
         In top (EPath.findall ["sec"] body) ->
         nested_at d top v ->
         _collect_level_paragraphs v <> [] ->
         exists before after,
           Dict.get (_parse_body_into_map article store) (section_title v)
           = Some (before ++ _collect_level_paragraphs v ++ after)).
Proof.
  split; [exact article_map_prune|].
  intros d article body top v store Hbody Htop Hnest Hne.
  assert (Hv : In (section_entry v) (body_entries body)).
  { right. apply in_map, in_flat_map. exists top. split; [exact Htop|].
    exact (nested_at_visited d top v Hnest). }
  destruct (paragraphs_for_in _ _ Hv) as [before [after Hpf]].
  simpl fst in Hpf. simpl snd in Hpf. rewrite collect_own_level in Hpf.
  rewrite (parse_body_entries _ _ _ Hbody), get_add_all, Hpf.
  destruct (Dict.get store (section_title v)) as [old|].
  - exists (old ++ before), after.
    destruct (_collect_level_paragraphs v) as [|p ps]; [contradiction|].
    unfold extended.
    destruct (before ++ (p :: ps) ++ after) eqn:E.
    + destruct before; discriminate E.
    + rewrite <- E, app_assoc. rewrite <- app_assoc. reflexivity.
  - exists before, after.
    destruct (_collect_level_paragraphs v) as [|p ps]; [contradiction|].
    unfold extended.
    destruct (before ++ (p :: ps) ++ after) eqn:E.
    + destruct before; discriminate E.
    + reflexivity.
Qed.

Lemma C10_abstract_one_level_body_any_depth_witness :
  Xml.fromstring doc_deep = Some tree_deep
  /\ extract doc_deep
     = Returns [ ("Abstract", ["top"]); ("Background", ["one"]);
                 ("L1", ["a"]); ("L2", ["b"]); ("L3", ["c"]) ]
  /\ article_map (prune_article tree_deep) = article_map tree_deep
  /\ nested_at 2 sec_l1 sec_l3
  /\ exists before after,
       Dict.get (_parse_body_into_map tree_deep []) "L3"
       = Some (before ++ ["c"] ++ after).
Proof.
  split; [vm_compute; reflexivity|].
  split; [vm_compute; reflexivity|].
  split; [exact (proj1 C10_abstract_one_level_body_any_depth tree_deep)|].
  assert (Hn : nested_at 2 sec_l1 sec_l3).
  { apply (nested_below 1 sec_l1 sec_l2 sec_l3).
    - apply (nested_below 0 sec_l1 sec_l1 sec_l2).
      + apply nested_here.
      + simpl. auto.
      + reflexivity.
    - simpl. auto.
    - reflexivity. }
  split; [exact Hn|].
  apply (proj2 C10_abstract_one_level_body_any_depth
               2 tree_deep body_deep sec_l1 sec_l3 []).
  - reflexivity.
  - simpl. auto.
  - exact Hn.
  - discriminate.
Defined.

(* ================================================================== *)
(** * The extractor under the recursion limit *)

(** ** Outcomes that agree with a value *)

Lemma agree_returns {A} (P : Prop) (v : A) : Stack.agree P (Returns v) v.
Proof. left. reflexivity. Qed.

Lemma agree_weaken {A} (P Q : Prop) (x : Outcome A) v :
  (Q -> P) -> Stack.agree P x v -> Stack.agree Q x v.
Proof.
  intros H [E | [HP E]]; [left; exact E|].
  right. split; [intros HQ; apply HP, H, HQ | exact E].
Qed.

Lemma agree_bind {A B} (P : Prop) (m : Outcome A) (k : A -> Outcome B) v w :
  Stack.agree P m v -> Stack.agree P (k v) w ->
  Stack.agree P (Stack.bind m k) w.
Proof.
  intros [-> | [HP ->]] Hk; [exact Hk|].
  right. split; [exact HP | reflexivity].
Qed.

Lemma agree_call {A} (P : Prop) frames (body : nat -> Outcome A) v :
  (P -> 1 <= frames) ->
  (forall inner, frames = S inner -> Stack.agree P (body inner) v) ->
  Stack.agree P (Stack.call frames body) v.
Proof.
  intros Hpos Hbody. destruct frames as [|inner]; cbn [Stack.call].
  - right. split; [intros HP; specialize (Hpos HP); lia | reflexivity].
  - apply Hbody. reflexivity.
Qed.

Lemma agree_for_each {A S} (P : Prop) (step : S -> A -> Outcome S)
      (f : S -> A -> S) l :
  (forall s a, In a l -> Stack.agree P (step s a) (f s a)) ->
  forall s, Stack.agree P (Stack.for_each step l s) (fold_left f l s).
Proof.
  induction l as [|a l IH]; intros H s; cbn [Stack.for_each fold_left].
  - apply agree_returns.
  - eapply agree_bind; [apply H; left; reflexivity|].
    apply IH. intros s' a' Ha'. apply H. right. exact Ha'.
Qed.

Lemma agree_for_each_append {A B} (P : Prop) (f : A -> Outcome (list B))
      (g : A -> list B) l :
  (forall a, In a l -> Stack.agree P (f a) (g a)) ->
  Stack.agree P (Stack.for_each_append f l) (flat_map g l).
Proof.
  induction l as [|a l IH]; intros H; cbn [Stack.for_each_append flat_map].
  - apply agree_returns.
  - eapply agree_bind; [apply H; left; reflexivity|].
    eapply agree_bind; [apply IH; intros a' Ha'; apply H; right; exact Ha'|].
    apply agree_returns.
Qed.

Lemma agree_any {A} (P : Prop) (f : A -> Outcome bool) (g : A -> bool) l :
  (forall a, In a l -> Stack.agree P (f a) (g a)) ->
  Stack.agree P (Stack.any f l) (existsb g l).
Proof.
  induction l as [|a l IH]; intros H; cbn [Stack.any existsb].
  - apply agree_returns.
  - eapply agree_bind; [apply H; left; reflexivity|].
    destruct (g a); cbn [orb]; [apply agree_returns|].
    apply IH. intros a' Ha'. apply H. right. exact Ha'.
Qed.

Lemma agree_comprehension {A} (P : Prop) (f : A -> Outcome bool)
      (g : A -> bool) l :
  (forall a, In a l -> Stack.agree P (f a) (g a)) ->
  Stack.agree P (Stack.comprehension f l) (filter g l).
Proof.
  induction l as [|a l IH]; intros H; cbn [Stack.comprehension filter].
  - apply agree_returns.
  - eapply agree_bind; [apply H; left; reflexivity|].
    eapply agree_bind; [apply IH; intros a' Ha'; apply H; right; exact Ha'|].
    apply agree_returns.
Qed.

(** ** The height of the elements the extractor reaches *)

Lemma height_positive e : 1 <= height e.
Proof. destruct e; cbn [height]; lia. Qed.

Lemma height_child e c : In c (children e) -> S (height c) <= height e.
Proof.
  destruct e as [t x l cs]. cbn [children height]. intros H.
  apply le_n_S.
  assert (Hall : Forall (fun k => k <= list_max (map height cs))
                        (map height cs))
    by (apply list_max_le; lia).
  rewrite Forall_forall in Hall. apply Hall, in_map, H.
Qed.

Lemma height_findall path : forall e x,
  In x (EPath.findall path e) -> height x + List.length path <= height e.
Proof.
  induction path as [|t rest IH]; intros e x H;
    cbn [EPath.findall List.length] in *.
  - destruct H as [<- | []]. lia.
  - apply in_flat_map in H as [c [Hc Hx]].
    apply filter_In in Hc as [Hc _].
    specialize (IH c x Hx). pose proof (height_child e c Hc). lia.
Qed.

Lemma height_find path e x :
  EPath.find path e = Some x -> height x + List.length path <= height e.
Proof.
  unfold EPath.find.
  destruct (EPath.findall path e) as [|y ys] eqn:E; cbn [hd_error];
    [discriminate|].
  intros H. inversion H; subst. apply height_findall. rewrite E.
  left. reflexivity.
Qed.

Lemma height_iter : forall e d, In d (EPath.iter e) -> height d <= height e.
Proof.
  induction e as [t x l cs IH] using Element_tree_ind. intros d H.
  cbn [EPath.iter] in H. destruct H as [<- | H]; [lia|].
  apply in_flat_map in H as [c [Hc Hd]].
  rewrite Forall_forall in IH. specialize (IH c Hc d Hd).
  pose proof (height_child (Elem t x l cs) c Hc). lia.
Qed.

Lemma height_first_article root article :
  _first_article root = Some article -> height article <= height root.
Proof.
  unfold _first_article. destruct (_is root "article").
  - intros H. inversion H; subst. lia.
  - unfold EPath.find_descendant, EPath.descendants. intros H.
    apply find_some in H as [H _].
    apply in_flat_map in H as [c [Hc Hd]].
    pose proof (height_iter c article Hd).
    pose proof (height_child root c Hc). lia.
Qed.

Lemma height_title_el article :
  height_opt (title_el article) <= height article.
Proof.
  unfold title_el.
  destruct (EPath.find ["front"; "article-meta"; "title-group";
                        "article-title"] article) as [el|] eqn:E.
  - apply height_find in E. cbn [height_opt]. lia.
  - destruct (EPath.find ["front"; "article-meta"; "title-group";
                          "trans-title-group"; "trans-title"] article)
      as [el|] eqn:E'; cbn [height_opt]; [|lia].
    apply height_find in E'. lia.
Qed.

Lemma height_find_title e :
  S (height_opt (EPath.find ["title"] e)) <= height e.
Proof.
  destruct (EPath.find ["title"] e) as [el|] eqn:E; cbn [height_opt].
  - apply height_find in E. cbn [List.length] in E. lia.
  - apply height_positive.
Qed.

(** ** The functions of the module, one by one *)

Lemma walk_agrees : forall frames n,
  Stack.agree (height n <= frames) (Stack.walk frames n) (walk n).
Proof.
  induction frames as [|inner IH]; intros n.
  - right. split; [pose proof (height_positive n); lia | reflexivity].
  - destruct n as [t x l cs].
    change (walk (Elem t x l cs))
      with (opt_part x ++ flat_map (fun c => walk c ++ opt_part (tail c)) cs).
    cbn [Stack.walk]. eapply agree_bind.
    + apply agree_for_each_append
        with (g := fun c => walk c ++ opt_part (tail c)).
      intros c Hc. eapply agree_bind.
      * apply agree_weaken with (P := height c <= inner); [|apply IH].
        intros H. pose proof (height_child (Elem t x l cs) c Hc). lia.
      * apply agree_returns.
    + apply agree_returns.
Qed.

Lemma txt_agrees frames el :
  Stack.agree (S (height_opt el) <= frames) (Stack._txt frames el) (_txt el).
Proof.
  unfold Stack._txt. apply agree_call; [lia|]. intros inner ->.
  destruct el as [n|]; cbn [height_opt _txt].
  - eapply agree_bind.
    + apply agree_weaken with (P := height n <= inner);
        [lia | apply walk_agrees].
    + apply agree_returns.
  - apply agree_returns.
Qed.

Lemma is_agrees frames el name :
  Stack.agree (1 <= frames) (Stack._is frames el name) (_is el name).
Proof.
  unfold Stack._is. apply agree_call; [lia|]. intros inner _.
  apply agree_returns.
Qed.

Lemma stripped_text_agrees inner node :
  Stack.agree (S (height node) <= inner)
              (Stack.stripped_text inner node)
              (let txt := PyStr.strip (_txt (Some node)) in
               if PyStr.truthy txt then [txt] else []).
Proof.
  unfold Stack.stripped_text. eapply agree_bind.
  - apply (txt_agrees inner (Some node)).
  - apply agree_returns.
Qed.

Lemma level_paragraph_agrees inner node :
  Stack.agree (S (height node) <= inner)
              (Stack.level_paragraph inner node) (level_paragraph node).
Proof.
  assert (His : forall name,
             Stack.agree (S (height node) <= inner)
                         (Stack._is inner node name) (_is node name)).
  { intros name. apply agree_weaken with (P := 1 <= inner);
      [lia | apply is_agrees]. }
  unfold Stack.level_paragraph, level_paragraph.
  eapply agree_bind; [apply His|].
  destruct (_is node "title"); cbn [orb]; [apply agree_returns|].
  eapply agree_bind; [apply His|].
  destruct (_is node "label"); cbn [orb]; [apply agree_returns|].
  eapply agree_bind; [apply His|].
  destruct (_is node "sec"); [apply agree_returns|].
  eapply agree_bind.
  - apply agree_any with (g := _is node). intros name _. apply His.
  - destruct (existsb (_is node) block_tags); apply stripped_text_agrees.
Qed.

Lemma collect_agrees frames container :
  Stack.agree (S (height container) <= frames)
              (Stack._collect_level_paragraphs frames container)
              (_collect_level_paragraphs container).
Proof.
  unfold Stack._collect_level_paragraphs, _collect_level_paragraphs.
  apply agree_call; [lia|]. intros inner ->.
  apply agree_for_each_append with (g := level_paragraph).
  intros node Hn.
  apply agree_weaken with (P := S (height node) <= inner);
    [|apply level_paragraph_agrees].
  intros H. pose proof (height_child container node Hn). lia.
Qed.

Lemma preface_agrees (P : Prop) inner nodes :
  (P -> forall node, In node nodes -> S (height node) <= inner) ->
  Stack.agree P (Stack.preface inner nodes) (preface nodes).
Proof.
  induction nodes as [|node rest IH]; intros Hp;
    cbn [Stack.preface preface].
  - apply agree_returns.
  - assert (Hnode : P -> S (height node) <= inner)
      by (intros HP; apply (Hp HP); left; reflexivity).
    assert (His : forall name,
               Stack.agree P (Stack._is inner node name) (_is node name)).
    { intros name. apply agree_weaken with (P := 1 <= inner);
        [|apply is_agrees].
      intros HP. specialize (Hnode HP). lia. }
    eapply agree_bind; [apply His|].
    destruct (_is node "sec"); [apply agree_returns|].
    eapply agree_bind; [apply His|].
    eapply agree_bind
      with (v := if negb (_is node "title")
                 then let t := PyStr.strip (_txt (Some node)) in
                      if PyStr.truthy t then [t] else []
                 else []).
    + destruct (_is node "title"); cbn [negb]; [apply agree_returns|].
      apply agree_weaken with (P := S (height node) <= inner);
        [exact Hnode | apply stripped_text_agrees].
    + eapply agree_bind.
      * apply IH. intros HP n Hn. apply (Hp HP). right. exact Hn.
      * apply agree_returns.
Qed.

Lemma walk_sec_agrees : forall frames sec store,
  Stack.agree (height sec + 2 <= frames)
              (Stack.walk_sec frames sec store) (walk_sec sec store).
Proof.
  induction frames as [|inner IH]; intros sec store.
  - right. split; [lia | reflexivity].
  - assert (Hpure : walk_sec sec store
                    = fold_left
                        (fun st child =>
                           if _is child "sec" then walk_sec child st else st)
                        (children sec)
                        (add_paragraphs store (section_title sec)
                           (_collect_level_paragraphs sec)))
      by (destruct sec; reflexivity).
    rewrite Hpure. cbn [Stack.walk_sec].
    pose proof (height_find_title sec) as Htitle.
    eapply agree_bind.
    + apply agree_weaken
        with (P := S (height_opt (EPath.find ["title"] sec)) <= inner);
        [lia | apply txt_agrees].
    + cbv zeta. eapply agree_bind.
      * apply agree_weaken with (P := S (height sec) <= inner);
          [lia | apply collect_agrees].
      * apply agree_for_each
          with (f := fun st child =>
                       if _is child "sec" then walk_sec child st else st).
        intros st child Hc.
        pose proof (height_child sec child Hc) as Hchild.
        eapply agree_bind.
        -- apply agree_weaken with (P := 1 <= inner);
             [lia | apply is_agrees].
        -- destruct (_is child "sec"); [|apply agree_returns].
           apply agree_weaken with (P := height child + 2 <= inner);
             [lia | apply IH].
Qed.

Lemma parse_body_agrees frames article store :
  Stack.agree (height article + 2 <= frames)
              (Stack._parse_body_into_map frames article store)
              (_parse_body_into_map article store).
Proof.
  unfold Stack._parse_body_into_map, _parse_body_into_map.
  apply agree_call; [lia|]. intros inner ->.
  destruct (EPath.find ["body"] article) as [body|] eqn:E;
    [|apply agree_returns].
  apply height_find in E. cbn [List.length] in E.
  eapply agree_bind.
  - apply preface_agrees. intros HP node Hn.
    pose proof (height_child body node Hn). lia.
  - cbv zeta.
    apply agree_for_each with (f := fun st top => walk_sec top st).
    intros st top Ht. apply height_findall in Ht. cbn [List.length] in Ht.
    apply agree_weaken with (P := height top + 2 <= inner);
      [lia | apply walk_sec_agrees].
Qed.

Lemma abstract_sec_step_agrees (P : Prop) inner key store s :
  (P -> S (height s) <= inner) ->
  Stack.agree P (Stack.abstract_sec_step inner key store s)
              (abstract_sec_step key store s).
Proof.
  intros Hp. unfold Stack.abstract_sec_step, abstract_sec_step.
  pose proof (height_find_title s) as Htitle.
  eapply agree_bind.
  - apply agree_weaken
      with (P := S (height_opt (EPath.find ["title"] s)) <= inner);
      [intros HP; specialize (Hp HP); lia | apply txt_agrees].
  - cbv zeta. eapply agree_bind.
    + apply agree_weaken with (P := S (height s) <= inner);
        [exact Hp | apply collect_agrees].
    + apply agree_returns.
Qed.

Lemma abstract_step_agrees (P : Prop) inner n store ia :
  (P -> S (height (snd ia)) <= inner) ->
  Stack.agree P (Stack.abstract_step inner n store ia)
              (abstract_step n store ia).
Proof.
  destruct ia as [i abs_el]. cbn [snd]. intros Hp.
  unfold Stack.abstract_step, abstract_step, abstract_key.
  pose proof (height_find_title abs_el) as Htitle.
  eapply agree_bind.
  - apply agree_weaken
      with (P := S (height_opt (EPath.find ["title"] abs_el)) <= inner);
      [intros HP; specialize (Hp HP); lia | apply txt_agrees].
  - cbv zeta. eapply agree_bind.
    + apply agree_weaken with (P := S (height abs_el) <= inner);
        [exact Hp | apply collect_agrees].
    + eapply agree_bind.
      * apply agree_comprehension with (g := fun c => _is c "sec").
        intros c _. apply agree_weaken with (P := 1 <= inner);
          [|apply is_agrees].
        intros HP. specialize (Hp HP). lia.
      * apply agree_for_each. intros st s Hs.
        apply abstract_sec_step_agrees. intros HP.
        apply filter_In in Hs as [Hs _].
        pose proof (height_child abs_el s Hs). specialize (Hp HP). lia.
Qed.

Lemma parse_abstract_agrees frames article store :
  Stack.agree (height article + 2 <= frames)
              (Stack._parse_abstract_into_map frames article store)
              (_parse_abstract_into_map article store).
Proof.
  unfold Stack._parse_abstract_into_map, _parse_abstract_into_map.
  apply agree_call; [lia|]. intros inner ->.
  destruct (EPath.find ["front"; "article-meta"] article) as [meta|] eqn:E;
    [|apply agree_returns].
  apply height_find in E. cbn [List.length] in E. cbv zeta.
  destruct (nonempty (abs_nodes meta)); [|apply agree_returns].
  apply agree_for_each. intros st ia Hia.
  apply abstract_step_agrees. intros HP.
  destruct ia as [i a]. cbn [snd].
  apply in_combine_r in Hia. unfold abs_nodes in Hia.
  apply in_app_or in Hia as [Ha | Ha];
    apply height_findall in Ha; cbn [List.length] in Ha; lia.
Qed.

Lemma first_article_agrees frames root :
  Stack.agree (2 <= frames) (Stack._first_article frames root)
              (_first_article root).
Proof.
  unfold Stack._first_article, _first_article.
  apply agree_call; [lia|]. intros inner ->.
  eapply agree_bind.
  - apply agree_weaken with (P := 1 <= inner); [lia | apply is_agrees].
  - destruct (_is root "article"); apply agree_returns.
Qed.

Lemma section_map_agrees inner root :
  Stack.agree (height root + 2 <= inner)
              (Stack.section_map_of_root inner root)
              (section_map_of_root root).
Proof.
  unfold Stack.section_map_of_root, section_map_of_root.
  pose proof (height_positive root) as Hroot.
  eapply agree_bind.
  - apply agree_weaken with (P := 2 <= inner);
      [lia | apply first_article_agrees].
  - destruct (_first_article root) as [article|] eqn:E;
      [|apply agree_returns].
    apply height_first_article in E.
    pose proof (height_title_el article) as Htitle.
    unfold article_map. eapply agree_bind.
    + apply agree_weaken
        with (P := S (height_opt (title_el article)) <= inner);
        [lia | apply txt_agrees].
    + cbv zeta. eapply agree_bind.
      * apply agree_weaken with (P := height article + 2 <= inner);
          [lia | apply parse_abstract_agrees].
      * apply agree_weaken with (P := height article + 2 <= inner);
          [lia | apply parse_body_agrees].
Qed.

Lemma extractor_agrees fromstring frames raw_xml root :
  fromstring raw_xml = Some root ->
  Stack.agree (height root + 3 <= frames)
              (Stack._jats_to_section_paragraph_map fromstring frames raw_xml)
              (section_map_of_root root).
Proof.
  intros H. unfold Stack._jats_to_section_paragraph_map.
  apply agree_call; [lia|]. intros inner ->. rewrite H.
  apply agree_weaken with (P := height root + 2 <= inner);
    [lia | apply section_map_agrees].
Qed.

(** ** Documents the parser rejects *)

Lemma build_balanced : forall toks stack root r,
  Xml.build toks stack root = Some r ->
  List.length stack + opened toks = closed toks.
Proof.
  unfold opened, closed.
  induction toks as [|tok toks IH]; intros stack root r H.
  - cbn in H. destruct stack; [reflexivity | discriminate H].
  - destruct tok as [n | n | n | d]; cbn [Xml.build] in H;
      cbn [filter List.length].
    + destruct stack as [|f fs].
      * destruct root; [discriminate H|].
        apply IH in H. cbn [List.length] in *. lia.
      * apply IH in H. cbn [List.length] in *. lia.
    + destruct stack as [|f fs]; [discriminate H|].
      destruct (String.eqb (Xml.ftag f) n); [|discriminate H].
      destruct fs as [|p ps]; cbn [Xml.close] in H.
      * destruct root; [discriminate H|].
        apply IH in H. cbn [List.length] in *. lia.
      * apply IH in H. cbn [List.length] in *. lia.
    + destruct stack as [|p ps]; cbn [Xml.close] in H.
      * destruct root; [discriminate H|].
        apply IH in H. cbn [List.length] in *. lia.
      * apply IH in H. cbn [List.length] in *. lia.
    + destruct stack as [|f fs].
      * destruct (Xml.all_space d); [|discriminate H].
        apply IH in H. exact H.
      * apply IH in H. cbn [List.length] in *. exact H.
Qed.

Lemma unbalanced_rejected raw_xml toks :
  Xml.lex (Xml.MData "") raw_xml = Some toks ->
  opened toks <> closed toks ->
  Xml.fromstring raw_xml = None.
Proof.
  intros Hlex Hne. unfold Xml.fromstring. rewrite Hlex.
  destruct (Xml.build toks [] None) as [r|] eqn:E; [|reflexivity].
  apply build_balanced in E. cbn [List.length] in E. lia.
Qed.

(** ** Sections nested deeper than the limit *)

Lemma walk_sec_overflows : forall d frames store,
  frames <= d + 1 ->
  Stack.walk_sec frames (Elem "sec" None None (chain d)) store
  = Raises "RecursionError".
Proof.
  induction d as [|d IH]; intros frames store H.
  - destruct frames as [|[|k]]; [reflexivity | reflexivity | lia].
  - destruct frames as [|k]; [reflexivity|].
    set (sec := Elem "sec" None None (chain (S d))).
    cbn [Stack.walk_sec].
    destruct (txt_agrees k (EPath.find ["title"] sec)) as [E | [_ E]];
      rewrite E; cbn [Stack.bind]; [|reflexivity].
    destruct (collect_agrees k sec) as [E2 | [_ E2]];
      rewrite E2; cbn [Stack.bind]; [|reflexivity].
    unfold sec at 1. cbn [children chain Stack.for_each].
    destruct (is_agrees k (Elem "sec" None None (chain d)) "sec")
      as [E3 | [_ E3]]; rewrite E3; cbn [Stack.bind]; [|reflexivity].
    change (_is (Elem "sec" None None (chain d)) "sec") with true.
    cbv iota. rewrite IH by lia. reflexivity.
Qed.

Lemma chain_overflows fromstring frames d raw_xml :
  fromstring raw_xml = Some (tree_chain (S d)) ->
  frames <= S d + 2 ->
  Stack._jats_to_section_paragraph_map fromstring frames raw_xml
  = Raises "RecursionError".
Proof.
  intros Hparse Hle. unfold Stack._jats_to_section_paragraph_map.
  destruct frames as [|inner]; [reflexivity|]. cbn [Stack.call].
  rewrite Hparse. unfold Stack.section_map_of_root.
  set (root := tree_chain (S d)).
  destruct (first_article_agrees inner root) as [E | [_ E]];
    rewrite E; cbn [Stack.bind]; [|reflexivity].
  change (_first_article root) with (Some root). cbv iota beta.
  destruct (txt_agrees inner (title_el root)) as [E1 | [_ E1]];
    rewrite E1; cbn [Stack.bind]; [|reflexivity].
  cbv zeta.
  match goal with
  | |- Stack.bind (Stack._parse_abstract_into_map inner root ?st) _ = _ =>
      destruct (parse_abstract_agrees inner root st) as [E2 | [_ E2]];
        rewrite E2; cbn [Stack.bind]; [|reflexivity]
  end.
  unfold Stack._parse_body_into_map.
  destruct inner as [|inner]; [reflexivity|]. cbn [Stack.call].
  change (EPath.find ["body"] root)
    with (Some (Elem "body" None None (chain (S d)))).
  cbv iota beta. cbn [children chain Stack.preface].
  destruct (is_agrees inner (Elem "sec" None None (chain d)) "sec")
    as [E3 | [_ E3]]; rewrite E3; cbn [Stack.bind]; [|reflexivity].
  change (_is (Elem "sec" None None (chain d)) "sec") with true.
  cbv iota. cbn [Stack.bind].
  change (EPath.findall ["sec"] (Elem "body" None None
                                      [Elem "sec" None None (chain d)]))
    with [Elem "sec" None None (chain d)].
  cbn [Stack.for_each]. rewrite walk_sec_overflows by lia. reflexivity.
Qed.




(* ================================================================== *)
(** * Further properties of the flattener *)

Section Words.

Import PyStr.

Lemma cons_word_app w ws xs : cons_word w (ws ++ xs) = cons_word w ws ++ xs.
Proof. unfold cons_word. destruct (truthy w); reflexivity. Qed.

(** Where a space follows, the words before it are closed. *)
Lemma split_go_sep p s :
  split_go (p ++ " " ++ s)
  = (fst (split_go p), snd (split_go p) ++ split s).
Proof.
  induction p as [|c p IH].
  - apply split_go_space.
  - change (split_go (String c p ++ " " ++ s))
      with (let '(w, ws) := split_go (p ++ " " ++ s) in
            if isspace c then ("", cons_word w ws) else (String c w, ws)).
    change (split_go (String c p))
      with (let '(w, ws) := split_go p in
            if isspace c then ("", cons_word w ws) else (String c w, ws)).
    rewrite IH. destruct (split_go p) as [w ws]. cbn [fst snd].
    destruct (isspace c); cbn [fst snd]; [|reflexivity].
    rewrite cons_word_app. reflexivity.
Qed.

Lemma split_sep p s : split (p ++ " " ++ s) = split p ++ split s.
Proof.
  unfold split at 1 2. rewrite split_go_sep.
  destruct (split_go p) as [w ws]. cbn [fst snd]. apply cons_word_app.
Qed.

(** The words of the joined parts are the words of the parts, in order. *)
Lemma split_join parts : split (join " " parts) = flat_map split parts.
Proof.
  induction parts as [|p parts IH]; [reflexivity|].
  destruct parts as [|q parts].
  - simpl. rewrite app_nil_r. reflexivity.
  - rewrite join_cons, split_sep, IH. reflexivity.
Qed.

Lemma split_go_words s :
  spaceless (fst (split_go s)) = true
  /\ forallb is_word (snd (split_go s)) = true.
Proof.
  induction s as [|c s [IHw IHws]]; [split; reflexivity|].
  change (split_go (String c s))
    with (let '(w, ws) := split_go s in
          if isspace c then ("", cons_word w ws) else (String c w, ws)).
  destruct (split_go s) as [w ws]. cbn [fst snd] in IHw, IHws.
  destruct (isspace c) eqn:E; cbn [fst snd].
  - split; [reflexivity|]. unfold cons_word.
    destruct (truthy w) eqn:T; [|exact IHws].
    cbn [forallb]. unfold is_word at 1. rewrite T, IHw, IHws. reflexivity.
  - split; [|exact IHws]. cbn [spaceless]. rewrite E, IHw. reflexivity.
Qed.

(** [split] returns words. *)
Lemma split_words s : forallb is_word (split s) = true.
Proof.
  unfold split. destruct (split_go_words s) as [Hw Hws].
  destruct (split_go s) as [w ws]. cbn [fst snd] in *.
  unfold cons_word. destruct (truthy w) eqn:T; [|exact Hws].
  cbn [forallb]. unfold is_word at 1. rewrite T, Hw, Hws. reflexivity.
Qed.

Lemma split_go_spaceless w : spaceless w = true -> split_go w = (w, []).
Proof.
  induction w as [|c w IH]; [reflexivity|].
  simpl. intros H. apply andb_prop in H as [Hc Hw].
  rewrite (IH Hw). apply negb_true_iff in Hc. rewrite Hc. reflexivity.
Qed.

Lemma split_word w : is_word w = true -> split w = [w].
Proof.
  unfold is_word, split. intros H. apply andb_prop in H as [T S].
  rewrite (split_go_spaceless _ S). unfold cons_word. rewrite T. reflexivity.
Qed.

(** Joining words and splitting again gives the words back. *)
Lemma split_join_words ws : forallb is_word ws = true -> split (join " " ws) = ws.
Proof.
  intros H. rewrite split_join.
  induction ws as [|w ws IH]; [reflexivity|].
  simpl in H. apply andb_prop in H as [Hw Hws].
  simpl. rewrite (split_word _ Hw), (IH Hws). reflexivity.
Qed.

Lemma split_nil_blank s : split s = [] <-> blank s = true.
Proof.
  split; [|apply split_blank].
  unfold split. induction s as [|c s IH]; [reflexivity|].
  simpl. destruct (split_go s) as [w ws].
  destruct (isspace c); simpl.
  - intros H. apply IH.
    unfold cons_word in *. destruct (truthy ""); [discriminate H | exact H].
  - unfold cons_word. simpl. discriminate.
Qed.

Lemma head_ok_app a b :
  head_ok (a ++ b) = if truthy a then head_ok a else head_ok b.
Proof. destruct a; reflexivity. Qed.

Lemma tail_ok_app a b :
  tail_ok (a ++ b) = if truthy b then tail_ok b else tail_ok a.
Proof.
  induction a as [|c a IH].
  - simpl. destruct b; reflexivity.
  - destruct b as [|d b].
    + rewrite append_empty_r. reflexivity.
    + cbn [truthy] in *.
      change (tail_ok (String c a ++ String d b))
        with (match (a ++ String d b)%string with
              | EmptyString => negb (isspace c)
              | String _ _ => tail_ok (a ++ String d b)
              end).
      rewrite IH. destruct a; reflexivity.
Qed.

Lemma append_assoc (a b c : string) :
  ((a ++ b) ++ c)%string = (a ++ b ++ c)%string.
Proof. induction a as [|x a IH]; simpl; [|rewrite IH]; reflexivity. Qed.

Lemma rev_app a b : rev (a ++ b) = (rev b ++ rev a)%string.
Proof.
  induction a as [|c a IH]; simpl.
  - rewrite append_empty_r. reflexivity.
  - rewrite IH. apply append_assoc.
Qed.

Lemma rev_involutive s : rev (rev s) = s.
Proof.
  induction s as [|c s IH]; [reflexivity|].
  simpl. rewrite rev_app, IH. reflexivity.
Qed.

Lemma head_ok_rev s : head_ok (rev s) = tail_ok s.
Proof.
  induction s as [|c s IH]; [reflexivity|].
  simpl rev. rewrite head_ok_app, IH.
  destruct s as [|d s]; [reflexivity|].
  replace (truthy (rev (String d s))) with true; [reflexivity|].
  simpl. destruct (rev s); reflexivity.
Qed.

Lemma lstrip_head_ok s : head_ok s = true -> lstrip s = s.
Proof.
  destruct s as [|c s]; [reflexivity|].
  simpl. intros H. apply negb_true_iff in H. rewrite H. reflexivity.
Qed.

(** [strip] leaves alone a string that neither begins nor ends with
    whitespace. *)
Lemma strip_fixed s : head_ok s = true -> tail_ok s = true -> strip s = s.
Proof.
  intros Hh Ht. unfold strip, rstrip. rewrite (lstrip_head_ok _ Hh).
  rewrite lstrip_head_ok by (rewrite head_ok_rev; exact Ht).
  apply rev_involutive.
Qed.

Lemma word_head_ok w : is_word w = true -> head_ok w = true.
Proof.
  unfold is_word. destruct w as [|c w]; [discriminate|].
  simpl. intros H. apply andb_prop in H as [H _]. exact H.
Qed.

Lemma spaceless_tail_ok w : spaceless w = true -> tail_ok w = true.
Proof.
  induction w as [|c w IH]; [reflexivity|].
  simpl. intros H. apply andb_prop in H as [Hc Hw].
  destruct w; [exact Hc | exact (IH Hw)].
Qed.

Lemma join_words_truthy w ws : is_word w = true -> truthy (join " " (w :: ws)) = true.
Proof.
  unfold is_word. intros H. apply andb_prop in H as [T _].
  destruct w; [discriminate|]. destruct ws; reflexivity.
Qed.

Lemma join_words_ends ws :
  forallb is_word ws = true ->
  head_ok (join " " ws) = true /\ tail_ok (join " " ws) = true.
Proof.
  induction ws as [|w ws IH]; [split; reflexivity|].
  intros H. simpl in H. apply andb_prop in H as [Hw Hws].
  destruct ws as [|v ws].
  - simpl. split; [exact (word_head_ok _ Hw)|].
    apply spaceless_tail_ok. unfold is_word in Hw.
    apply andb_prop in Hw as [_ S]. exact S.
  - rewrite join_cons. split.
    + rewrite head_ok_app.
      replace (truthy w) with true; [exact (word_head_ok _ Hw)|].
      unfold is_word in Hw. apply andb_prop in Hw as [T _]. symmetry. exact T.
    + rewrite tail_ok_app. cbn [append truthy].
      pose proof Hws as Hws'. cbn [forallb] in Hws'.
      apply andb_prop in Hws' as [Hv _].
      pose proof (join_words_truthy v ws Hv) as T.
      destruct (IH Hws) as [_ Ht].
      change (tail_ok (String " " (join " " (v :: ws))))
        with (match join " " (v :: ws) with
              | EmptyString => negb (isspace " ")
              | String _ _ => tail_ok (join " " (v :: ws))
              end).
      destruct (join " " (v :: ws)); [discriminate T | exact Ht].
Qed.

End Words.

Lemma flat_map_nil_iff {A B} (f : A -> list B) l :
  flat_map f l = [] <-> forall x, In x l -> f x = [].
Proof.
  induction l as [|x l IH]; simpl.
  - split; [intros _ y [] | reflexivity].
  - split.
    + intros H. apply app_eq_nil in H as [Hx Hl].
      intros y [<- | Hy]; [exact Hx | exact (proj1 IH Hl y Hy)].
    + intros H. rewrite (H x (or_introl eq_refl)).
      apply IH. intros y Hy. apply H. right. exact Hy.
Qed.

Lemma normalize_words parts : PyStr.split (normalize parts) = flat_map PyStr.split parts.
Proof.
  unfold normalize.
  rewrite (split_join_words _ (split_words _)). apply split_join.
Qed.

(** X1.  Flattening keeps the words of the text pieces of the subtree,
    all of them and in document order: the words of the flattened string
    are the words of the node's text, of each child's subtree and of each
    child's tail, one after the other. *)
Theorem X1_flatten_keeps_words (n : Element) :
  PyStr.split (_txt (Some n)) = flat_map PyStr.split (walk n).
Proof. apply normalize_words. Qed.

(** X2.  The flattened string is in normal form: it neither begins nor
    ends with whitespace, so [strip] leaves it as it is, and flattening it
    again as a single piece of text gives it back. *)
Theorem X2_flatten_normal_form (el : option Element) :
  PyStr.strip (_txt el) = _txt el
  /\ normalize [_txt el] = _txt el
  /\ PyStr.join " " (PyStr.split (_txt el)) = _txt el.
Proof.
  assert (Hfix : forall parts,
             PyStr.join " " (PyStr.split (normalize parts)) = normalize parts).
  { intros parts. unfold normalize at 1.
    rewrite (split_join_words _ (split_words _)). reflexivity. }
  destruct el as [n|]; [|repeat split; reflexivity].
  unfold _txt. repeat split.
  - destruct (join_words_ends _ (split_words (PyStr.join " " (walk n))))
      as [Hh Ht].
    apply strip_fixed; assumption.
  - unfold normalize at 1. simpl PyStr.join at 2. apply Hfix.
  - apply Hfix.
Qed.

(** X3.  Flattening can be done bottom up: flattening a node gives the
    same string as normalizing its own text followed, child by child, by
    the flattened child and the child's tail. *)
Theorem X3_flatten_bottom_up (t : string) (x l : option string)
        (cs : list Element) :
  _txt (Some (Elem t x l cs))
  = normalize (opt_part x
               ++ flat_map (fun c => _txt (Some c) :: opt_part (tail c)) cs).
Proof.
  unfold _txt at 1, normalize. f_equal. rewrite !split_join.
  change (walk (Elem t x l cs))
    with (opt_part x ++ flat_map (fun c => walk c ++ opt_part (tail c)) cs).
  rewrite !flat_map_app. f_equal.
  induction cs as [|c cs IH]; [reflexivity|].
  cbn [flat_map]. rewrite !flat_map_app, IH. f_equal.
  cbn [flat_map]. unfold _txt. rewrite normalize_words. reflexivity.
Qed.

Lemma join_words_nil ws :
  forallb is_word ws = true -> PyStr.join " " ws = "" -> ws = [].
Proof.
  destruct ws as [|w ws]; [reflexivity|].
  intros H E. cbn [forallb] in H. apply andb_prop in H as [Hw _].
  pose proof (join_words_truthy w ws Hw) as T. rewrite E in T.
  discriminate T.
Qed.

Lemma normalize_empty_iff parts :
  normalize parts = "" <-> forallb PyStr.blank parts = true.
Proof.
  unfold normalize. rewrite forallb_forall. split.
  - intros E. apply join_words_nil in E; [|apply split_words].
    rewrite split_join in E.
    intros p Hp. apply split_nil_blank.
    exact (proj1 (flat_map_nil_iff _ _) E p Hp).
  - intros H. rewrite split_join.
    rewrite (proj2 (flat_map_nil_iff PyStr.split parts)); [reflexivity|].
    intros p Hp. apply split_nil_blank. exact (H p Hp).
Qed.

(** X4.  A node flattens to the empty string exactly when every piece of
    text in its subtree (texts and tails of descendants) is made of
    whitespace only. *)
Theorem X4_flatten_empty_iff_blank (n : Element) :
  _txt (Some n) = "" <-> forallb PyStr.blank (walk n) = true.
Proof. apply normalize_empty_iff. Qed.

(** ** Further properties of the paragraph collector *)

Lemma strip_txt el : PyStr.strip (_txt el) = _txt el.
Proof.
  destruct el as [n|]; [|reflexivity]. unfold _txt.
  destruct (join_words_ends _ (split_words (PyStr.join " " (walk n))))
    as [Hh Ht].
  apply strip_fixed; assumption.
Qed.

Lemma level_paragraph_block c :
  skipped c = false ->
  level_paragraph c
  = if PyStr.truthy (_txt (Some c)) then [_txt (Some c)] else [].
Proof.
  unfold level_paragraph, skipped. intros ->. rewrite strip_txt.
  destruct (existsb (_is c) block_tags); reflexivity.
Qed.

Lemma collect_block_texts container :
  _collect_level_paragraphs container
  = filter PyStr.truthy (block_texts container).
Proof.
  unfold _collect_level_paragraphs, block_texts.
  induction (children container) as [|c cs IH]; [reflexivity|].
  cbn [flat_map filter]. destruct (skipped c) eqn:E; cbn [negb].
  - rewrite (level_paragraph_skipped _ E). exact IH.
  - rewrite (level_paragraph_block _ E), IH. cbn [map filter].
    destruct (PyStr.truthy (_txt (Some c))); reflexivity.
Qed.

(** C3, amended.  Paragraph collection skips the direct children whose
    tag ends in title, label or sec and flattens every other direct child
    whole: the paragraphs of a container are, in document order, the
    flattened texts of those other children that are not empty.  So two
    containers that agree on those children yield the same paragraphs,
    whatever sections they hold as direct children, while a section inside
    such a child is flattened with it.  The body walker adds, in visit
    order, for the preface and then for every visited section, the
    paragraphs collected at the level of the section; the list under a key
    is the list the store had, extended by the preface if the key is
    "Body (untitled)" and then by the paragraphs of every visited section
    that derives this key, in visit order. *)
Theorem C3_own_level_contributions :
  (forall c : Element,
      _collect_level_paragraphs c
      = filter PyStr.truthy
          (map (fun x => _txt (Some x))
               (filter (fun x => negb (skipped x)) (children c))))
  /\ (forall c c' : Element,
         filter (fun x => negb (skipped x)) (children c)
         = filter (fun x => negb (skipped x)) (children c') ->
         _collect_level_paragraphs c = _collect_level_paragraphs c')
  /\ (forall article body store,
         EPath.find ["body"] article = Some body ->
         _parse_body_into_map article store
         = add_all (body_entries body) store
         /\ forall k,
             Dict.get (_parse_body_into_map article store) k
             = extended (Dict.get store k)
                 ((if String.eqb "Body (untitled)" k
                   then preface (children body) else [])
                  ++ List.concat
                       (map _collect_level_paragraphs
                            (filter
                               (fun v => String.eqb (section_title v) k)
                               (body_sections body))))).
Proof.
  split; [|split].
  - intros c. apply collect_block_texts.
  - intros c c' H.
    rewrite <- (collect_own_level c), <- (collect_own_level c').
    unfold own_level, _collect_level_paragraphs, with_children. simpl.
    rewrite H. reflexivity.
  - intros article body store H.
    rewrite (parse_body_entries _ _ _ H). split; [reflexivity|].
    intros k. rewrite get_add_all. unfold body_entries.
    rewrite paragraphs_for_cons, paragraphs_for_sections. reflexivity.
Qed.

Lemma C3_own_level_contributions_witness :
  let body := Elem "body" None None [sec_same_title_outer] in
  EPath.find ["body"] tree_same_title = Some body
  /\ _collect_level_paragraphs sec_boxed_outer = ["Inner Secret"]
  /\ _collect_level_paragraphs sec_same_title_outer
     = _collect_level_paragraphs (with_children sec_same_title_outer
                                    [Elem "p" (Some "x") None []])
  /\ Dict.get (_parse_body_into_map tree_same_title []) "A"
     = Some ["x"; "y"].
Proof.
  intros body.
  assert (Hb : EPath.find ["body"] tree_same_title = Some body) by reflexivity.
  split; [exact Hb|]. split; [|split].
  - rewrite (proj1 C3_own_level_contributions sec_boxed_outer).
    vm_compute. reflexivity.
  - apply (proj1 (proj2 C3_own_level_contributions)). reflexivity.
  - rewrite (proj2 (proj2 (proj2 C3_own_level_contributions)
                      tree_same_title body [] Hb) "A").
    vm_compute. reflexivity.
Defined.

(** X5.  The collector returns, in document order, the flattened text of
    every direct child whose tag does not end in title, label or sec,
    leaving out the texts that are empty.  Whether the tag of a child is
    in the list of block tags makes no difference, and the call of
    [strip] changes nothing. *)
Theorem X5_collector_is_filtered_flatten (container : Element) :
  _collect_level_paragraphs container
  = filter PyStr.truthy
      (map (fun c => _txt (Some c))
           (filter (fun c => negb (_is c "title" || _is c "label"
                                   || _is c "sec"))
                   (children container))).
Proof. apply collect_block_texts. Qed.

(** ** The map as a run of contributions *)

Lemma abstract_sec_steps_entries key secs : forall store,
  fold_left (abstract_sec_step key) secs store
  = add_all (map (abstract_sec_entry key) secs) store.
Proof.
  induction secs as [|s secs IH]; intros store; [reflexivity|].
  cbn [fold_left map]. rewrite IH. reflexivity.
Qed.

Lemma abstract_step_entries n store ia :
  abstract_step n store ia = add_all (abstract_entries_of n ia) store.
Proof.
  destruct ia as [i a]. unfold abstract_step, abstract_entries_of.
  rewrite abstract_sec_steps_entries. reflexivity.
Qed.

Lemma abstract_steps_entries n ias : forall store,
  fold_left (abstract_step n) ias store
  = add_all (flat_map (abstract_entries_of n) ias) store.
Proof.
  induction ias as [|ia ias IH]; intros store; [reflexivity|].
  cbn [fold_left flat_map].
  rewrite IH, abstract_step_entries, add_all_app. reflexivity.
Qed.

Lemma parse_abstract_entries article store :
  _parse_abstract_into_map article store
  = add_all (abstract_entries article) store.
Proof.
  unfold _parse_abstract_into_map, abstract_entries.
  destruct (EPath.find ["front"; "article-meta"] article) as [meta|];
    [|reflexivity].
  cbv zeta. destruct (abs_nodes meta) as [|a nodes] eqn:E; [reflexivity|].
  cbn [nonempty]. apply abstract_steps_entries.
Qed.

(** ** The keys of the abstracts *)

(** The own paragraphs of an abstract-like element are filed under its
    key, behind what the key holds already. *)
Lemma abstract_filed article meta store i a :
  EPath.find ["front"; "article-meta"] article = Some meta ->
  In (i, a) (enumerate 1 (abs_nodes meta)) ->
  _collect_level_paragraphs a <> [] ->
  exists x y,
    Dict.get (_parse_abstract_into_map article store)
             (abstract_key (List.length (abs_nodes meta)) i a)
    = Some (x ++ _collect_level_paragraphs a ++ y).
Proof.
  intros Hmeta Hin Hne.
  rewrite parse_abstract_entries, get_add_all.
  unfold abstract_entries. rewrite Hmeta. cbv zeta.
  destruct (in_split _ _ Hin) as [l1 [l2 Hsplit]]. rewrite Hsplit.
  rewrite flat_map_app. cbn [flat_map].
  rewrite paragraphs_for_app. unfold abstract_entries_of at 2.
  rewrite <- app_comm_cons, paragraphs_for_cons. cbn [fst snd].
  rewrite String.eqb_refl.
  set (key := abstract_key (List.length (abs_nodes meta)) i a).
  set (p1 := paragraphs_for key _).
  set (p2 := paragraphs_for key _).
  rewrite extended_nonempty.
  - exists (match Dict.get store key with Some v => v | None => [] end ++ p1),
           p2.
    rewrite <- !app_assoc. reflexivity.
  - intros E. apply Hne.
    apply app_eq_nil in E as [_ E]. apply app_eq_nil in E as [E _].
    exact E.
Qed.

(** C5.  The abstract-like elements of the metadata container are
    numbered from 1 along the list of all abstract elements followed by
    all trans-abstract elements.  The abstract walker files the own
    paragraphs of each of them in the dictionary: when there is exactly
    one and its title flattens to nothing (no title included), under
    "Abstract"; when there are several, under the flattened title of the
    element if that is not empty, and under "Abstract i" otherwise, i
    being its number.  A single element without title and without
    sections changes the dictionary at "Abstract" and nowhere else, and
    in general the list under a key is the list the dictionary had,
    extended by the contributions of the abstracts and of their sections
    that derive this key, in order. *)
Theorem C5_abstract_keys (article meta : Element) (store : Store) :
  EPath.find ["front"; "article-meta"] article = Some meta ->
  let prim := EPath.findall ["abstract"] meta in
  let trans := EPath.findall ["trans-abstract"] meta in
  let nodes := abs_nodes meta in
  let n := List.length nodes in
  let filed := _parse_abstract_into_map article store in
  (forall i a, In (i, a) (enumerate 1 nodes)
               <-> 1 <= i /\ nth_error (prim ++ trans) (i - 1) = Some a)
  /\ (forall j a, nth_error prim j = Some a ->
                  In (j + 1, a) (enumerate 1 nodes))
  /\ (forall j a, nth_error trans j = Some a ->
                  In (List.length prim + j + 1, a) (enumerate 1 nodes))
  /\ (forall i a,
         In (i, a) (enumerate 1 nodes) ->
         let title := _txt (EPath.find ["title"] a) in
         let paras := _collect_level_paragraphs a in
         paras <> [] ->
         (n = 1 -> title = "" ->
          exists x y, Dict.get filed "Abstract" = Some (x ++ paras ++ y))
         /\ (1 < n ->
             exists x y,
               Dict.get filed
                        (if PyStr.truthy title then title
                         else ("Abstract " ++ PyStr.of_nat i)%string)
               = Some (x ++ paras ++ y)))
  /\ (forall a,
         nodes = [a] ->
         _txt (EPath.find ["title"] a) = "" ->
         filter (fun c => _is c "sec") (children a) = [] ->
         filed = add_paragraphs store "Abstract" (_collect_level_paragraphs a))
  /\ (forall k,
         Dict.get filed k
         = extended (Dict.get store k)
                    (paragraphs_for k (abstract_entries article))).
Proof.
  intros Hmeta prim trans nodes n filed.
  assert (Henum : forall i a, In (i, a) (enumerate 1 nodes)
                  <-> 1 <= i /\ nth_error (prim ++ trans) (i - 1) = Some a)
    by (intros i a; apply in_enumerate).
  split; [exact Henum|]. split; [|split; [|split; [|split]]].
  - intros j a Hj. apply Henum. split; [lia|].
    replace (j + 1 - 1) with j by lia.
    rewrite nth_error_app1; [exact Hj|].
    apply nth_error_Some. rewrite Hj. discriminate.
  - intros j a Hj. apply Henum. split; [lia|].
    replace (List.length prim + j + 1 - 1) with (List.length prim + j) by lia.
    rewrite nth_error_app2 by lia.
    replace (List.length prim + j - List.length prim) with j by lia.
    exact Hj.
  - intros i a Hin title paras Hne.
    destruct (abstract_filed article meta store i a Hmeta Hin Hne)
      as [x [y Hget]].
    fold nodes n filed paras in Hget. split.
    + intros Hn Ht. exists x, y. rewrite <- Hget. f_equal.
      unfold abstract_key. fold title. rewrite Hn, Ht. reflexivity.
    + intros Hn. exists x, y. rewrite <- Hget. f_equal.
      unfold abstract_key. fold title.
      replace (n =? 1)%nat with false
        by (symmetry; apply Nat.eqb_neq; lia).
      reflexivity.
  - intros a Hnodes Ht Hsecs. unfold filed, _parse_abstract_into_map.
    rewrite Hmeta. cbv zeta. fold nodes. rewrite Hnodes.
    cbn [nonempty enumerate List.length seq combine fold_left].
    unfold abstract_step, abstract_key. rewrite Ht, Hsecs. reflexivity.
  - intros k. unfold filed. rewrite parse_abstract_entries.
    apply get_add_all.
Qed.

Lemma C5_abstract_keys_witness :
  let article :=
    Elem "article" None None [Elem "front" None None [meta_three_abstracts]] in
  let third :=
    Elem "trans-abstract" None None [Elem "p" (Some "trois") None []] in
  In (3, third) (enumerate 1 (abs_nodes meta_three_abstracts))
  /\ (exists x y,
         Dict.get (_parse_abstract_into_map article []) "Abstract 3"
         = Some (x ++ ["trois"] ++ y))
  /\ _parse_abstract_into_map article []
     = [("Abstract 1", ["one"]); ("Summary", ["two"]);
        ("Abstract 3", ["trois"])].
Proof.
  intros article third.
  assert (Hmeta : EPath.find ["front"; "article-meta"] article
                  = Some meta_three_abstracts) by reflexivity.
  assert (Hin : In (3, third) (enumerate 1 (abs_nodes meta_three_abstracts))).
  { apply (proj1 (proj2 (proj2 (C5_abstract_keys article meta_three_abstracts
                                   [] Hmeta))) 0).
    reflexivity. }
  split; [exact Hin|]. split; [|vm_compute; reflexivity].
  assert (Hne : _collect_level_paragraphs third <> []) by discriminate.
  apply (proj2 (proj1 (proj2 (proj2 (proj2
           (C5_abstract_keys article meta_three_abstracts [] Hmeta))))
           3 third Hin Hne)).
  simpl. lia.
Defined.

Lemma parse_body_entries_of article store :
  _parse_body_into_map article store
  = add_all (body_entries_of article) store.
Proof.
  unfold body_entries_of.
  destruct (EPath.find ["body"] article) as [body|] eqn:E.
  - apply (parse_body_entries _ _ _ E).
  - unfold _parse_body_into_map. rewrite E. reflexivity.
Qed.

Lemma article_map_entries article :
  article_map article = add_all (article_entries article) [].
Proof.
  unfold article_map, article_entries.
  rewrite parse_body_entries_of, parse_abstract_entries.
  change (add_all (title_entry article :: ?es) [])
    with (add_all es (add_entry [] (title_entry article))).
  rewrite add_all_app. unfold add_entry, title_entry. cbn [fst snd].
  destruct (PyStr.truthy (_txt (title_el article))); reflexivity.
Qed.

(** X6.  The map of an article is what the contributions of the article
    produce when they are applied, in order, to the empty dictionary: the
    article title; for each abstract-like element, its own paragraphs and
    then those of each of its sections; the preface of the body; then the
    own-level paragraphs of each section of the body, parents before
    children and siblings in document order.  A contribution without
    paragraphs changes nothing; any other extends the list of its key,
    which is created at the end of the dictionary when it is new. *)
Theorem X6_article_map_is_run_of_contributions (article : Element) :
  article_map article
  = fold_left (fun store e =>
                 if nonempty (snd e)
                 then Dict.setdefault_extend store (fst e) (snd e)
                 else store)
              (article_entries article) [].
Proof. apply article_map_entries. Qed.

(** ** Invariants of the dictionary *)

Lemma known_spec k seen : known k seen = true <-> In k seen.
Proof.
  unfold known. rewrite existsb_exists. split.
  - intros [x [Hx E]]. apply String.eqb_eq in E. subst x. exact Hx.
  - intros H. exists k. split; [exact H | apply String.eqb_refl].
Qed.

Lemma keys_setdefault_extend d k ps :
  map fst (Dict.setdefault_extend d k ps)
  = if known k (map fst d) then map fst d else map fst d ++ [k].
Proof.
  induction d as [|[k0 v0] d IH]; [reflexivity|].
  cbn [Dict.setdefault_extend map fst]. unfold known in *. cbn [existsb].
  rewrite (String.eqb_sym k k0).
  destruct (String.eqb k0 k); cbn [orb map fst]; [reflexivity|].
  rewrite IH. destruct (existsb (String.eqb k) (map fst d)); reflexivity.
Qed.

Lemma keys_add_all es : forall d,
  map fst (add_all es d) = map fst d ++ new_keys (map fst d) es.
Proof.
  induction es as [|e es IH]; intros d.
  - cbn [new_keys]. rewrite app_nil_r. reflexivity.
  - change (add_all (e :: es) d) with (add_all es (add_entry d e)).
    rewrite IH. unfold add_entry, add_paragraphs. cbn [new_keys].
    destruct (nonempty (snd e)); cbn [andb]; [|reflexivity].
    rewrite keys_setdefault_extend.
    destruct (known (fst e) (map fst d)); cbn [negb]; [reflexivity|].
    rewrite <- app_assoc. reflexivity.
Qed.

Lemma nodup_setdefault_extend d k ps :
  NoDup (map fst d) -> NoDup (map fst (Dict.setdefault_extend d k ps)).
Proof.
  intros H. rewrite keys_setdefault_extend.
  destruct (known k (map fst d)) eqn:E; [exact H|].
  apply NoDup_app; [exact H | repeat constructor; intros [] | ].
  intros x Hx [<- | []].
  apply known_spec in Hx. rewrite Hx in E. discriminate E.
Qed.

Lemma values_setdefault_extend (P : Paragraphs -> Prop) d k ps :
  (forall v, P v -> P (v ++ ps)) -> P ps ->
  Forall (fun e => P (snd e)) d ->
  Forall (fun e => P (snd e)) (Dict.setdefault_extend d k ps).
Proof.
  intros Hext Hps. induction 1 as [|[k0 v0] d Hv Hd IH].
  - repeat constructor. exact Hps.
  - cbn [Dict.setdefault_extend]. destruct (String.eqb k0 k).
    + constructor; [exact (Hext _ Hv) | exact Hd].
    + constructor; [exact Hv | exact IH].
Qed.

Lemma well_formed_add_paragraphs d k ps :
  Forall good_paragraph ps ->
  well_formed d -> well_formed (add_paragraphs d k ps).
Proof.
  intros Hps [Hnd Hv]. unfold add_paragraphs.
  destruct ps as [|p ps]; [split; assumption|]. cbn [nonempty].
  split; [apply nodup_setdefault_extend; exact Hnd|].
  apply (values_setdefault_extend
           (fun v => v <> [] /\ Forall good_paragraph v)).
  - intros v [Hne Hg]. split.
    + destruct v; [contradiction | discriminate].
    + apply Forall_app. split; assumption.
  - split; [discriminate | exact Hps].
  - exact Hv.
Qed.

Lemma well_formed_add_all es : forall d,
  Forall (fun e => Forall good_paragraph (snd e)) es ->
  well_formed d -> well_formed (add_all es d).
Proof.
  induction es as [|e es IH]; intros d Hes Hd; [exact Hd|].
  inversion Hes as [|? ? He Hes']; subst.
  apply IH; [exact Hes'|].
  apply well_formed_add_paragraphs; assumption.
Qed.

Lemma truthy_nonempty s : PyStr.truthy s = true -> s <> "".
Proof. destruct s; [discriminate | discriminate]. Qed.

Lemma good_txt el : PyStr.truthy (_txt el) = true -> good_paragraph (_txt el).
Proof. intros T. split; [exact (truthy_nonempty _ T) | apply strip_txt]. Qed.

Lemma good_collect container :
  Forall good_paragraph (_collect_level_paragraphs container).
Proof.
  rewrite collect_block_texts. apply Forall_forall.
  intros p Hp. apply filter_In in Hp as [Hin T].
  unfold block_texts in Hin. apply in_map_iff in Hin as [c [<- _]].
  apply good_txt. exact T.
Qed.

Lemma good_preface nodes : Forall good_paragraph (preface nodes).
Proof.
  induction nodes as [|node rest IH]; [constructor|].
  cbn [preface]. destruct (_is node "sec"); [constructor|].
  apply Forall_app. split; [|exact IH].
  destruct (negb (_is node "title")); [|constructor].
  cbv zeta. rewrite strip_txt.
  destruct (PyStr.truthy (_txt (Some node))) eqn:T; [|constructor].
  constructor; [apply good_txt; exact T | constructor].
Qed.

Lemma good_article_entries article :
  Forall (fun e => Forall good_paragraph (snd e)) (article_entries article).
Proof.
  unfold article_entries. constructor; [|apply Forall_app; split].
  - unfold title_entry. cbn [snd].
    destruct (PyStr.truthy (_txt (title_el article))) eqn:T; [|constructor].
    constructor; [apply good_txt; exact T | constructor].
  - unfold abstract_entries.
    destruct (EPath.find ["front"; "article-meta"] article) as [meta|];
      [|constructor].
    cbv zeta. apply Forall_forall. intros e He.
    apply in_flat_map in He as [[i a] [_ He]].
    unfold abstract_entries_of in He. destruct He as [<- | He].
    + apply good_collect.
    + apply in_map_iff in He as [s [<- _]]. apply good_collect.
  - unfold body_entries_of.
    destruct (EPath.find ["body"] article) as [body|]; [|constructor].
    unfold body_entries. constructor; [apply good_preface|].
    apply Forall_forall. intros e He.
    apply in_map_iff in He as [s [<- _]]. apply good_collect.
Qed.

(** X7.  Whatever the document, the map the extractor returns is well
    formed: no key occurs twice, no key holds an empty list, and no
    paragraph is empty or begins or ends with whitespace. *)
Theorem X7_returned_map_well_formed (root : Element) :
  NoDup (map fst (section_map_of_root root))
  /\ forall k ps,
      In (k, ps) (section_map_of_root root) ->
      ps <> []
      /\ forall p, In p ps -> p <> "" /\ PyStr.strip p = p.
Proof.
  assert (H : well_formed (section_map_of_root root)).
  { unfold section_map_of_root.
    destruct (_first_article root) as [article|].
    - rewrite article_map_entries.
      apply well_formed_add_all; [apply good_article_entries|].
      split; constructor.
    - split; constructor. }
  destruct H as [Hnd Hv]. split; [exact Hnd|].
  intros k ps Hin. rewrite Forall_forall in Hv.
  destruct (Hv _ Hin) as [Hne Hg]. split; [exact Hne|].
  intros p Hp. rewrite Forall_forall in Hg. exact (Hg p Hp).
Qed.

(** X8.  The keys of the map of an article stand in the order in which
    the extractor first meets them: going through the contributions in
    order (title, abstracts, body), each key appears where the first
    contribution that brings paragraphs for it stands. *)
Theorem X8_keys_in_first_contribution_order (article : Element) :
  map fst (article_map article) = new_keys [] (article_entries article).
Proof. rewrite article_map_entries. apply (keys_add_all _ []). Qed.

Lemma X7_returned_map_well_formed_witness :
  In ("Intro", ["Hello world."]) (section_map_of_root tree_example)
  /\ ["Hello world."] <> ([] : Paragraphs)
  /\ forall p, In p ["Hello world."] -> p <> "" /\ PyStr.strip p = p.
Proof.
  assert (Hin : In ("Intro", ["Hello world."])
                   (section_map_of_root tree_example)).
  { vm_compute. auto. }
  split; [exact Hin|].
  exact (proj2 (X7_returned_map_well_formed tree_example) _ _ Hin).
Defined.

(** ** The walkers only append *)

Lemma extended_some v ps : extended (Some v) ps = Some (v ++ ps).
Proof. destruct ps; [rewrite app_nil_r|]; reflexivity. Qed.

Lemma add_all_append_only es d :
  (exists added, map fst (add_all es d) = map fst d ++ added)
  /\ (forall k v, Dict.get d k = Some v ->
                  exists more, Dict.get (add_all es d) k = Some (v ++ more)).
Proof.
  split.
  - exists (new_keys (map fst d) es). apply keys_add_all.
  - intros k v H. exists (paragraphs_for k es).
    rewrite get_add_all, H. apply extended_some.
Qed.

(** X9.  The abstract walker and the body walker only append to the
    dictionary they are given: the keys that were there stay where they
    were, new keys come behind them, and the list under an old key keeps
    its paragraphs in front of whatever is added. *)
Theorem X9_walkers_append_only (article : Element) (store : Store) :
  ((exists added,
       map fst (_parse_abstract_into_map article store)
       = map fst store ++ added)
   /\ (forall k v,
          Dict.get store k = Some v ->
          exists more,
            Dict.get (_parse_abstract_into_map article store) k
            = Some (v ++ more)))
  /\ ((exists added,
          map fst (_parse_body_into_map article store)
          = map fst store ++ added)
      /\ (forall k v,
             Dict.get store k = Some v ->
             exists more,
               Dict.get (_parse_body_into_map article store) k
               = Some (v ++ more))).
Proof.
  rewrite parse_abstract_entries, parse_body_entries_of.
  split; apply add_all_append_only.
Qed.

Lemma X9_walkers_append_only_witness :
  Dict.get [("Intro", ["kept"])] "Intro" = Some ["kept"]
  /\ exists more,
       Dict.get (_parse_body_into_map tree_example [("Intro", ["kept"])])
                "Intro"
       = Some (["kept"] ++ more).
Proof.
  assert (H : Dict.get [("Intro", ["kept"])] "Intro" = Some ["kept"])
    by reflexivity.
  split; [exact H|].
  exact (proj2 (proj2 (X9_walkers_append_only
                         tree_example [("Intro", ["kept"])]))
               "Intro" ["kept"] H).
Defined.

(** ** The title entry *)

Lemma add_all_head es : forall k v d,
  exists d', add_all es ((k, v) :: d) = (k, v ++ paragraphs_for k es) :: d'.
Proof.
  induction es as [|e es IH]; intros k v d.
  - exists d. unfold paragraphs_for. cbn. rewrite app_nil_r. reflexivity.
  - change (add_all (e :: es) ((k, v) :: d))
      with (add_all es (add_entry ((k, v) :: d) e)).
    rewrite paragraphs_for_cons. rewrite (String.eqb_sym (fst e) k).
    unfold add_entry, add_paragraphs.
    destruct (snd e) as [|p ps] eqn:Es; cbn [nonempty].
    + destruct (IH k v d) as [d' Hd']. exists d'. rewrite Hd'.
      destruct (String.eqb k (fst e)); reflexivity.
    + cbn [Dict.setdefault_extend]. destruct (String.eqb k (fst e)).
      * destruct (IH k (v ++ p :: ps) d) as [d' Hd']. exists d'.
        rewrite app_assoc. exact Hd'.
      * destruct (IH k v (Dict.setdefault_extend d (fst e) (p :: ps)))
          as [d' Hd'].
        exists d'. rewrite Hd'. reflexivity.
Qed.

(** X10.  When the article title does not flatten to the empty string,
    "Title" is the first key of the map and the article title is the first
    paragraph of its list; the paragraphs behind it are those of the
    abstracts and sections that derive the key "Title", and when there is
    none the list is the article title alone. *)
Theorem X10_title_is_first (article : Element) :
  PyStr.truthy (_txt (title_el article)) = true ->
  let others := abstract_entries article ++ body_entries_of article in
  (exists rest,
      article_map article
      = ("Title", _txt (title_el article) :: paragraphs_for "Title" others)
        :: rest)
  /\ (paragraphs_for "Title" others = [] ->
      Dict.get (article_map article) "Title"
      = Some [_txt (title_el article)]).
Proof.
  intros T others.
  assert (H : exists rest,
             article_map article
             = ("Title",
                _txt (title_el article) :: paragraphs_for "Title" others)
               :: rest).
  { rewrite article_map_entries. unfold article_entries.
    change (add_all (title_entry article :: ?es) [])
      with (add_all es (add_entry [] (title_entry article))).
    unfold add_entry, title_entry. cbn [fst snd]. rewrite T.
    apply (add_all_head others "Title" [_txt (title_el article)] []). }
  split; [exact H|].
  intros Hnone. destruct H as [rest ->]. rewrite Hnone. reflexivity.
Qed.

Lemma X10_title_is_first_witness :
  PyStr.truthy (_txt (title_el tree_example)) = true
  /\ Dict.get (article_map tree_example) "Title" = Some ["Foo"].
Proof.
  assert (T : PyStr.truthy (_txt (title_el tree_example)) = true)
    by reflexivity.
  split; [exact T|].
  apply (proj2 (X10_title_is_first tree_example T)). reflexivity.
Defined.

(** X11.  When the article has no title element, or its title element
    holds whitespace only, the title step writes nothing: the map is the
    one the abstract walker and the body walker build from the empty
    dictionary, and it has a "Title" key only if an abstract or a section
    derives that key. *)
Theorem X11_blank_title_gives_no_entry (article : Element) :
  (forall el, title_el article = Some el ->
              forallb PyStr.blank (walk el) = true) ->
  article_map article
  = _parse_body_into_map article (_parse_abstract_into_map article [])
  /\ (paragraphs_for "Title"
        (abstract_entries article ++ body_entries_of article) = [] ->
      Dict.get (article_map article) "Title" = None).
Proof.
  intros Hblank.
  assert (E : _txt (title_el article) = "").
  { destruct (title_el article) as [el|]; [|reflexivity].
    apply normalize_empty_iff. apply Hblank. reflexivity. }
  assert (Hmap : article_map article
                 = _parse_body_into_map article
                     (_parse_abstract_into_map article [])).
  { unfold article_map. rewrite E. reflexivity. }
  split; [exact Hmap|].
  intros Hnone. rewrite Hmap.
  rewrite parse_body_entries_of, parse_abstract_entries, <- add_all_app.
  rewrite get_add_all, Hnone. reflexivity.
Qed.

Lemma X11_blank_title_gives_no_entry_witness :
  Xml.fromstring doc_blank_title = Some tree_blank_title
  /\ title_el tree_blank_title = Some elem_blank_title
  /\ article_map tree_blank_title = [("S", ["in"])]
  /\ Dict.get (article_map tree_blank_title) "Title" = None.
Proof.
  split; [vm_compute; reflexivity|].
  split; [reflexivity|].
  assert (H : forall el, title_el tree_blank_title = Some el ->
                         forallb PyStr.blank (walk el) = true).
  { intros el E. inversion E; subst. reflexivity. }
  split.
  - rewrite (proj1 (X11_blank_title_gives_no_entry tree_blank_title H)).
    reflexivity.
  - apply (proj2 (X11_blank_title_gives_no_entry tree_blank_title H)).
    reflexivity.
Defined.

(** ** What the extractor does not read *)

Lemma findall_drop_child t rest a x l cs1 c cs2 :
  tag c <> t ->
  EPath.findall (t :: rest) (Elem a x l (cs1 ++ c :: cs2))
  = EPath.findall (t :: rest) (Elem a x l (cs1 ++ cs2)).
Proof.
  intros Hc. simpl. rewrite !filter_app. simpl.
  apply String.eqb_neq in Hc. rewrite Hc. reflexivity.
Qed.

(** X12.  Of the children of the article element the extractor reads
    those tagged front and body and no other: deleting a child with any
    other tag (the back matter with its reference list, for one) leaves
    the map unchanged. *)
Theorem X12_other_children_of_article_ignored
        (atag : string) (atext atail : option string)
        (cs1 cs2 : list Element) (c : Element) :
  tag c <> "front" ->
  tag c <> "body" ->
  article_map (Elem atag atext atail (cs1 ++ c :: cs2))
  = article_map (Elem atag atext atail (cs1 ++ cs2)).
Proof.
  intros Hf Hb.
  unfold article_map, title_el, _parse_abstract_into_map,
    _parse_body_into_map, EPath.find.
  rewrite !(findall_drop_child "front" _ atag atext atail cs1 c cs2 Hf).
  rewrite (findall_drop_child "body" _ atag atext atail cs1 c cs2 Hb).
  reflexivity.
Qed.

Lemma X12_other_children_of_article_ignored_witness :
  article_map (Elem "article" None None
                    (children tree_example ++ elem_back :: []))
  = article_map (Elem "article" None None (children tree_example ++ [])).
Proof.
  apply (X12_other_children_of_article_ignored
           "article" None None (children tree_example) [] elem_back);
    discriminate.
Defined.

(* ================================================================== *)
(** * Properties of the callers *)

Section GetterProperties.

Variable requests_get : string -> list (string * string) -> Outcome Response.
Variable fromstring : string -> option Element.

Lemma get_returns url params xml :
  _get requests_get url params = Returns xml
  <-> exists r, requests_get url params = Returns r
                /\ ((status_code r < 400) \/ (600 <= status_code r))
                /\ resp_text r = xml.
Proof.
  unfold _get, raise_for_status.
  destruct (requests_get url params) as [r|e].
  - destruct ((400 <=? status_code r)%nat && (status_code r <? 600)%nat)
      eqn:E.
    + split; [discriminate|]. intros [r' [Hr [Hs _]]].
      inversion Hr; subst r'.
      apply andb_prop in E as [E1 E2].
      apply Nat.leb_le in E1. apply Nat.ltb_lt in E2. lia.
    + split.
      * intros H. inversion H; subst. exists r. split; [reflexivity|].
        split; [|reflexivity].
        apply andb_false_iff in E as [E | E].
        -- apply Nat.leb_gt in E. left. exact E.
        -- apply Nat.ltb_ge in E. right. exact E.
      * intros [r' [Hr [_ Hx]]]. inversion Hr; subst. reflexivity.
  - split; [discriminate|]. intros [r [Hr _]]. discriminate Hr.
Qed.

(** X13.  Each of the two public getters returns a map in one case only:
    the request went through, the status of the answer lies outside
    400..599, and the text of the answer parses; the map is then the one
    the extractor builds from the parsed root.  In every other case the
    getter raises: it has no way of returning an empty or partial map for
    a failed download. *)
Theorem X13_getters_return_only_parsed_payloads (pmcid : string) (m : Store) :
  (get_epmc_text_my requests_get fromstring pmcid = Returns m
   <-> exists r root,
        requests_get ("https://www.ebi.ac.uk/europepmc/webservices/rest/"
                        ++ pmcid ++ "/fullTextXML") [] = Returns r
        /\ ((status_code r < 400) \/ (600 <= status_code r))
        /\ fromstring (resp_text r) = Some root
        /\ m = section_map_of_root root)
  /\ (get_ncbi_text_my requests_get fromstring pmcid = Returns m
      <-> exists r root,
           requests_get
             "https://eutils.ncbi.nlm.nih.gov/entrez/eutils/efetch.fcgi"
             [("db", "pmc"); ("id", pmcid); ("retmode", "xml")] = Returns r
           /\ ((status_code r < 400) \/ (600 <= status_code r))
           /\ fromstring (resp_text r) = Some root
           /\ m = section_map_of_root root).
Proof.
  assert (H : forall url params,
             match _get requests_get url params with
             | Raises e => Raises e
             | Returns xml => _jats_to_section_paragraph_map fromstring xml
             end = Returns m
             <-> exists r root,
                  requests_get url params = Returns r
                  /\ ((status_code r < 400) \/ (600 <= status_code r))
                  /\ fromstring (resp_text r) = Some root
                  /\ m = section_map_of_root root).
  { intros url params. split.
    - destruct (_get requests_get url params) as [xml|e] eqn:G;
        [|discriminate].
      apply get_returns in G as [r [Hr [Hs Hx]]].
      unfold _jats_to_section_paragraph_map.
      destruct (fromstring xml) as [root|] eqn:P; [|discriminate].
      intros H. inversion H; subst.
      exists r, root. repeat split; assumption.
    - intros [r [root [Hr [Hs [Hp ->]]]]].
      assert (G : _get requests_get url params = Returns (resp_text r)).
      { apply get_returns. exists r. repeat split; assumption. }
      rewrite G. unfold _jats_to_section_paragraph_map. rewrite Hp.
      reflexivity. }
  split; apply H.
Qed.

End GetterProperties.

Section FetchProperties.

Import Fetch.

Variable is_request_exception : string -> bool.
Variable requests_get : string -> list (string * string) -> Outcome Response.
Variable fromstring : string -> option Element.
Variable get_ncbi_text : string -> option (list Passage).
Variable get_epmc_text : string -> option Store.
Variable pmid_to_apa : string -> Outcome (string * string).
Variable get_max_records : string -> Outcome nat.

Let text_of' := text_of requests_get fromstring get_ncbi_text get_epmc_text.
Let for_records' :=
  for_records requests_get fromstring get_ncbi_text get_epmc_text pmid_to_apa.
Let while_pages' :=
  while_pages is_request_exception requests_get fromstring get_ncbi_text
              get_epmc_text pmid_to_apa.
Let fetch' :=
  fetch is_request_exception requests_get fromstring get_ncbi_text
        get_epmc_text pmid_to_apa get_max_records.

Lemma text_of_safe source pmcid :
  source_is_safe source = true ->
  exists text, text_of' source pmcid = Returns text.
Proof.
  unfold text_of', text_of, source_is_safe.
  destruct source as [s|]; [|intros _; exists TextNone; reflexivity].
  destruct pmcid as [p|]; [|intros _; exists TextNone; reflexivity].
  intros H. apply negb_true_iff, orb_false_iff in H as [H1 H2].
  rewrite H1, H2.
  destruct (String.eqb s "ncbi"); [eexists; reflexivity|].
  destruct (String.eqb s "epmc"); eexists; reflexivity.
Qed.

Lemma named_cons record records :
  named (record :: records)
  = (if has_file_id record then 1 else 0) + named records.
Proof. unfold named. cbn [filter]. destruct (has_file_id record); reflexivity. Qed.

(** What one round of the inner loop adds when no text getter can
    raise. *)
Lemma for_records_count dir m source records : forall st,
  source_is_safe source = true ->
  exists st',
    for_records' dir m source records st = Done st'
    /\ records_fetched st'
       = records_fetched st + page_share m (records_fetched st) records
    /\ List.length (written st')
       = List.length (written st)
         + page_share m (records_fetched st) records
    /\ cursors st' = cursors st.
Proof.
  intros st Hsafe. revert st.
  induction records as [|record rest IH]; intros st.
  - exists st. unfold page_share, named. cbn. repeat split; lia.
  - unfold for_records'. cbn [for_records]. fold for_records'.
    unfold page_share. rewrite named_cons. unfold has_file_id.
    destruct (py_or (py_or (r_pmcid record) (r_pmid record)) (r_id record))
      as [file_id|].
    + destruct (text_of_safe source (r_pmcid record) Hsafe) as [text Ht].
      fold text_of'. rewrite Ht. cbn [records_fetched].
      destruct (m <=? records_fetched st + 1)%nat eqn:E.
      * eexists. split; [reflexivity|]. cbn [records_fetched written cursors].
        rewrite length_app. cbn [List.length].
        apply Nat.leb_le in E. repeat split; lia.
      * apply Nat.leb_gt in E.
        destruct (IH (mkState (records_fetched st + 1)
                              (written st
                                 ++ [(path_join dir (file_id ++ ".json"),
                                      output_record record
                                        (citation_of pmid_to_apa
                                                     (r_pmid record))
                                        text)])
                              (cursors st)))
          as [st' [Hrun [Hn [Hw Hc]]]].
        exists st'. split; [exact Hrun|].
        cbn [records_fetched written cursors] in Hn, Hw, Hc.
        rewrite length_app in Hw. cbn [List.length] in Hw.
        unfold page_share in Hn, Hw. repeat split; [lia | lia | exact Hc].
    + destruct (IH st) as [st' [Hrun [Hn [Hw Hc]]]].
      exists st'. split; [exact Hrun|].
      unfold page_share in Hn, Hw. repeat split; [lia | lia | exact Hc].
Qed.

Lemma while_pages_count dir m source last pages : forall cursor st,
  source_is_safe source = true ->
  forallb goes_on pages = true ->
  results last = [] ->
  exists st',
    while_pages' dir m source (map Returns pages ++ [Returns last]) cursor st
    = Done st'
    /\ records_fetched st' = saved_after m (records_fetched st) pages
    /\ List.length (written st') + records_fetched st
       = List.length (written st) + records_fetched st'
    /\ cursors st' = cursors st ++ cursor :: map cursor_of pages.
Proof.
  intros cursor st Hsafe Hgo Hlast. revert cursor st.
  induction pages as [|page later IH]; intros cursor st.
  - unfold while_pages'. cbn [map app while_pages]. rewrite Hlast.
    eexists. split; [reflexivity|].
    cbn [records_fetched written cursors saved_after map]. repeat split; lia.
  - cbn [forallb] in Hgo. apply andb_prop in Hgo as [Hpage Hlater].
    unfold goes_on in Hpage. apply andb_prop in Hpage as [Hres Hcur].
    unfold while_pages'. cbn [map app while_pages]. fold while_pages'.
    destruct (results page) as [|r rs] eqn:Er; [discriminate Hres|].
    fold for_records'.
    destruct (for_records_count dir m source (r :: rs)
                (mkState (records_fetched st) (written st)
                         (cursors st ++ [cursor])) Hsafe)
      as [st1 [Hrun [Hn [Hw Hc]]]].
    rewrite Hrun.
    destruct (nextCursorMark page) as [c|] eqn:Ec; [|discriminate Hcur].
    cbn [truthy_opt] in Hcur. rewrite Hcur.
    destruct (IH Hlater c st1) as [st' [Hrun' [Hn' [Hw' Hc']]]].
    exists st'. split; [exact Hrun'|].
    cbn [records_fetched written cursors] in Hn, Hw, Hc.
    cbn [saved_after map]. rewrite Er.
    rewrite Hn in Hn'. repeat split; [exact Hn' | lia |].
    rewrite Hc', Hc, <- app_assoc. unfold cursor_of at 2. rewrite Ec.
    reflexivity.
Qed.

(** X14.  A run that no text getter can abort, over pages that each hold
    records and a cursor for the next page and that end with an empty
    page: the run ends normally; the cursors it sent are "*" and then the
    cursor each page gave; one file is written per record counted; and
    each page adds to the count the records that get a file name, cut at
    what is missing to [max_records] but never at less than one. *)
Theorem X14_fetch_counts_page_by_page
        (query dir : string) (m : nat) (source : option string)
        (pages : list SearchResponse) (last : SearchResponse) :
  source_is_safe source = true ->
  forallb goes_on pages = true ->
  results last = [] ->
  exists st,
    fetch' query dir (Some m) source (map Returns pages ++ [Returns last])
    = Done st
    /\ records_fetched st = saved_after m 0 pages
    /\ List.length (written st) = records_fetched st
    /\ cursors st = "*" :: map cursor_of pages.
Proof.
  intros Hsafe Hgo Hlast.
  destruct (while_pages_count dir m source last pages "*" (mkState 0 [] [])
              Hsafe Hgo Hlast) as [st [Hrun [Hn [Hw Hc]]]].
  exists st. split; [exact Hrun|].
  cbn [records_fetched written cursors List.length app] in Hn, Hw, Hc.
  repeat split; [exact Hn | lia | exact Hc].
Qed.

Lemma saved_after_reached m later : forall f,
  m <= f ->
  (forall page, In page later -> 1 <= named (results page)) ->
  saved_after m f later = f + List.length later.
Proof.
  induction later as [|page later IH]; intros f Hm Hnamed.
  - cbn. lia.
  - cbn [saved_after List.length].
    assert (Hp : 1 <= named (results page))
      by (apply Hnamed; left; reflexivity).
    assert (Hs : page_share m f (results page) = 1)
      by (unfold page_share; lia).
    rewrite Hs, IH; [lia | lia |].
    intros p Hin. apply Hnamed. right. exact Hin.
Qed.

(** X15.  [max_records] does not bound a run.  Once the count has reached
    [max_records] the inner loop is left, but the outer loop goes on to
    the next page, and each further page that has a record with a file
    name adds one record: when the first page holds at least [max_records]
    such records, the run saves [max_records] records and one more for
    every further page. *)
Theorem X15_fetch_exceeds_max_records
        (query dir : string) (m : nat) (source : option string)
        (first : SearchResponse) (later : list SearchResponse)
        (last : SearchResponse) :
  source_is_safe source = true ->
  forallb goes_on (first :: later) = true ->
  results last = [] ->
  1 <= m <= named (results first) ->
  (forall page, In page later -> 1 <= named (results page)) ->
  exists st,
    fetch' query dir (Some m) source
           (map Returns (first :: later) ++ [Returns last])
    = Done st
    /\ records_fetched st = m + List.length later
    /\ List.length (written st) = m + List.length later.
Proof.
  intros Hsafe Hgo Hlast Hm Hnamed.
  destruct (while_pages_count dir m source last (first :: later) "*"
              (mkState 0 [] []) Hsafe Hgo Hlast) as [st [Hrun [Hn [Hw _]]]].
  exists st. split; [exact Hrun|].
  cbn [records_fetched written List.length saved_after] in Hn, Hw.
  assert (Hs : page_share m 0 (results first) = m)
    by (unfold page_share; lia).
  rewrite Hs in Hn. cbn [Nat.add] in Hn.
  rewrite saved_after_reached in Hn; [|lia|exact Hnamed].
  split; lia.
Qed.

(** The inner loop over records that are saved without reaching
    [max_records]. *)
Lemma for_records_prefix dir m source pre more : forall st,
  (forall x, In x pre ->
             exists text, text_of' source (r_pmcid x) = Returns text) ->
  records_fetched st + named pre < m ->
  exists st1,
    for_records' dir m source (pre ++ more) st
    = for_records' dir m source more st1
    /\ records_fetched st1 = records_fetched st + named pre
    /\ (exists files,
           written st1 = written st ++ files
           /\ List.length files = named pre)
    /\ cursors st1 = cursors st.
Proof.
  induction pre as [|x pre IH]; intros st Htext Hm.
  - exists st. cbn [app]. unfold named. cbn. split; [reflexivity|].
    split; [lia|]. split; [|reflexivity].
    exists []. rewrite app_nil_r. split; reflexivity.
  - rewrite named_cons in Hm |- *.
    cbn [app]. unfold for_records' at 1. cbn [for_records].
    fold for_records'. fold text_of'. unfold has_file_id in *.
    destruct (py_or (py_or (r_pmcid x) (r_pmid x)) (r_id x)) as [file_id|].
    + destruct (Htext x (or_introl eq_refl)) as [text Ht]. rewrite Ht.
      cbn [records_fetched].
      replace (m <=? records_fetched st + 1)%nat with false
        by (symmetry; apply Nat.leb_gt; lia).
      destruct (IH (mkState (records_fetched st + 1)
                            (written st
                               ++ [(path_join dir (file_id ++ ".json"),
                                    output_record x
                                      (citation_of pmid_to_apa (r_pmid x))
                                      text)])
                            (cursors st)))
        as [st1 [Hrun [Hn [[files [Hw Hl]] Hc]]]].
      * intros y Hy. apply Htext. right. exact Hy.
      * cbn [records_fetched]. lia.
      * exists st1. split; [exact Hrun|].
        cbn [records_fetched written cursors] in Hn, Hw, Hc.
        split; [lia|]. split; [|exact Hc].
        eexists. rewrite Hw, <- app_assoc. split; [reflexivity|].
        cbn [app List.length]. lia.
    + destruct (IH st) as [st1 [Hrun [Hn [Hw Hc]]]].
      * intros y Hy. apply Htext. right. exact Hy.
      * lia.
      * exists st1. split; [exact Hrun|]. split; [lia|].
        split; [exact Hw | exact Hc].
Qed.

(** X16.  With the source "epmc_my" or "ncbi_my", nothing catches what
    the getter raises (an HTTP error, or the parse error of the
    extractor): the run ends with that exception at the first record
    whose full text cannot be fetched.  The files of the records before it
    are written, no file is written for it, and the records behind it and
    the further pages are not looked at. *)
Theorem X16_fetch_aborts_when_my_getter_raises
        (query dir : string) (m : nat) (source pmcid exn : string)
        (pre rest : list SearchRecord) (record : SearchRecord)
        (page : SearchResponse)
        (later : list (Outcome SearchResponse)) :
  (source = "epmc_my"
   /\ get_epmc_text_my requests_get fromstring pmcid = Raises exn)
  \/ (source = "ncbi_my"
      /\ get_ncbi_text_my requests_get fromstring pmcid = Raises exn) ->
  results page = pre ++ record :: rest ->
  r_pmcid record = Some pmcid ->
  PyStr.truthy pmcid = true ->
  (forall x, In x pre ->
             exists text, text_of' (Some source) (r_pmcid x) = Returns text) ->
  named pre < m ->
  exists files,
    fetch' query dir (Some m) (Some source) (Returns page :: later)
    = Crashed exn (mkState (named pre) files ["*"])
    /\ List.length files = named pre.
Proof.
  intros Hraise Hres Hp Tp Hpre Hm.
  unfold fetch', fetch. cbn [while_pages]. fold for_records'.
  rewrite Hres. clear Hres.
  destruct (pre ++ record :: rest) as [|r0 rs] eqn:E;
    [destruct pre; discriminate E|]. rewrite <- E. clear E r0 rs.
  destruct (for_records_prefix dir m (Some source) pre (record :: rest)
              (mkState 0 [] ["*"]) Hpre)
    as [st1 [Hrun [Hn [[files [Hw Hl]] Hc]]]];
    [cbn [records_fetched]; lia|].
  cbn [records_fetched written cursors app] in Hn, Hw, Hc.
  exists files. split; [|exact Hl].
  cbn [records_fetched written cursors app]. rewrite Hrun.
  unfold for_records'. cbn [for_records]. rewrite Hp.
  unfold py_or at 2. cbn [truthy_opt]. rewrite Tp.
  unfold py_or. cbn [truthy_opt]. rewrite Tp.
  assert (Ht : text_of' (Some source) (Some pmcid) = Raises exn).
  { unfold text_of', text_of.
    destruct Hraise as [[-> Hr] | [-> Hr]]; cbn; rewrite Hr; reflexivity. }
  unfold text_of' in Ht. rewrite Ht.
  destruct st1 as [n w c]. cbn [records_fetched written cursors] in *.
  subst. reflexivity.
Qed.

Lemma for_records_never_crashes dir m source records : forall st e st',
  source_is_safe source = true ->
  for_records' dir m source records st <> Crashed e st'.
Proof.
  intros st e st' Hsafe.
  destruct (for_records_count dir m source records st Hsafe)
    as [st1 [Hrun _]].
  rewrite Hrun. discriminate.
Qed.

(** X17.  With the source "ncbi" or "epmc", with an unknown source or
    with none, no full text that cannot be fetched ends a run: the only
    exception that can end it is one that the search request itself
    raises and that is no request exception. *)
Theorem X17_safe_sources_never_abort
        (dir : string) (m : nat) (source : option string)
        (answers : list (Outcome SearchResponse)) :
  source_is_safe source = true ->
  forall cursor st exn st',
    while_pages' dir m source answers cursor st = Crashed exn st' ->
    In (Raises exn) answers /\ is_request_exception exn = false.
Proof.
  intros Hsafe. induction answers as [|answer later IH];
    intros cursor st exn st' H.
  - discriminate H.
  - unfold while_pages' in H. cbn [while_pages] in H. fold while_pages' in H.
    destruct answer as [data|e].
    + destruct (results data) as [|r rs] eqn:Er; [discriminate H|].
      fold for_records' in H.
      destruct (for_records_count dir m source (r :: rs)
                  (mkState (records_fetched st) (written st)
                           (cursors st ++ [cursor])) Hsafe)
        as [st1 [Hrun _]].
      rewrite Hrun in H.
      destruct (nextCursorMark data) as [c|]; [|discriminate H].
      destruct (PyStr.truthy c); [|discriminate H].
      destruct (IH c st1 exn st' H) as [Hin Hne].
      split; [right; exact Hin | exact Hne].
    + destruct (is_request_exception e) eqn:E; [discriminate H|].
      inversion H; subst. split; [left; reflexivity | exact E].
Qed.


End FetchProperties.

(** ** The properties of the callers at an example *)

Lemma X13_getters_return_only_parsed_payloads_witness :
  (exists r root,
      Sample.requests_get
        ("https://www.ebi.ac.uk/europepmc/webservices/rest/"
           ++ "PMC1" ++ "/fullTextXML") [] = Returns r
      /\ ((status_code r < 400) \/ (600 <= status_code r))
      /\ Xml.fromstring (resp_text r) = Some root
      /\ section_map_of_root tree_example = section_map_of_root root)
  /\ get_epmc_text_my Sample.requests_get Xml.fromstring "PMC1"
     = Returns (section_map_of_root tree_example).
Proof.
  assert (H : exists r root,
             Sample.requests_get
               ("https://www.ebi.ac.uk/europepmc/webservices/rest/"
                  ++ "PMC1" ++ "/fullTextXML") [] = Returns r
             /\ ((status_code r < 400) \/ (600 <= status_code r))
             /\ Xml.fromstring (resp_text r) = Some root
             /\ section_map_of_root tree_example = section_map_of_root root).
  { exists (mkResponse 200 doc_example), tree_example.
    split; [reflexivity|]. split; [left; cbn; lia|].
    split; [vm_compute; reflexivity | reflexivity]. }
  split; [exact H|].
  exact (proj2 (proj1 (X13_getters_return_only_parsed_payloads
                         Sample.requests_get Xml.fromstring "PMC1"
                         (section_map_of_root tree_example))) H).
Defined.

Lemma X14_fetch_counts_page_by_page_witness :
  exists st,
    Sample.fetch "q" "out" (Some 1) None
      (map Returns [Sample.page_two; Sample.page_one "c2"]
         ++ [Returns Sample.page_empty])
    = Fetch.Done st
    /\ Fetch.records_fetched st = 2
    /\ List.length (Fetch.written st) = Fetch.records_fetched st
    /\ Fetch.cursors st = ["*"; "c1"; "c2"].
Proof.
  exact (X14_fetch_counts_page_by_page
           Sample.is_request_exception Sample.requests_get Xml.fromstring Sample.get_ncbi_text
           Sample.get_epmc_text Sample.pmid_to_apa Sample.get_max_records
           "q" "out" 1 None [Sample.page_two; Sample.page_one "c2"]
           Sample.page_empty eq_refl eq_refl eq_refl).
Defined.

Lemma X15_fetch_exceeds_max_records_witness :
  exists st,
    Sample.fetch "q" "out" (Some 1) None
      (map Returns [Sample.page_two; Sample.page_one "c2";
                    Sample.page_one "c3"]
         ++ [Returns Sample.page_empty])
    = Fetch.Done st
    /\ Fetch.records_fetched st = 1 + 2
    /\ List.length (Fetch.written st) = 1 + 2.
Proof.
  apply (X15_fetch_exceeds_max_records
           Sample.is_request_exception Sample.requests_get Xml.fromstring Sample.get_ncbi_text
           Sample.get_epmc_text Sample.pmid_to_apa Sample.get_max_records
           "q" "out" 1 None Sample.page_two
           [Sample.page_one "c2"; Sample.page_one "c3"]
           Sample.page_empty eq_refl eq_refl eq_refl).
  - cbn. lia.
  - intros page [<- | [<- | []]]; cbn; lia.
Defined.

Lemma X16_fetch_aborts_when_my_getter_raises_witness :
  get_epmc_text_my Sample.requests_get Xml.fromstring "PMC2"
  = Raises "ParseError"
  /\ exists files,
       Sample.fetch "q" "out" (Some 5) (Some "epmc_my")
         [Returns Sample.page_two; Returns Sample.page_empty]
       = Fetch.Crashed "ParseError" (Fetch.mkState 1 files ["*"])
       /\ List.length files = 1.
Proof.
  assert (Hraise : get_epmc_text_my Sample.requests_get Xml.fromstring "PMC2"
                   = Raises "ParseError") by (vm_compute; reflexivity).
  split; [exact Hraise|].
  apply (X16_fetch_aborts_when_my_getter_raises
           Sample.is_request_exception Sample.requests_get Xml.fromstring Sample.get_ncbi_text
           Sample.get_epmc_text Sample.pmid_to_apa Sample.get_max_records
           "q" "out" 5 "epmc_my" "PMC2" "ParseError"
           [Sample.record_of "PMC1"] [] (Sample.record_of "PMC2")
           Sample.page_two [Returns Sample.page_empty]).
  - left. split; [reflexivity | exact Hraise].
  - reflexivity.
  - reflexivity.
  - reflexivity.
  - intros x [<- | []]. eexists. vm_compute. reflexivity.
  - cbn. lia.
Defined.

Lemma X17_safe_sources_never_abort_witness :
  Fetch.while_pages Sample.is_request_exception Sample.requests_get
                    Xml.fromstring Sample.get_ncbi_text
                    Sample.get_epmc_text Sample.pmid_to_apa
                    "out" 5 (Some "epmc")
                    [Returns Sample.page_two; Raises "ValueError"] "*"
                    (Fetch.mkState 0 [] [])
  = Fetch.Crashed "ValueError"
      (Fetch.mkState 2
         [("out/PMC1.json",
           Fetch.output_record (Sample.record_of "PMC1") (None, None)
                               Fetch.TextNone);
          ("out/PMC2.json",
           Fetch.output_record (Sample.record_of "PMC2") (None, None)
                               Fetch.TextNone)]
         ["*"; "c1"])
  /\ In (Raises "ValueError")
        [Returns Sample.page_two; Raises "ValueError"]
  /\ Sample.is_request_exception "ValueError" = false.
Proof.
  assert (H : Fetch.while_pages
                Sample.is_request_exception
                Sample.requests_get Xml.fromstring Sample.get_ncbi_text
                Sample.get_epmc_text Sample.pmid_to_apa
                "out" 5 (Some "epmc")
                [Returns Sample.page_two; Raises "ValueError"] "*"
                (Fetch.mkState 0 [] [])
              = Fetch.Crashed "ValueError"
                  (Fetch.mkState 2
                     [("out/PMC1.json",
                       Fetch.output_record (Sample.record_of "PMC1")
                                           (None, None) Fetch.TextNone);
                      ("out/PMC2.json",
                       Fetch.output_record (Sample.record_of "PMC2")
                                           (None, None) Fetch.TextNone)]
                     ["*"; "c1"]))
    by (vm_compute; reflexivity).
  split; [exact H|].
  exact (X17_safe_sources_never_abort
           Sample.is_request_exception Sample.requests_get Xml.fromstring Sample.get_ncbi_text
           Sample.get_epmc_text Sample.pmid_to_apa
           "out" 5 (Some "epmc")
           [Returns Sample.page_two; Raises "ValueError"]
           eq_refl "*" (Fetch.mkState 0 [] []) _ _ H).
Defined.

(* ================================================================== *)
(** * Properties of [get_epmc_text] *)

Section Regroup.

Import Epmc.

Section Distinct.

Variable A : Type.
Variable eqb : A -> A -> bool.
Hypothesis eqb_spec : forall x y, eqb x y = true <-> x = y.

Lemma existsb_eqb x l : existsb (eqb x) l = true <-> In x l.
Proof.
  rewrite existsb_exists. split.
  - intros [y [Hy E]]. apply eqb_spec in E. subst y. exact Hy.
  - intros H. exists x. split; [exact H | apply eqb_spec; reflexivity].
Qed.

Lemma distinct_snoc l x :
  distinct eqb (l ++ [x]) = collect_key eqb (distinct eqb l) x.
Proof. unfold distinct. rewrite fold_left_app. reflexivity. Qed.

Lemma in_collect_key acc x y :
  In y (collect_key eqb acc x) <-> In y acc \/ y = x.
Proof.
  unfold collect_key. destruct (existsb (eqb x) acc) eqn:E.
  - apply existsb_eqb in E. split; [left; assumption|].
    intros [H | ->]; assumption.
  - rewrite in_app_iff. cbn. split.
    + intros [H | [<- | []]]; [left; exact H | right; reflexivity].
    + intros [H | ->]; [left; exact H | right; left; reflexivity].
Qed.

Lemma in_distinct l y : In y (distinct eqb l) <-> In y l.
Proof.
  induction l as [|x l IH] using rev_ind.
  - reflexivity.
  - rewrite distinct_snoc, in_collect_key, IH, in_app_iff. cbn. split.
    + intros [H | ->]; [left; exact H | right; left; reflexivity].
    + intros [H | [<- | []]]; [left; exact H | right; reflexivity].
Qed.

Lemma nodup_collect_key acc x : NoDup acc -> NoDup (collect_key eqb acc x).
Proof.
  intros H. unfold collect_key. destruct (existsb (eqb x) acc) eqn:E;
    [exact H|].
  apply NoDup_app; [exact H | repeat constructor; intros [] |].
  intros y Hy [<- | []].
  apply existsb_eqb in Hy. rewrite Hy in E. discriminate E.
Qed.

Lemma nodup_distinct l : NoDup (distinct eqb l).
Proof.
  induction l as [|x l IH] using rev_ind.
  - constructor.
  - rewrite distinct_snoc. apply nodup_collect_key. exact IH.
Qed.

End Distinct.

Lemma string_eqb_spec x y : String.eqb x y = true <-> x = y.
Proof. apply String.eqb_eq. Qed.

Lemma z_eqb_spec x y : Z.eqb x y = true <-> x = y.
Proof. apply Z.eqb_eq. Qed.

(** The dictionary of paragraphs after one more sentence. *)
Lemma append_sentence_map (G G' : Z -> list string) idx text : forall I,
  NoDup I ->
  (forall i, i <> idx -> G' i = G i) ->
  G' idx = G idx ++ [text] ->
  (~ In idx I -> G idx = []) ->
  append_sentence (map (fun i => (i, G i)) I) idx text
  = map (fun i => (i, G' i)) (collect_key Z.eqb I idx).
Proof.
  intros I Hnd Hother Hidx Hnew. unfold collect_key.
  induction I as [|j I IH].
  - cbn. rewrite Hidx, Hnew by (intros []). reflexivity.
  - inversion Hnd as [|? ? Hj HndI]; subst.
    cbn [map append_sentence existsb]. rewrite (Z.eqb_sym idx j).
    destruct (Z.eqb j idx) eqn:E; cbn [orb].
    + apply Z.eqb_eq in E. subst j. cbn [map]. rewrite Hidx. f_equal.
      apply map_ext_in. intros i Hi. rewrite Hother; [reflexivity|].
      intros ->. contradiction.
    + apply Z.eqb_neq in E.
      rewrite IH; [|exact HndI|].
      * destruct (existsb (Z.eqb idx) I); cbn [map app];
          rewrite (Hother j E); reflexivity.
      * intros Hn. apply Hnew. intros [-> | H]; [apply E; reflexivity|].
        contradiction.
Qed.

(** The dictionary of sections after one more row. *)
Lemma add_row_map (F F' : string -> ParagraphDict) row : forall S,
  NoDup S ->
  (forall s, s <> row_section row -> F' s = F s) ->
  F' (row_section row)
  = append_sentence (F (row_section row)) (row_paragraph row) (row_text row) ->
  (~ In (row_section row) S -> F (row_section row) = []) ->
  add_row (map (fun s => (s, F s)) S) row
  = map (fun s => (s, F' s)) (collect_key String.eqb S (row_section row)).
Proof.
  intros S Hnd Hother Hsec Hnew. unfold collect_key.
  induction S as [|s S IH].
  - cbn. rewrite Hsec, Hnew by (intros []). reflexivity.
  - inversion Hnd as [|? ? Hs HndS]; subst.
    cbn [map add_row existsb]. rewrite (String.eqb_sym (row_section row) s).
    destruct (String.eqb s (row_section row)) eqn:E; cbn [orb].
    + apply String.eqb_eq in E. subst s. cbn [map]. rewrite Hsec. f_equal.
      apply map_ext_in. intros t Ht. rewrite Hother; [reflexivity|].
      intros ->. contradiction.
    + apply String.eqb_neq in E.
      rewrite IH; [|exact HndS|].
      * destruct (existsb (String.eqb (row_section row)) S); cbn [map app];
          rewrite (Hother s E); reflexivity.
      * intros Hn. apply Hnew. intros [-> | H]; [apply E; reflexivity|].
        contradiction.
Qed.

Lemma sentences_of_snoc rows row s i :
  sentences_of (rows ++ [row]) s i
  = sentences_of rows s i
    ++ (if in_paragraph s i row then [row_text row] else []).
Proof.
  unfold sentences_of. rewrite filter_app, map_app. cbn [filter].
  destruct (in_paragraph s i row); reflexivity.
Qed.

Lemma indices_of_snoc rows row s :
  indices_of (rows ++ [row]) s
  = if in_section s row
    then collect_key Z.eqb (indices_of rows s) (row_paragraph row)
    else indices_of rows s.
Proof.
  unfold indices_of. rewrite filter_app. cbn [filter].
  destruct (in_section s row).
  - rewrite map_app. cbn [map]. apply distinct_snoc.
  - rewrite app_nil_r. reflexivity.
Qed.

Lemma in_indices_of rows s i :
  In i (indices_of rows s)
  <-> exists row, In row rows /\ row_section row = s /\ row_paragraph row = i.
Proof.
  unfold indices_of. rewrite (in_distinct _ _ z_eqb_spec), in_map_iff.
  split.
  - intros [row [Hi Hin]]. apply filter_In in Hin as [Hin Hs].
    exists row. repeat split; [exact Hin | | exact Hi].
    apply String.eqb_eq. exact Hs.
  - intros [row [Hin [Hs Hi]]]. exists row. split; [exact Hi|].
    apply filter_In. split; [exact Hin|]. apply String.eqb_eq. exact Hs.
Qed.

Lemma sentences_of_none rows s i :
  ~ In i (indices_of rows s) -> sentences_of rows s i = [].
Proof.
  intros Hn. unfold sentences_of.
  rewrite (filter_no_match (in_paragraph s i) rows); [reflexivity|].
  intros row Hin. unfold in_paragraph.
  destruct (String.eqb (row_section row) s) eqn:Es; [|reflexivity].
  destruct (Z.eqb (row_paragraph row) i) eqn:Ei; [|reflexivity].
  exfalso. apply Hn. apply in_indices_of. exists row.
  repeat split; [exact Hin | apply String.eqb_eq; exact Es
                 | apply Z.eqb_eq; exact Ei].
Qed.

Lemma in_sections_of rows s :
  In s (sections_of rows) <-> exists row, In row rows /\ row_section row = s.
Proof.
  unfold sections_of. rewrite (in_distinct _ _ string_eqb_spec), in_map_iff.
  split; intros [row [H1 H2]]; exists row; split; assumption.
Qed.

(** The first pass leaves, for each section in the order of its first
    row, the paragraph indices in the order of their first row, each with
    its sentences in row order. *)
Lemma text_dict_spec rows :
  text_dict rows
  = map (fun s => (s, map (fun i => (i, sentences_of rows s i))
                          (indices_of rows s)))
        (sections_of rows).
Proof.
  induction rows as [|row rows IH] using rev_ind; [reflexivity|].
  unfold text_dict in *. rewrite fold_left_app. cbn [fold_left]. rewrite IH.
  unfold sections_of. rewrite map_app. cbn [map]. rewrite distinct_snoc.
  apply (add_row_map
           (fun s => map (fun i => (i, sentences_of rows s i))
                         (indices_of rows s))
           (fun s => map (fun i => (i, sentences_of (rows ++ [row]) s i))
                         (indices_of (rows ++ [row]) s))).
  - apply (nodup_distinct _ _ string_eqb_spec).
  - intros s Hs. rewrite indices_of_snoc.
    assert (E : in_section s row = false).
    { unfold in_section. apply String.eqb_neq. intros H. apply Hs.
      symmetry. exact H. }
    rewrite E. apply map_ext. intros i. rewrite sentences_of_snoc.
    unfold in_paragraph. unfold in_section in E. rewrite E.
    rewrite app_nil_r. reflexivity.
  - rewrite indices_of_snoc. unfold in_section. rewrite String.eqb_refl.
    symmetry. apply append_sentence_map.
    + apply (nodup_distinct _ _ z_eqb_spec).
    + intros i Hi. rewrite sentences_of_snoc. unfold in_paragraph.
      rewrite String.eqb_refl. cbn [andb].
      replace (Z.eqb (row_paragraph row) i) with false;
        [apply app_nil_r|].
      symmetry. apply Z.eqb_neq. intros H. apply Hi. symmetry. exact H.
    + rewrite sentences_of_snoc. unfold in_paragraph.
      rewrite String.eqb_refl, Z.eqb_refl. reflexivity.
    + apply sentences_of_none.
  - intros Hn. fold (sections_of rows) in Hn.
    assert (E : indices_of rows (row_section row) = []).
    { destruct (indices_of rows (row_section row)) as [|i l] eqn:E;
        [reflexivity|].
      exfalso. apply Hn. apply in_sections_of.
      assert (Hi : In i (indices_of rows (row_section row)))
        by (rewrite E; left; reflexivity).
      apply in_indices_of in Hi as [r [Hin [Hs _]]].
      exists r. split; assumption. }
    rewrite E. reflexivity.
Qed.

Lemma in_insert i j l : In j (insert i l) <-> j = i \/ In j l.
Proof.
  induction l as [|k l IH]; cbn.
  - split; [intros [<- | []]; left; reflexivity | intros [-> | []]; left; reflexivity].
  - destruct (Z.leb i k); cbn.
    + split; [intros [<- | H]; [left; reflexivity | right; exact H]
             | intros [-> | H]; [left; reflexivity | right; exact H]].
    + rewrite IH. split.
      * intros [<- | [-> | H]]; auto.
      * intros [-> | [<- | H]]; auto.
Qed.

Lemma in_sorted j l : In j (sorted l) <-> In j l.
Proof.
  induction l as [|i l IH]; [reflexivity|].
  cbn [sorted fold_right]. fold (sorted l). rewrite in_insert, IH. cbn.
  split; intros [H | H]; auto.
Qed.

Lemma insert_strictly_sorted i l :
  StronglySorted Z.lt l -> ~ In i l -> StronglySorted Z.lt (insert i l).
Proof.
  induction 1 as [|j l Hl IH Hj]; intros Hn.
  - repeat constructor.
  - cbn [insert]. destruct (Z.leb i j) eqn:E.
    + apply Z.leb_le in E.
      assert (Hij : (i < j)%Z).
      { destruct (Z.eq_dec i j) as [-> | Hne]; [|lia].
        exfalso. apply Hn. left. reflexivity. }
      constructor; [constructor; assumption|].
      constructor; [exact Hij|].
      rewrite Forall_forall in *. intros k Hk. specialize (Hj k Hk). lia.
    + apply Z.leb_gt in E.
      constructor.
      * apply IH. intros H. apply Hn. right. exact H.
      * rewrite Forall_forall in *. intros k Hk.
        apply in_insert in Hk as [-> | Hk]; [exact E | exact (Hj k Hk)].
Qed.

Lemma sorted_strictly l : NoDup l -> StronglySorted Z.lt (sorted l).
Proof.
  induction 1 as [|i l Hi Hnd IH]; [constructor|].
  cbn [sorted fold_right]. fold (sorted l).
  apply insert_strictly_sorted; [exact IH|].
  rewrite in_sorted. exact Hi.
Qed.

Lemma lookup_map (G : Z -> list string) idx : forall I,
  In idx I -> lookup (map (fun i => (i, G i)) I) idx = G idx.
Proof.
  induction I as [|j I IH]; intros Hin; [destruct Hin|].
  cbn [map lookup]. destruct (Z.eqb j idx) eqn:E.
  - apply Z.eqb_eq in E. subst j. reflexivity.
  - apply IH. destruct Hin as [-> | H]; [|exact H].
    rewrite Z.eqb_refl in E. discriminate E.
Qed.

Lemma regroup_spec rows :
  regroup rows
  = map (fun s =>
           (s, map (fun i => PyStr.join " " (sentences_of rows s i))
                   (sorted (indices_of rows s))))
        (sections_of rows).
Proof.
  unfold regroup, output_dict. rewrite text_dict_spec, map_map.
  apply map_ext. intros s. cbn [fst snd]. f_equal.
  unfold section_paragraphs. rewrite map_map. cbn [fst].
  rewrite map_id. apply map_ext_in. intros i Hi. f_equal.
  apply lookup_map. apply in_sorted. exact Hi.
Qed.

(** X18.  What [get_epmc_text] makes of the rows: one entry per section,
    in the order in which the sections first occur in the rows; under a
    section, one paragraph per paragraph index of the section, in
    ascending order of the index whatever the order of the rows; and each
    paragraph is the sentences of its rows, in row order, joined by single
    spaces. *)
Theorem X18_regroup_by_section_and_paragraph (rows : list Row) :
  regroup rows
  = map (fun s =>
           (s, map (fun i => PyStr.join " " (sentences_of rows s i))
                   (sorted (indices_of rows s))))
        (sections_of rows).
Proof. apply regroup_spec. Qed.

(** X19.  In the result of [get_epmc_text] no section occurs twice, and a
    section occurs exactly when a row names it; the paragraph indices
    used for a section are strictly ascending and are exactly the indices
    the rows of the section carry, so each section has as many paragraphs
    as it has different paragraph indices. *)
Theorem X19_regroup_sections_once_paragraphs_ascending (rows : list Row) :
  NoDup (map fst (regroup rows))
  /\ (forall s, In s (map fst (regroup rows))
                <-> exists row, In row rows /\ row_section row = s)
  /\ (forall s,
         StronglySorted Z.lt (sorted (indices_of rows s))
         /\ (forall i, In i (sorted (indices_of rows s))
                       <-> exists row, In row rows /\ row_section row = s
                                       /\ row_paragraph row = i))
  /\ (forall s ps, In (s, ps) (regroup rows) ->
                   List.length ps = List.length (indices_of rows s)
                   /\ ps <> []).
Proof.
  assert (Hkeys : map fst (regroup rows) = sections_of rows).
  { rewrite regroup_spec, map_map. cbn [fst]. apply map_id. }
  assert (Hins : forall i l, List.length (insert i l) = S (List.length l)).
  { intros i l. induction l as [|j l IH]; [reflexivity|].
    cbn [insert]. destruct (Z.leb i j); cbn [List.length];
      [reflexivity | rewrite IH; reflexivity]. }
  assert (Hlen : forall l, List.length (sorted l) = List.length l).
  { induction l as [|i l IH]; [reflexivity|].
    cbn [sorted fold_right]. fold (sorted l). rewrite Hins, IH.
    reflexivity. }
  rewrite Hkeys. split; [apply (nodup_distinct _ _ string_eqb_spec)|].
  split; [apply in_sections_of|]. split.
  - intros s. split.
    + apply sorted_strictly. apply (nodup_distinct _ _ z_eqb_spec).
    + intros i. rewrite in_sorted. apply in_indices_of.
  - intros s ps Hin. rewrite regroup_spec in Hin.
    apply in_map_iff in Hin as [s' [E Hs']]. inversion E; subst.
    rewrite length_map, Hlen. split; [reflexivity|].
    apply in_sections_of in Hs' as [row [Hrow Hs]].
    assert (Hi : In (row_paragraph row) (sorted (indices_of rows s))).
    { apply in_sorted, in_indices_of. exists row. repeat split; assumption. }
    destruct (sorted (indices_of rows s)); [destruct Hi | discriminate].
Qed.

End Regroup.

Lemma X19_regroup_sections_once_paragraphs_ascending_witness :
  Epmc.regroup rows_sample
  = [("Intro", ["a1. a2."; "b."]); ("Methods", ["m."])]
  /\ In ("Intro", ["a1. a2."; "b."]) (Epmc.regroup rows_sample)
  /\ List.length ["a1. a2."; "b."]
     = List.length (Epmc.indices_of rows_sample "Intro").
Proof.
  split; [vm_compute; reflexivity|].
  assert (Hin : In ("Intro", ["a1. a2."; "b."]) (Epmc.regroup rows_sample))
    by (vm_compute; auto).
  split; [exact Hin|].
  exact (proj1 (proj2 (proj2 (proj2
           (X19_regroup_sections_once_paragraphs_ascending rows_sample)))
           "Intro" ["a1. a2."; "b."] Hin)).
Defined.


(* ================================================================== *)
(** * Properties of the batching loop of [run] *)

Section BatchingProperties.

Import Notes.

Variable get_curator_notes_html : string -> Outcome (option string).
Variable get_text : string -> string.
Variable is_request_exception : string -> bool.
Variable write_parquet : list NoteRow -> Outcome unit.

Let fetch_notes' :=
  fetch_notes get_curator_notes_html get_text is_request_exception.
Let append_parquet' := append_parquet write_parquet.
Let for_genes' :=
  for_genes get_curator_notes_html get_text is_request_exception
            write_parquet.
Let flush' := flush write_parquet.
Let run' :=
  run get_curator_notes_html get_text is_request_exception write_parquet.
Let row_of' := row_of get_curator_notes_html get_text is_request_exception.
Let all_fetched' :=
  all_fetched get_curator_notes_html get_text is_request_exception.

(** The rows of the genes that are not yet in the output. *)
Let rows_of (done_ids genes : list string) : list NoteRow :=
  map row_of' (filter (is_new done_ids) genes).

Let old (done_ids genes : list string) : list string :=
  filter (fun g => negb (is_new done_ids g)) genes.

Lemma batch_rows_positive batch_size : 1 <= batch_rows batch_size.
Proof. unfold batch_rows. lia. Qed.

Lemma batch_rows_reached batch_size n :
  (batch_size <=? Z.of_nat n)%Z = true ->
  n < S (batch_rows batch_size) -> 1 <= n ->
  n = batch_rows batch_size \/ n < batch_rows batch_size.
Proof. unfold batch_rows. intros H%Z.leb_le. lia. Qed.

Lemma firstn_app_exact {A} (l1 l2 : list A) :
  firstn (List.length l1) (l1 ++ l2) = l1.
Proof.
  rewrite firstn_app, firstn_all, Nat.sub_diag. cbn [firstn].
  apply app_nil_r.
Qed.

Lemma skipn_app_exact {A} (l1 l2 : list A) :
  skipn (List.length l1) (l1 ++ l2) = l2.
Proof.
  rewrite skipn_app, skipn_all, Nat.sub_diag. reflexivity.
Qed.

(** One round of the loop for a gene that is in the output already. *)
Lemma for_genes_old batch_size out_exists done_ids gid rest st :
  is_new done_ids gid = false ->
  for_genes' batch_size out_exists done_ids (gid :: rest) st
  = for_genes' batch_size out_exists done_ids rest
      (mkRunState (rows_buffer st) (processed st) (skipped st + 1)
                  (batches st)).
Proof.
  unfold is_new. intros H%negb_false_iff.
  unfold for_genes'. cbn [for_genes]. rewrite H. reflexivity.
Qed.

(** One round of the loop for a new gene whose notes are fetched. *)
Lemma for_genes_new batch_size out_exists done_ids gid rest st :
  is_new done_ids gid = true ->
  (exists hp, fetch_notes' gid = Returns hp) ->
  for_genes' batch_size out_exists done_ids (gid :: rest) st
  = let buffer := rows_buffer st ++ [row_of' gid] in
    if (batch_size <=? Z.of_nat (List.length buffer))%Z then
      match append_parquet' out_exists (batches st) buffer with
      | Returns written =>
          for_genes' batch_size out_exists done_ids rest
            (mkRunState [] (processed st + 1) (skipped st) written)
      | Raises e =>
          Aborted e (mkRunState buffer (processed st + 1) (skipped st)
                                (batches st))
      end
    else
      for_genes' batch_size out_exists done_ids rest
        (mkRunState buffer (processed st + 1) (skipped st) (batches st)).
Proof.
  unfold is_new. intros H%negb_true_iff [[html plain] Hf].
  unfold for_genes', row_of', row_of. cbn [for_genes]. rewrite H.
  unfold fetch_notes' in Hf. rewrite Hf. reflexivity.
Qed.

(** The loop as long as the buffer stays short of a batch: nothing is
    written. *)
Lemma for_genes_no_write batch_size out_exists done_ids genes : forall st,
  all_fetched' genes ->
  List.length (rows_buffer st ++ rows_of done_ids genes)
  < batch_rows batch_size ->
  for_genes' batch_size out_exists done_ids genes st
  = Finished
      (mkRunState (rows_buffer st ++ rows_of done_ids genes)
                  (processed st
                   + List.length (filter (is_new done_ids) genes))
                  (skipped st + List.length (old done_ids genes))
                  (batches st)).
Proof.
  unfold rows_of, old.
  induction genes as [|gid rest IH]; intros st Hall Hlen.
  - cbn [filter map List.length for_genes]. rewrite app_nil_r, !Nat.add_0_r.
    destruct st; reflexivity.
  - assert (Hrest : all_fetched' rest)
      by (intros g Hg; apply Hall; right; exact Hg).
    cbn [filter] in *. destruct (is_new done_ids gid) eqn:Hn; cbn [negb].
    + rewrite (for_genes_new _ _ _ _ _ _ Hn (Hall gid (or_introl eq_refl))).
      cbv zeta. cbn [map List.length] in *.
      assert (Hone : List.length (rows_buffer st ++ [row_of' gid])
                     = List.length (rows_buffer st) + 1)
        by (rewrite length_app; reflexivity).
      rewrite length_app in Hlen. cbn [List.length] in Hlen.
      replace (batch_size <=? _)%Z with false
        by (symmetry; apply Z.leb_gt; unfold batch_rows in Hlen; lia).
      rewrite IH; [|exact Hrest|].
      * cbn [rows_buffer processed skipped batches].
        rewrite <- app_assoc. cbn [app]. f_equal. f_equal; lia.
      * cbn [rows_buffer]. rewrite <- app_assoc, length_app.
        cbn [app List.length]. lia.
    + rewrite (for_genes_old _ _ _ _ _ _ Hn).
      rewrite IH; [|exact Hrest | exact Hlen].
      cbn [rows_buffer processed skipped batches List.length].
      f_equal. f_equal; lia.
Qed.

(** The loop when the write of the first batch it completes raises. *)
Lemma for_genes_write_fails batch_size out_exists done_ids exn genes :
  forall st,
  (forall rows, rows <> [] ->
                append_parquet' out_exists (batches st) rows = Raises exn) ->
  all_fetched' genes ->
  List.length (rows_buffer st) < batch_rows batch_size ->
  batch_rows batch_size
  <= List.length (rows_buffer st ++ rows_of done_ids genes) ->
  exists st',
    for_genes' batch_size out_exists done_ids genes st = Aborted exn st'
    /\ rows_buffer st'
       = firstn (batch_rows batch_size)
                (rows_buffer st ++ rows_of done_ids genes)
    /\ batches st' = batches st.
Proof.
  unfold rows_of.
  induction genes as [|gid rest IH]; intros st Hfail Hall Hlen Hge.
  - cbn [filter map] in Hge. rewrite app_nil_r in Hge. lia.
  - assert (Hrest : all_fetched' rest)
      by (intros g Hg; apply Hall; right; exact Hg).
    cbn [filter] in *. destruct (is_new done_ids gid) eqn:Hn.
    + rewrite (for_genes_new _ _ _ _ _ _ Hn (Hall gid (or_introl eq_refl))).
      cbv zeta. cbn [map] in *.
      set (row := row_of' gid) in *.
      set (more := map row_of' (filter (is_new done_ids) rest)) in *.
      assert (Happ : rows_buffer st ++ row :: more
                     = (rows_buffer st ++ [row]) ++ more)
        by (rewrite <- app_assoc; reflexivity).
      assert (Hone : List.length (rows_buffer st ++ [row])
                     = List.length (rows_buffer st) + 1)
        by (rewrite length_app; reflexivity).
      destruct (batch_size
                <=? Z.of_nat (List.length (rows_buffer st ++ [row])))%Z
        eqn:E.
      * destruct (batch_rows_reached _ _ E) as [Hfull | Hshort]; try lia.
        2:{ apply Z.leb_le in E. unfold batch_rows in *. lia. }
        rewrite Hfail
          by (intros Hnil; rewrite Hnil in Hone; cbn in Hone; lia).
        eexists. split; [reflexivity|].
        cbn [rows_buffer batches]. split; [|reflexivity].
        rewrite Happ, <- Hfull. symmetry. apply firstn_app_exact.
      * apply Z.leb_gt in E.
        destruct (IH (mkRunState (rows_buffer st ++ [row])
                                 (processed st + 1) (skipped st) (batches st)))
          as [st' [Hrun [Hbuf Hbat]]].
        -- exact Hfail.
        -- exact Hrest.
        -- cbn [rows_buffer]. unfold batch_rows. lia.
        -- cbn [rows_buffer]. rewrite <- Happ. exact Hge.
        -- exists st'. split; [exact Hrun|].
           cbn [rows_buffer batches] in Hbuf, Hbat.
           rewrite Happ. split; assumption.
    + rewrite (for_genes_old _ _ _ _ _ _ Hn).
      apply (IH (mkRunState (rows_buffer st) (processed st) (skipped st + 1)
                            (batches st))); assumption.
Qed.

(** The loop of a run that starts without an output file, once a batch is
    complete: the batch is written, and nothing else. *)
Lemma for_genes_fresh batch_size done_ids genes : forall st,
  creates write_parquet ->
  all_fetched' genes ->
  batches st = [] ->
  List.length (rows_buffer st) < batch_rows batch_size ->
  batch_rows batch_size
  <= List.length (rows_buffer st ++ rows_of done_ids genes) ->
  (List.length (rows_buffer st ++ rows_of done_ids genes)
   < 2 * batch_rows batch_size ->
   for_genes' batch_size false done_ids genes st
   = Finished
       (mkRunState
          (skipn (batch_rows batch_size)
                 (rows_buffer st ++ rows_of done_ids genes))
          (processed st + List.length (filter (is_new done_ids) genes))
          (skipped st + List.length (old done_ids genes))
          [firstn (batch_rows batch_size)
                  (rows_buffer st ++ rows_of done_ids genes)]))
  /\ (2 * batch_rows batch_size
      <= List.length (rows_buffer st ++ rows_of done_ids genes) ->
      exists st',
        for_genes' batch_size false done_ids genes st
        = Aborted "TypeError" st'
        /\ batches st'
           = [firstn (batch_rows batch_size)
                     (rows_buffer st ++ rows_of done_ids genes)]
        /\ rows_buffer st'
           = firstn (batch_rows batch_size)
                    (skipn (batch_rows batch_size)
                           (rows_buffer st ++ rows_of done_ids genes))).
Proof.
  unfold rows_of, old.
  induction genes as [|gid rest IH]; intros st Hw Hall Hbat Hlen Hge.
  - cbn [filter map] in Hge. rewrite app_nil_r in Hge. lia.
  - assert (Hrest : all_fetched' rest)
      by (intros g Hg; apply Hall; right; exact Hg).
    cbn [filter] in *. destruct (is_new done_ids gid) eqn:Hn; cbn [negb].
    + rewrite (for_genes_new _ _ _ _ _ _ Hn (Hall gid (or_introl eq_refl))).
      cbv zeta. cbn [map List.length] in *.
      set (row := row_of' gid) in *.
      set (more := map row_of' (filter (is_new done_ids) rest)) in *.
      assert (Happ : rows_buffer st ++ row :: more
                     = (rows_buffer st ++ [row]) ++ more)
        by (rewrite <- app_assoc; reflexivity).
      assert (Hone : List.length (rows_buffer st ++ [row])
                     = List.length (rows_buffer st) + 1)
        by (rewrite length_app; reflexivity).
      destruct (batch_size
                <=? Z.of_nat (List.length (rows_buffer st ++ [row])))%Z
        eqn:E.
      * destruct (batch_rows_reached _ _ E) as [Hfull | Hshort]; try lia.
        2:{ apply Z.leb_le in E. unfold batch_rows in *. lia. }
        assert (Hwrite : append_parquet' false (batches st)
                                         (rows_buffer st ++ [row])
                         = Returns [rows_buffer st ++ [row]]).
        { rewrite Hbat. unfold append_parquet', append_parquet.
          destruct (rows_buffer st ++ [row]) as [|r rs] eqn:Eb;
            [cbn in Hone; lia|].
          cbn [orb nonempty]. rewrite Hw. reflexivity. }
        rewrite Hwrite, Happ, <- Hfull, firstn_app_exact, skipn_app_exact.
        rewrite length_app, Hfull.
        assert (Hfail : forall rows, rows <> [] ->
                   append_parquet' false [rows_buffer st ++ [row]] rows
                   = Raises "TypeError").
        { intros [|r rs] Hr; [contradiction | reflexivity]. }
        split; intros H.
        -- rewrite for_genes_no_write;
             [|exact Hrest
              |unfold rows_of; cbn [rows_buffer app]; fold more; lia].
           unfold rows_of, old.
           cbn [rows_buffer processed skipped batches app]. fold more.
           f_equal. f_equal; lia.
        -- destruct (for_genes_write_fails batch_size false done_ids
                       "TypeError" rest
                       (mkRunState [] (processed st + 1) (skipped st)
                                   [rows_buffer st ++ [row]]))
             as [st' [Hrun [Hbuf Hb]]].
           ++ exact Hfail.
           ++ exact Hrest.
           ++ cbn [rows_buffer List.length].
              pose proof (batch_rows_positive batch_size). lia.
           ++ unfold rows_of. cbn [rows_buffer app]. fold more. lia.
           ++ exists st'. split; [exact Hrun|].
              unfold rows_of in Hbuf.
              cbn [rows_buffer batches app] in Hbuf, Hb. fold more in Hbuf.
              split; assumption.
      * apply Z.leb_gt in E.
        destruct (IH (mkRunState (rows_buffer st ++ [row])
                                 (processed st + 1) (skipped st) (batches st)))
          as [Hone_batch Htwo].
        -- exact Hw.
        -- exact Hrest.
        -- exact Hbat.
        -- cbn [rows_buffer]. unfold batch_rows. lia.
        -- cbn [rows_buffer]. fold more. rewrite <- Happ. exact Hge.
        -- cbn [rows_buffer processed skipped batches] in Hone_batch, Htwo.
           fold more in Hone_batch, Htwo. rewrite Happ. split; intros H.
           ++ rewrite (Hone_batch H). f_equal. f_equal; lia.
           ++ exact (Htwo H).
    + rewrite (for_genes_old _ _ _ _ _ _ Hn).
      destruct (IH (mkRunState (rows_buffer st) (processed st)
                               (skipped st + 1) (batches st))
                   Hw Hrest Hbat Hlen Hge) as [Hone_batch Htwo].
      cbn [rows_buffer processed skipped batches List.length]
        in Hone_batch, Htwo |- *.
      split; intros H.
      * rewrite (Hone_batch H). f_equal. f_equal; lia.
      * exact (Htwo H).
Qed.

Lemma filter_all_new genes : filter (is_new []) genes = genes.
Proof.
  induction genes as [|g genes IH]; [reflexivity|].
  cbn [filter is_new existsb negb]. rewrite IH. reflexivity.
Qed.

Lemma old_nothing genes : old [] genes = [].
Proof. unfold old. induction genes as [|g genes IH]; [reflexivity | exact IH]. Qed.

(** X20.  A run that starts without an output file and has no more genes
    than fit in one batch ends normally when the write that creates the
    file returns and no fetch lets an exception through: the file holds
    one batch with one row per gene of the series, in the order of the
    series (no batch for an empty series), [processed] is the length of
    the series and nothing is skipped. *)
Theorem X20_fresh_run_within_one_batch
        (genes_status : list string) (limit : option Z) (batch_size : Z) :
  creates write_parquet ->
  all_fetched' (series genes_status limit) ->
  List.length (series genes_status limit) <= batch_rows batch_size ->
  exists st,
    run' genes_status None limit batch_size = Finished st
    /\ batches st = with_batch [] (map row_of' (series genes_status limit))
    /\ processed st = List.length (series genes_status limit)
    /\ skipped st = 0.
Proof.
  intros Hw Hall Hfit. unfold run', run. fold for_genes'. fold flush'.
  cbn [load_done_ids is_file].
  set (genes := series genes_status limit) in *.
  assert (Hrows : rows_of [] genes = map row_of' genes)
    by (unfold rows_of; rewrite filter_all_new; reflexivity).
  assert (Hlen : List.length (rows_of [] genes) = List.length genes)
    by (rewrite Hrows; apply length_map).
  destruct (Nat.lt_ge_cases (List.length genes) (batch_rows batch_size))
    as [Hlt | Hge].
  - rewrite for_genes_no_write;
      [|exact Hall | cbn [rows_buffer app]; lia].
    cbn [rows_buffer processed skipped batches app].
    rewrite filter_all_new, old_nothing, Hrows.
    unfold flush', flush. cbn [rows_buffer processed skipped batches].
    destruct (map row_of' genes) as [|r rs] eqn:Er.
    + eexists. cbn [append_parquet]. split; [reflexivity|].
      cbn [batches processed skipped with_batch List.length].
      repeat split; lia.
    + cbn [append_parquet orb nonempty]. rewrite Hw. eexists.
      split; [reflexivity|].
      cbn [batches processed skipped with_batch List.length app].
      repeat split; lia.
  - destruct (for_genes_fresh batch_size [] genes (mkRunState [] 0 0 [])
                Hw Hall eq_refl) as [Hone _].
    + cbn [rows_buffer List.length].
      pose proof (batch_rows_positive batch_size). lia.
    + cbn [rows_buffer app]. lia.
    + cbn [rows_buffer processed skipped app] in Hone.
      rewrite Hone
        by (pose proof (batch_rows_positive batch_size); lia).
      rewrite filter_all_new, old_nothing, Hrows.
      assert (Hall_in : batch_rows batch_size
                        = List.length (map row_of' genes))
        by (rewrite length_map; lia).
      rewrite Hall_in, firstn_all, skipn_all.
      unfold flush', flush. cbn [rows_buffer processed skipped batches].
      cbn [append_parquet]. eexists. split; [reflexivity|].
      cbn [batches processed skipped List.length].
      split; [|split; lia].
      destruct (map row_of' genes) as [|r rs] eqn:Er; [|reflexivity].
      cbn [List.length] in Hall_in.
      pose proof (batch_rows_positive batch_size). lia.
Qed.

(** X21.  A run never gets a second batch into its output.  When it
    starts without an output file and has more genes than fit in one
    batch, the first batch is written and the write of the second raises
    [TypeError]: the run ends with it, the file holds the rows of the
    first batch only, and the rows of the second stay in the buffer. *)
Theorem X21_second_batch_ends_the_run
        (genes_status : list string) (limit : option Z) (batch_size : Z) :
  creates write_parquet ->
  all_fetched' (series genes_status limit) ->
  batch_rows batch_size < List.length (series genes_status limit) ->
  exists st,
    run' genes_status None limit batch_size = Aborted "TypeError" st
    /\ batches st
       = [firstn (batch_rows batch_size)
                 (map row_of' (series genes_status limit))]
    /\ rows_buffer st
       = firstn (batch_rows batch_size)
                (skipn (batch_rows batch_size)
                       (map row_of' (series genes_status limit))).
Proof.
  intros Hw Hall Hmore. unfold run', run. fold for_genes'. fold flush'.
  cbn [load_done_ids is_file].
  set (genes := series genes_status limit) in *.
  assert (Hrows : rows_of [] genes = map row_of' genes)
    by (unfold rows_of; rewrite filter_all_new; reflexivity).
  assert (Hlen : List.length (map row_of' genes) = List.length genes)
    by apply length_map.
  pose proof (batch_rows_positive batch_size) as Hpos.
  destruct (for_genes_fresh batch_size [] genes (mkRunState [] 0 0 [])
              Hw Hall eq_refl) as [Hone Htwo].
  - cbn [rows_buffer List.length]. lia.
  - cbn [rows_buffer app]. rewrite Hrows. lia.
  - cbn [rows_buffer processed skipped app] in Hone, Htwo.
    rewrite Hrows in Hone, Htwo.
    destruct (Nat.lt_ge_cases (List.length (map row_of' genes))
                              (2 * batch_rows batch_size)) as [Hlt | Hge].
    + rewrite (Hone Hlt). unfold flush', flush.
      cbn [rows_buffer processed skipped batches].
      assert (Hrest : List.length
                        (skipn (batch_rows batch_size) (map row_of' genes))
                      = List.length genes - batch_rows batch_size)
        by (rewrite length_skipn; lia).
      destruct (skipn (batch_rows batch_size) (map row_of' genes))
        as [|r rs] eqn:Es; [cbn in Hrest; lia|].
      cbn [append_parquet orb nonempty]. eexists.
      split; [reflexivity|]. cbn [batches rows_buffer].
      split; [reflexivity|].
      symmetry. apply firstn_all2. lia.
    + destruct (Htwo Hge) as [st' [Hrun [Hbat Hbuf]]].
      rewrite Hrun. exists st'. cbn [flush' flush].
      split; [reflexivity|]. split; assumption.
Qed.

(** The loop up to a gene whose fetch lets an exception through. *)
Lemma for_genes_until batch_size out_exists done_ids pre gid post exn :
  forall st,
  is_new done_ids gid = true ->
  fetch_notes' gid = Raises exn ->
  for_genes' batch_size out_exists done_ids (pre ++ gid :: post) st
  = match for_genes' batch_size out_exists done_ids pre st with
    | Finished st1 => Aborted exn st1
    | Aborted e st1 => Aborted e st1
    end.
Proof.
  intros st Hnew Hraise. revert st.
  induction pre as [|g pre IH]; intros st.
  - cbn [app]. unfold for_genes'. cbn [for_genes].
    unfold is_new in Hnew. apply negb_true_iff in Hnew. rewrite Hnew.
    unfold fetch_notes' in Hraise. rewrite Hraise. reflexivity.
  - cbn [app]. unfold for_genes'. cbn [for_genes]. fold for_genes'.
    destruct (existsb (String.eqb g) done_ids); [apply IH|].
    destruct (fetch_notes get_curator_notes_html get_text
                          is_request_exception g)
      as [[html plain]|e]; [|reflexivity].
    destruct (batch_size <=? _)%Z; [|apply IH].
    destruct (append_parquet write_parquet _ _ _); [apply IH | reflexivity].
Qed.

(** X22.  When the fetch for a gene lets an exception through, which it
    does only for an exception that is no request exception, [run] ends
    with it at once and without the final write.  The rows fetched since
    the last write stay in the buffer and never reach the output: all rows
    fetched so far when they are fewer than a batch, and the rows behind
    the first batch in a run that started without an output file. *)
Theorem X22_run_abort_loses_the_buffer
        (genes_status : list string) (out : Output) (limit : option Z)
        (batch_size : Z) (pre post : list string) (gid exn : string) :
  series genes_status limit = pre ++ gid :: post ->
  all_fetched' pre ->
  is_new (load_done_ids out) gid = true ->
  fetch_notes' gid = Raises exn ->
  is_request_exception exn = false
  /\ (List.length (rows_of (load_done_ids out) pre) < batch_rows batch_size ->
      exists st,
        run' genes_status out limit batch_size = Aborted exn st
        /\ batches st = []
        /\ rows_buffer st = rows_of (load_done_ids out) pre)
  /\ (out = None ->
      creates write_parquet ->
      batch_rows batch_size <= List.length (rows_of [] pre)
      < 2 * batch_rows batch_size ->
      exists st,
        run' genes_status out limit batch_size = Aborted exn st
        /\ batches st = [firstn (batch_rows batch_size) (rows_of [] pre)]
        /\ rows_buffer st = skipn (batch_rows batch_size) (rows_of [] pre)).
Proof.
  intros Hseries Hall Hnew Hraise. split; [|split].
  - unfold fetch_notes', fetch_notes in Hraise.
    destruct (get_curator_notes_html gid) as [html|e]; [discriminate|].
    destruct (is_request_exception e) eqn:E; [discriminate|].
    inversion Hraise; subst. exact E.
  - intros Hshort. unfold run', run. fold for_genes'. fold flush'.
    rewrite Hseries, (for_genes_until _ _ _ _ _ _ _ _ Hnew Hraise).
    rewrite for_genes_no_write; [|exact Hall | exact Hshort].
    eexists. split; [reflexivity|]. split; reflexivity.
  - intros -> Hw [Hge Hlt]. unfold run', run. fold for_genes'. fold flush'.
    cbn [load_done_ids is_file] in *.
    rewrite Hseries, (for_genes_until _ _ _ _ _ _ _ _ Hnew Hraise).
    destruct (for_genes_fresh batch_size [] pre (mkRunState [] 0 0 [])
                Hw Hall eq_refl) as [Hone _].
    + cbn [rows_buffer List.length].
      pose proof (batch_rows_positive batch_size). lia.
    + exact Hge.
    + rewrite (Hone Hlt). eexists. split; [reflexivity|].
      split; reflexivity.
Qed.

Lemma for_genes_all_done batch_size out_exists done_ids genes : forall st,
  (forall gid, In gid genes -> existsb (String.eqb gid) done_ids = true) ->
  for_genes' batch_size out_exists done_ids genes st
  = Finished (mkRunState (rows_buffer st) (processed st)
                         (skipped st + List.length genes) (batches st)).
Proof.
  induction genes as [|gid rest IH]; intros st Hdone.
  - cbn. rewrite Nat.add_0_r. destruct st; reflexivity.
  - unfold for_genes'. cbn [for_genes]. fold for_genes'.
    rewrite (Hdone gid (or_introl eq_refl)).
    rewrite IH by (intros g Hg; apply Hdone; right; exact Hg).
    cbn [rows_buffer processed skipped batches List.length].
    f_equal. f_equal. lia.
Qed.

Lemma append_parquet_written out_exists written rows written' :
  append_parquet' out_exists written rows = Returns written' ->
  List.concat written' = List.concat written ++ rows.
Proof.
  unfold append_parquet', append_parquet. destruct rows as [|r rows].
  - intros H. inversion H; subst. rewrite app_nil_r. reflexivity.
  - destruct (out_exists || nonempty written); [discriminate|].
    destruct (write_parquet (r :: rows)); [|discriminate].
    intros H. inversion H; subst.
    rewrite concat_app. cbn [List.concat]. rewrite app_nil_r. reflexivity.
Qed.

(** The identifiers of the rows of a loop that ends normally: those the
    state had, and those of the new genes. *)
Lemma for_genes_finished_ids batch_size out_exists done_ids genes :
  forall st st',
  for_genes' batch_size out_exists done_ids genes st = Finished st' ->
  map gene_id (List.concat (batches st') ++ rows_buffer st')
  = map gene_id (List.concat (batches st) ++ rows_buffer st)
    ++ filter (is_new done_ids) genes.
Proof.
  induction genes as [|gid rest IH]; intros st st' H.
  - cbn in H. inversion H; subst. cbn [filter]. rewrite app_nil_r.
    reflexivity.
  - unfold for_genes' in H. cbn [for_genes] in H. fold for_genes' in H.
    cbn [filter]. unfold is_new at 1.
    destruct (existsb (String.eqb gid) done_ids); cbn [negb].
    + rewrite (IH _ _ H). reflexivity.
    + destruct (fetch_notes get_curator_notes_html get_text
                            is_request_exception gid)
        as [[html plain]|e]; [|discriminate H].
      destruct (batch_size <=? _)%Z.
      * fold append_parquet' in H.
        destruct (append_parquet' out_exists (batches st)
                    (rows_buffer st ++ [mkNoteRow gid html plain]))
          as [written|e] eqn:Ew; [|discriminate H].
        rewrite (IH _ _ H). cbn [rows_buffer batches].
        rewrite (append_parquet_written _ _ _ _ Ew).
        rewrite app_nil_r, app_assoc, map_app. cbn [map gene_id].
        rewrite <- app_assoc. reflexivity.
      * rewrite (IH _ _ H). cbn [rows_buffer batches].
        rewrite app_assoc, map_app. cbn [map gene_id].
        rewrite <- app_assoc. reflexivity.
Qed.

(** X23.  Resuming after a run that ended normally is safe.  A second
    run that finds in the output the identifiers that were there before
    and those of the rows the first run wrote (and any others) fetches
    nothing and writes nothing, whatever its batch size: it skips every
    gene of the series. *)
Theorem X23_run_resume_writes_nothing
        (genes_status : list string) (out out' : Output) (limit : option Z)
        (batch_size batch_size' : Z) (st : RunState) :
  run' genes_status out limit batch_size = Finished st ->
  incl (load_done_ids out ++ map gene_id (List.concat (batches st)))
       (load_done_ids out') ->
  run' genes_status out' limit batch_size'
  = Finished (mkRunState [] 0 (List.length (series genes_status limit)) []).
Proof.
  unfold run', run. fold for_genes'. fold flush'. intros H Hincl.
  set (genes := series genes_status limit) in *.
  assert (Hids : map gene_id (List.concat (batches st))
                 = filter (is_new (load_done_ids out)) genes).
  { destruct (for_genes' batch_size (is_file out) (load_done_ids out) genes
                         (mkRunState [] 0 0 [])) as [st0|e st0] eqn:Hrun;
      [|discriminate H].
    unfold flush', flush in H. fold append_parquet' in H.
    destruct (append_parquet' (is_file out) (batches st0) (rows_buffer st0))
      as [written|e] eqn:Ew; [|discriminate H].
    inversion H; subst. cbn [batches].
    rewrite (append_parquet_written _ _ _ _ Ew).
    apply (for_genes_finished_ids _ _ _ _ _ _ Hrun). }
  rewrite for_genes_all_done; [reflexivity|].
  intros gid Hin. apply existsb_exists. exists gid.
  split; [|apply String.eqb_refl].
  apply Hincl, in_or_app.
  destruct (existsb (String.eqb gid) (load_done_ids out)) eqn:E.
  - left. apply existsb_exists in E as [x [Hx Hxe]].
    apply String.eqb_eq in Hxe. subst x. exact Hx.
  - right. rewrite Hids. apply filter_In. split; [exact Hin|].
    unfold is_new. rewrite E. reflexivity.
Qed.

(** X24.  [run] does not catch what a write raises and does not try
    again.  When no write to the output goes through (the file exists
    already, so that every write is one with [append=True], or the write
    that would create it raises), a run that has at least one new gene
    ends with the exception of its first write, at the moment the buffer
    holds a batch (or, with fewer new genes than that, at the last
    write); the rows fetched until then are in the buffer, nothing is
    written, and no gene behind them is fetched. *)
Theorem X24_run_ends_at_a_failed_write
        (genes_status : list string) (out : Output) (limit : option Z)
        (batch_size : Z) (exn : string) :
  writes_raise write_parquet out exn ->
  all_fetched' (series genes_status limit) ->
  filter (is_new (load_done_ids out)) (series genes_status limit) <> [] ->
  exists st,
    run' genes_status out limit batch_size = Aborted exn st
    /\ batches st = []
    /\ rows_buffer st
       = firstn (batch_rows batch_size)
                (map row_of'
                     (filter (is_new (load_done_ids out))
                             (series genes_status limit))).
Proof.
  intros Hw Hall Hnew. unfold run', run. fold for_genes'. fold flush'.
  set (genes := series genes_status limit) in *.
  assert (Hfail : forall rows, rows <> [] ->
             append_parquet' (is_file out) [] rows = Raises exn).
  { intros [|r rs] Hr; [contradiction|].
    unfold append_parquet', append_parquet.
    destruct out as [ids|]; cbn [is_file orb nonempty].
    - cbn in Hw. rewrite Hw. reflexivity.
    - cbn in Hw. rewrite Hw. reflexivity. }
  pose proof (batch_rows_positive batch_size) as Hpos.
  destruct (Nat.lt_ge_cases
              (List.length (rows_of (load_done_ids out) genes))
              (batch_rows batch_size)) as [H | H].
  - rewrite for_genes_no_write; [|exact Hall | exact H].
    unfold flush', flush. cbn [rows_buffer processed skipped batches app].
    fold append_parquet'. rewrite Hfail.
    + eexists. split; [reflexivity|]. cbn [batches rows_buffer].
      split; [reflexivity|]. symmetry. apply firstn_all2.
      apply Nat.lt_le_incl. exact H.
    + unfold rows_of.
      destruct (filter (is_new (load_done_ids out)) genes);
        [contradiction | discriminate].
  - destruct (for_genes_write_fails batch_size (is_file out)
                (load_done_ids out) exn genes (mkRunState [] 0 0 []))
      as [st [Hrun [Hbuf Hbat]]].
    + exact Hfail.
    + exact Hall.
    + cbn [rows_buffer List.length]. lia.
    + exact H.
    + rewrite Hrun. exists st. split; [reflexivity|].
      split; [exact Hbat | exact Hbuf].
Qed.

End BatchingProperties.

(** ** The properties of [run] at an example *)

Lemma notes_sample_creates : Notes.creates NotesSample.write_parquet.
Proof. intros rows. reflexivity. Defined.

Lemma notes_sample_all_fetched :
  Notes.all_fetched NotesSample.get_curator_notes_html NotesSample.get_text
                    Sample.is_request_exception
                    ["g1"; "g2"; "g3"; "g5"; "g6"].
Proof.
  intros gid [<- | [<- | [<- | [<- | [<- | []]]]]]; eexists;
    vm_compute; reflexivity.
Defined.

Lemma X20_fresh_run_within_one_batch_witness :
  exists st,
    NotesSample.run ["g1"; "g2"; "g3"; "g5"; "g6"] None None 5
    = Notes.Finished st
    /\ Notes.batches st
       = [map NotesSample.row_of ["g1"; "g2"; "g3"; "g5"; "g6"]]
    /\ Notes.processed st = 5
    /\ Notes.skipped st = 0.
Proof.
  apply (X20_fresh_run_within_one_batch
           NotesSample.get_curator_notes_html NotesSample.get_text
           Sample.is_request_exception NotesSample.write_parquet
           ["g1"; "g2"; "g3"; "g5"; "g6"] None 5).
  - exact notes_sample_creates.
  - exact notes_sample_all_fetched.
  - vm_compute. lia.
Defined.

Lemma X21_second_batch_ends_the_run_witness :
  exists st,
    NotesSample.run ["g1"; "g2"; "g3"; "g5"; "g6"] None None 2
    = Notes.Aborted "TypeError" st
    /\ Notes.batches st = [map NotesSample.row_of ["g1"; "g2"]]
    /\ Notes.rows_buffer st = map NotesSample.row_of ["g3"; "g5"].
Proof.
  apply (X21_second_batch_ends_the_run
           NotesSample.get_curator_notes_html NotesSample.get_text
           Sample.is_request_exception NotesSample.write_parquet
           ["g1"; "g2"; "g3"; "g5"; "g6"] None 2).
  - exact notes_sample_creates.
  - exact notes_sample_all_fetched.
  - vm_compute. lia.
Defined.

Lemma X22_run_abort_loses_the_buffer_witness :
  Sample.is_request_exception "ValueError" = false
  /\ exists st,
       NotesSample.run ["g1"; "g4"; "g2"] None None 2
       = Notes.Aborted "ValueError" st
       /\ Notes.batches st = []
       /\ Notes.rows_buffer st = map NotesSample.row_of ["g1"].
Proof.
  assert (Hall : Notes.all_fetched NotesSample.get_curator_notes_html
                   NotesSample.get_text Sample.is_request_exception ["g1"]).
  { intros gid [<- | []]. eexists. vm_compute. reflexivity. }
  pose proof (X22_run_abort_loses_the_buffer
                NotesSample.get_curator_notes_html NotesSample.get_text
                Sample.is_request_exception NotesSample.write_parquet
                ["g1"; "g4"; "g2"] None None 2 ["g1"] ["g2"] "g4"
                "ValueError" eq_refl Hall eq_refl eq_refl) as [Hexn [H _]].
  split; [exact Hexn|]. apply H. vm_compute. lia.
Defined.

Lemma X23_run_resume_writes_nothing_witness :
  exists st,
    NotesSample.run ["g1"; "g2"; "g3"] None None 5 = Notes.Finished st
    /\ map Notes.gene_id (List.concat (Notes.batches st))
       = ["g1"; "g2"; "g3"]
    /\ NotesSample.run ["g1"; "g2"; "g3"] (Some ["g1"; "g2"; "g3"]) None 7
       = Notes.Finished (Notes.mkRunState [] 0 3 []).
Proof.
  eexists. split; [vm_compute; reflexivity|].
  split; [reflexivity|].
  apply (X23_run_resume_writes_nothing
           NotesSample.get_curator_notes_html NotesSample.get_text
           Sample.is_request_exception NotesSample.write_parquet
           ["g1"; "g2"; "g3"] None (Some ["g1"; "g2"; "g3"]) None 5 7
           (Notes.mkRunState
              (map NotesSample.row_of ["g1"; "g2"; "g3"]) 3 0
              [map NotesSample.row_of ["g1"; "g2"; "g3"]])).
  - vm_compute. reflexivity.
  - intros gid Hin. exact Hin.
Defined.

Lemma X24_run_ends_at_a_failed_write_witness :
  exists st,
    NotesSample.run ["g1"; "g2"; "g3"; "g5"; "g6"] (Some ["g2"]) None 2
    = Notes.Aborted "TypeError" st
    /\ Notes.batches st = []
    /\ Notes.rows_buffer st = map NotesSample.row_of ["g1"; "g3"].
Proof.
  apply (X24_run_ends_at_a_failed_write
           NotesSample.get_curator_notes_html NotesSample.get_text
           Sample.is_request_exception NotesSample.write_parquet
           ["g1"; "g2"; "g3"; "g5"; "g6"] (Some ["g2"]) None 2 "TypeError").
  - reflexivity.
  - exact notes_sample_all_fetched.
  - vm_compute. discriminate.
Defined.
